(** * SpendGuard SDK: billing reconciliation and strict-budget provisioning

    A shallow embedding of the three scripts of the repository

      - [examples/reconcile_spendguard_billing.py]
      - [examples/generate_spendguard_openai_traffic.py]
      - [skills/spendguard-strict-budget-runner/scripts/bootstrap_strict_budget.py]

    together with the properties their specification states about them.

    Conventions of the embedding.
      - A Python [str] is a [string] (its UTF-8 bytes; byte-wise
        lexicographic order coincides with Python's code-point order).
      - A Python [int] is a [Z]; a Python [float] is a binary64 value of
        the Standard Library's [spec_float] with [prec = 53], [emax = 1024].
      - A [dict] keyed by [(provider, model)] is a [gmap (string * string) Z].
      - A raised exception is the [Raise] branch of [result].
        [ArgparseError message] is the exit of [argparse]'s [parser.error]:
        the usage and [message] on the error stream, then [SystemExit(2)]. *)

From Stdlib Require Import ZArith String Ascii List Lia Bool.
From Stdlib Require Import OrderedTypeEx.
From Stdlib Require Import SpecFloat.
From Stdlib Require Import QArith Qabs Qround Qpower Lqa.
From stdpp Require Import gmap strings list sorting pretty.

Local Open Scope string_scope.
Local Open Scope list_scope.
Local Open Scope Z_scope.

(** ** Exceptions and results *)

Inductive exn : Type :=
  | RuntimeError (msg : string)
  | SystemExit (msg : string)
  | ArgumentTypeError (msg : string)
  | ArgparseError (message : string)
  | OperationalError
  | JSONDecodeError
  | URLError (reason : string)
  | ValueError
  | TypeError
  | AttributeError
  | OverflowError.

Inductive result (A : Type) : Type :=
  | Ok (a : A)
  | Raise (e : exn).
Arguments Ok {A} a.
Arguments Raise {A} e.

Definition rbind {A B} (r : result A) (k : A → result B) : result B :=
  match r with
  | Ok a => k a
  | Raise e => Raise e
  end.

Definition is_ok {A} (r : result A) : bool :=
  match r with Ok _ => true | Raise _ => false end.

(** [try: ... except Exception: d] *)
Definition except_all {A} (r : result A) (d : A) : A :=
  match r with Ok a => a | Raise _ => d end.

(** ** Aggregation keys and their order *)

Abbreviation key := (string * string)%type.

(** Python compares tuples lexicographically, and strings by code point. *)
Definition key_leb (a b : key) : bool :=
  match String.compare a.1 b.1 with
  | Lt => true
  | Gt => false
  | Eq => String.leb a.2 b.2
  end.

Definition key_le (a b : key) : Prop := key_leb a b = true.
Definition key_lt (a b : key) : Prop := key_le a b ∧ a ≠ b.

#[global] Instance key_le_dec : RelDecision key_le.
Proof. intros a b. unfold key_le. apply _. Defined.

(** [sorted(...)] on keys. *)
Definition sorted (l : list key) : list key := merge_sort key_le l.

(** ** Ledger rows and their aggregation *)

Record LedgerRow : Type := mkLedgerRow {
  provider : string;
  model : string;
  created_at : string;
  realized_microcents : Z;
  realized_cents : Z
}.

Definition row_key (r : LedgerRow) : key := (provider r, model r).

(** [sums.get(key, 0)] *)
Definition get0 (sums : gmap key Z) (k : key) : Z := default 0 (sums !! k).

(** [_sum_microcents_by_provider_model] *)
Definition _sum_microcents_by_provider_model (rows : list LedgerRow) : gmap key Z :=
  foldl (λ sums r, <[row_key r := get0 sums (row_key r) + realized_microcents r]> sums)
        ∅ rows.

(** ** The report of [main] (reconcile_spendguard_billing.py)

    One row per key of [sorted(set(ledger_sums.keys()) | set(provider_sums.keys()))],
    holding the three microcent amounts that the loop formats. The value
    looked up is [int(sums.get(key) or 0)]: an absent key gives [None], and
    [None or 0] is [0]. *)

Record ReportRow : Type := mkReportRow {
  rr_provider : string;
  rr_model : string;
  rr_ledger : Z;
  rr_provider_cost : Z;
  rr_diff : Z
}.

Definition rr_key (r : ReportRow) : key := (rr_provider r, rr_model r).

Definition get_or_0 (sums : gmap key Z) (k : key) : Z :=
  match sums !! k with
  | Some v => if decide (v = 0) then 0 else v
  | None => 0
  end.

Definition report_keys (ledger_sums provider_sums : gmap key Z) : list key :=
  sorted (elements (dom ledger_sums ∪ dom provider_sums)).

Definition report_row (ledger_sums provider_sums : gmap key Z) (k : key) : ReportRow :=
  let l := get_or_0 ledger_sums k in
  let pr := get_or_0 provider_sums k in
  let diff := l - pr in
  mkReportRow k.1 k.2 l pr diff.

Definition report (ledger_sums provider_sums : gmap key Z) : list ReportRow :=
  report_row ledger_sums provider_sums <$> report_keys ledger_sums provider_sums.

(** The sum of [realized_microcents] over the rows carrying key [k]. *)
Definition ledger_total (rows : list LedgerRow) (k : key) : Z :=
  foldr (λ r acc, (if decide (row_key r = k) then realized_microcents r else 0) + acc) 0 rows.

Definition reconcile (rows : list LedgerRow) (provider_sums : gmap key Z) : list ReportRow :=
  report (_sum_microcents_by_provider_model rows) provider_sums.

(** ** Python values

    The values that [json.loads] and the [sqlite3] cursor hand to the
    scripts. A JSON object is kept as its list of items. *)

#[warnings="-register-all"]
Inductive pyval : Type :=
  | PNone
  | PBool (b : bool)
  | PInt (z : Z)
  | PFloat (f : spec_float)
  | PStr (s : string)
  | PBytes (s : string)
  | PList (l : list pyval)
  | PDict (items : list (string * pyval)).

Abbreviation pydict := (list (string * pyval)).

(** Truth value of an object, as tested by [or], [not] and [if]. *)
Definition truthy (v : pyval) : bool :=
  match v with
  | PNone => false
  | PBool b => b
  | PInt z => negb (z =? 0)
  | PFloat (S754_zero _) => false
  | PFloat _ => true
  | PStr s => negb (String.eqb s "")
  | PBytes s => negb (String.eqb s "")
  | PList l => match l with [] => false | _ => true end
  | PDict d => match d with [] => false | _ => true end
  end.

(** [x or y] *)
Definition py_or (x y : pyval) : pyval := if truthy x then x else y.

(** [d.get(k)] on a dict: [None] when the key is absent. *)
Fixpoint dict_get (d : pydict) (k : string) : pyval :=
  match d with
  | [] => PNone
  | (k', v) :: d' => if String.eqb k' k then v else dict_get d' k
  end.

(** [v.get(k)]: only a dict has the method. *)
Definition py_get (v : pyval) (k : string) : result pyval :=
  match v with
  | PDict d => Ok (dict_get d k)
  | _ => Raise AttributeError
  end.

(** The interpreter's own functions that the scripts call and whose
    text is not part of the repository: the JSON parser, the parsers
    behind [int(str)] and [float(str)], [repr], and [time.sleep], which
    returns after the delay or raises for a delay it cannot take. [None]
    stands for the exception a parser raises on input it rejects. *)
Class PyBuiltins : Type := {
  json_loads : string → option pyval;
  int_of_str : string → option Z;
  float_of_str : string → option spec_float;
  py_repr : pyval → string;
  time_sleep : spec_float → result unit
}.

(** ** Binary64 arithmetic *)

Definition prec : Z := 53.
Definition emax : Z := 1024.

Definition fmul : spec_float → spec_float → spec_float := SFmul prec emax.
Definition fdiv : spec_float → spec_float → spec_float := SFdiv prec emax.
Definition fadd : spec_float → spec_float → spec_float := SFadd prec emax.

(** An integer read as an unrounded binary value. *)
Definition exact_of_Z (z : Z) : spec_float :=
  match z with
  | Z0 => S754_zero false
  | Zpos p => S754_finite false p 0
  | Zneg p => S754_finite true p 0
  end.

(** [float(n)] for an [int], and the implicit conversion of an [int]
    operand of a float operation. *)
Definition float_of_int (z : Z) : result spec_float :=
  match binary_normalize prec emax z 0 false with
  | S754_infinity _ => Raise OverflowError
  | f => Ok f
  end.

(** The two integer constants of [usd * 100 * 1_000_000] as floats. *)
Definition f100 : spec_float := Eval vm_compute in binary_normalize prec emax 100 0 false.
Definition f1000000 : spec_float := Eval vm_compute in binary_normalize prec emax 1000000 0 false.

(** [a / b] on two [int]s with [b > 0]: the correctly rounded quotient. *)
Definition int_truediv (a b : Z) : result spec_float :=
  match fdiv (exact_of_Z a) (exact_of_Z b) with
  | S754_infinity _ => Raise OverflowError
  | f => Ok f
  end.

(** Nearest integer to [n / d], ties to the even one ([0 <= n], [0 < d]). *)
Definition rne_div (n d : Z) : Z :=
  let q := n / d in
  let r := n mod d in
  match 2 * r ?= d with
  | Lt => q
  | Eq => if Z.even q then q else q + 1
  | Gt => q + 1
  end.

(** Nearest integer to [m * 2^e], ties to even. *)
Definition rne_scaled (m : Z) (e : Z) : Z :=
  match e with
  | Zneg p => rne_div m (2 ^ Zpos p)
  | _ => m * 2 ^ e
  end.

(** [round(x)] with one argument: the nearest integer, ties to even. *)
Definition py_round (x : spec_float) : result Z :=
  match x with
  | S754_nan => Raise ValueError
  | S754_infinity _ => Raise OverflowError
  | S754_zero _ => Ok 0
  | S754_finite s m e => Ok (cond_Zopp s (rne_scaled (Zpos m) e))
  end.

(** [int(x)] on a float: truncation toward zero. *)
Definition float_trunc (x : spec_float) : result Z :=
  match x with
  | S754_nan => Raise ValueError
  | S754_infinity _ => Raise OverflowError
  | S754_zero _ => Ok 0
  | S754_finite s m e =>
      Ok (cond_Zopp s (match e with
                       | Zneg p => Zpos m / 2 ^ Zpos p
                       | _ => Zpos m * 2 ^ e
                       end))
  end.

Section WithBuiltins.
Context `{PyBuiltins}.

(** [int(v)] *)
Definition py_int (v : pyval) : result Z :=
  match v with
  | PInt z => Ok z
  | PBool b => Ok (if b then 1 else 0)
  | PFloat f => float_trunc f
  | PStr s | PBytes s =>
      match int_of_str s with Some z => Ok z | None => Raise ValueError end
  | PNone | PList _ | PDict _ => Raise TypeError
  end.

(** [str(v)], also the text an f-string puts for [{v}]. *)
Definition py_str (v : pyval) : string :=
  match v with
  | PStr s => s
  | _ => py_repr v
  end.

(** [float(s)] on a string. *)
Definition py_float (s : string) : result spec_float :=
  match float_of_str s with Some f => Ok f | None => Raise ValueError end.

End WithBuiltins.

(** ** String helpers

    A [str] is held as its UTF-8 bytes. *)

Definition byte_is (k : nat) (c : ascii) : bool := (nat_of_ascii c =? k)%nat.

Definition byte_in (lo hi : nat) (c : ascii) : bool :=
  ((lo <=? nat_of_ascii c)%nat && (nat_of_ascii c <=? hi)%nat).

(** The characters [str.strip()] removes are those [str.isspace()] holds
    for. The ones of one byte: U+0009..U+000D and U+001C..U+0020. *)
Definition is_space (c : ascii) : bool :=
  let n := nat_of_ascii c in
  ((9 <=? n)%nat && (n <=? 13)%nat) || ((28 <=? n)%nat && (n <=? 32)%nat).

(** The ones of two bytes: U+0085 and U+00A0. *)
Definition is_space2 (a b : ascii) : bool :=
  byte_is 194 a && (byte_is 133 b || byte_is 160 b).

(** The ones of three bytes: U+1680, U+2000..U+200A, U+2028, U+2029,
    U+202F, U+205F and U+3000. *)
Definition is_space3 (a b c : ascii) : bool :=
  (byte_is 225 a && byte_is 154 b && byte_is 128 c)
  || (byte_is 226 a && byte_is 128 b
      && (byte_in 128 138 c || byte_is 168 c || byte_is 169 c || byte_is 175 c))
  || (byte_is 226 a && byte_is 129 b && byte_is 159 c)
  || (byte_is 227 a && byte_is 128 b && byte_is 128 c).

(** A string that is one whitespace character. *)
Definition is_space_char (s : string) : bool :=
  match s with
  | String a EmptyString => is_space a
  | String a (String b EmptyString) => is_space2 a b
  | String a (String b (String c EmptyString)) => is_space3 a b c
  | _ => false
  end.

(** [s.lstrip()] *)
Fixpoint lstrip (s : string) : string :=
  match s with
  | EmptyString => EmptyString
  | String a s1 =>
      if is_space a then lstrip s1
      else
        match s1 with
        | String b s2 =>
            if is_space2 a b then lstrip s2
            else
              match s2 with
              | String c s3 => if is_space3 a b c then lstrip s3 else s
              | EmptyString => s
              end
        | EmptyString => s
        end
  end.

(** [s.rstrip()] *)
Fixpoint rstrip (s : string) : string :=
  match s with
  | EmptyString => EmptyString
  | String a s' =>
      let t := rstrip s' in
      if is_space_char (String a t) then EmptyString else String a t
  end.

(** [s.strip()] *)
Definition strip (s : string) : string := rstrip (lstrip s).

(** [s.rstrip(chars)] for one-byte characters. *)
Fixpoint rstrip_by (drop : ascii → bool) (s : string) : string :=
  match s with
  | EmptyString => EmptyString
  | String c s' =>
      match rstrip_by drop s' with
      | EmptyString => if drop c then EmptyString else String c EmptyString
      | t => String c t
      end
  end.

(** Whether bytes are the UTF-8 encoding of a text: what the strict
    decoder accepts. *)
Fixpoint valid_utf8 (s : string) : bool :=
  match s with
  | EmptyString => true
  | String a s1 =>
      if byte_in 0 127 a then valid_utf8 s1
      else if byte_in 194 223 a then
        match s1 with
        | String b s2 => byte_in 128 191 b && valid_utf8 s2
        | _ => false
        end
      else if byte_in 224 239 a then
        match s1 with
        | String b (String c s3) =>
            (if byte_is 224 a then byte_in 160 191 b
             else if byte_is 237 a then byte_in 128 159 b
             else byte_in 128 191 b)
            && byte_in 128 191 c && valid_utf8 s3
        | _ => false
        end
      else if byte_in 240 244 a then
        match s1 with
        | String b (String c (String d s4)) =>
            (if byte_is 240 a then byte_in 144 191 b
             else if byte_is 244 a then byte_in 128 143 b
             else byte_in 128 191 b)
            && byte_in 128 191 c && byte_in 128 191 d && valid_utf8 s4
        | _ => false
        end
      else false
  end.

(** [s.rstrip("/")] *)
Definition rstrip_slash (s : string) : string :=
  rstrip_by (λ c, Ascii.eqb c "/"%char) s.

(** ** Money conversion (reconcile_spendguard_billing.py) *)

(** [_usd_to_microcents]: [int(round(usd * 100 * 1_000_000))]. *)
Definition _usd_to_microcents (usd : spec_float) : result Z :=
  py_round (fmul (fmul usd f100) f1000000).

(** The character of a decimal digit. *)
Definition digit_char (d : Z) : ascii := ascii_of_nat (48 + Z.to_nat d).

(** The six decimal digits of [n], [0 <= n < 10^6], leading zeros included. *)
Definition pad6 (n : Z) : string :=
  String (digit_char (n / 100000 mod 10))
    (String (digit_char (n / 10000 mod 10))
       (String (digit_char (n / 1000 mod 10))
          (String (digit_char (n / 100 mod 10))
             (String (digit_char (n / 10 mod 10))
                (String (digit_char (n mod 10)) EmptyString))))).

(** The decimal text of [n / 10^6] with six fractional digits, [0 <= n]. *)
Definition fixed6 (n : Z) : string :=
  pretty (n / 1000000) +:+ "." +:+ pad6 (n mod 1000000).

(** [f"{x:.6f}"]: the exact binary value, rounded to six decimals with
    ties to even, with a minus sign whenever the sign bit is set. *)
Definition format_6f (x : spec_float) : string :=
  match x with
  | S754_nan => "nan"
  | S754_infinity s => if s then "-inf" else "inf"
  | S754_zero s => (if s then "-" else "") +:+ fixed6 0
  | S754_finite s m e =>
      (if s then "-" else "") +:+ fixed6 (rne_scaled (Zpos m * 1000000) e)
  end.

(** [_format_usd_from_microcents] *)
Definition _format_usd_from_microcents (microcents : Z) : result string :=
  rbind (int_truediv microcents (100 * 1000000)) (λ usd, Ok (format_6f usd)).

(** ** The error monad of the scripts *)

#[global] Instance result_ret : MRet result := λ A a, Ok a.
#[global] Instance result_bind : MBind result := λ A B k r, rbind r k.

(** ** Provider cost importers (reconcile_spendguard_billing.py)

    A CSV file is given by the rows [csv.DictReader] yields for it: each a
    dict from column name to the field's text, or to [None] for a field
    the line is too short to fill. *)

Abbreviation csv_row := (gmap string (option string)).

(** [(row.get(k) or "")] *)
Definition row_get_or_empty (row : csv_row) (k : string) : string :=
  match row !! k with
  | Some (Some s) => s
  | _ => ""
  end.

Section Importers.
Context `{PyBuiltins}.

(** The body of the [for row in reader] loop; the three adapters have the
    same body and differ in the provider string of [key]. *)
Definition csv_step (tag : string) (sums : gmap key Z) (row : csv_row)
  : result (gmap key Z) :=
  let model := strip (row_get_or_empty row "model") in
  let cost := strip (row_get_or_empty row "cost_usd") in
  if String.eqb model "" || String.eqb cost "" then Ok sums
  else
    usd ← py_float cost;
    mc ← _usd_to_microcents usd;
    let key := (tag, model) in
    Ok (<[key := get0 sums key + mc]> sums).

Fixpoint csv_loop (tag : string) (sums : gmap key Z) (rows : list csv_row)
  : result (gmap key Z) :=
  match rows with
  | [] => Ok sums
  | row :: rest => sums' ← csv_step tag sums row; csv_loop tag sums' rest
  end.

Definition _load_openai_csv (rows : list csv_row) : result (gmap key Z) :=
  csv_loop "openai" ∅ rows.

Definition _load_anthropic_csv (rows : list csv_row) : result (gmap key Z) :=
  csv_loop "anthropic" ∅ rows.

Definition _load_gemini_csv (rows : list csv_row) : result (gmap key Z) :=
  csv_loop "gemini" ∅ rows.

(** ** Ledger extraction (reconcile_spendguard_billing.py)

    The table [cap_usage_ledger] is the list of its rows, each column
    holding whatever SQLite stored there: NULL as [PNone], an INTEGER as
    [PInt], a REAL as [PFloat], a BLOB as [PBytes], and a TEXT as [PStr] of
    its bytes, which need not be valid UTF-8. *)

Record db_row : Type := mkDbRow {
  db_provider : pyval;
  db_model : pyval;
  db_created_at : pyval;
  db_realized_cents : pyval;
  db_meta_json : pyval
}.

(** [created_at >= ? and created_at <= ?] against two text parameters:
    text compares byte-wise; NULL, numbers and blobs never satisfy both. *)
Definition in_window (start end_ : string) (row : db_row) : bool :=
  match db_created_at row with
  | PStr s => String.leb start s && String.leb s end_
  | _ => false
  end.

(** The statements of the [try] block. *)
Definition meta_microcents (meta_json : pyval) : result Z :=
  meta ← match meta_json with
          | PStr s =>
              match json_loads s with
              | Some v => Ok v
              | None => Raise JSONDecodeError
              end
          | v => Ok (py_or v (PDict []))
          end;
  bb ← py_get meta "billing_breakdown";
  let bb := py_or bb (PDict []) in
  totals ← py_get bb "totals";
  let totals := py_or totals (PDict []) in
  v ← py_get totals "realized_microcents";
  py_int (py_or v (PInt 0)).

(** [try: ... except Exception: microcents = 0] *)
Definition row_microcents (meta_json : pyval) : Z :=
  except_all (meta_microcents meta_json) 0.

Definition ledger_row_of (row : db_row) : result LedgerRow :=
  let microcents := row_microcents (db_meta_json row) in
  rc ← py_int (db_realized_cents row);
  Ok (mkLedgerRow (py_str (db_provider row)) (py_str (db_model row))
                  (py_str (db_created_at row)) microcents rc).

Fixpoint ledger_loop (out : list LedgerRow) (rows : list db_row)
  : result (list LedgerRow) :=
  match rows with
  | [] => Ok out
  | row :: rest => r ← ledger_row_of row; ledger_loop (out ++ [r]) rest
  end.

(** The cursor hands a TEXT over as a [str], decoding its bytes as UTF-8. *)
Definition cell_decodes (v : pyval) : bool :=
  match v with
  | PStr s => valid_utf8 s
  | _ => true
  end.

Definition row_decodes (row : db_row) : bool :=
  cell_decodes (db_provider row) && cell_decodes (db_model row)
  && cell_decodes (db_created_at row) && cell_decodes (db_realized_cents row)
  && cell_decodes (db_meta_json row).

(** [cur.fetchall()] on the selected rows: [OperationalError] when a TEXT
    among them does not decode. *)
Definition fetchall (rows : list db_row) : result (list db_row) :=
  if forallb row_decodes rows then Ok rows else Raise OperationalError.

Definition _load_sqlite_ledger (store : list db_row) (start end_ : string)
  : result (list LedgerRow) :=
  rows ← fetchall (filter (λ row, in_window start end_ row = true) store);
  ledger_loop [] rows.

(** ** [main] of reconcile_spendguard_billing.py *)

Record reconcile_args : Type := mkReconcileArgs {
  arg_start : string;
  arg_end : string;
  arg_openai_csv : option (list csv_row);
  arg_anthropic_csv : option (list csv_row);
  arg_gemini_csv : option (list csv_row)
}.

(** [d.update(other)] *)
Definition dict_update (d other : gmap key Z) : gmap key Z := other ∪ d.

Definition update_from (provider_sums : gmap key Z)
    (load : list csv_row → result (gmap key Z)) (csv : option (list csv_row))
  : result (gmap key Z) :=
  match csv with
  | Some rows => sums ← load rows; Ok (dict_update provider_sums sums)
  | None => Ok provider_sums
  end.

Definition load_provider_sums (args : reconcile_args) : result (gmap key Z) :=
  let provider_sums := ∅ in
  provider_sums ← update_from provider_sums _load_openai_csv (arg_openai_csv args);
  provider_sums ← update_from provider_sums _load_anthropic_csv (arg_anthropic_csv args);
  update_from provider_sums _load_gemini_csv (arg_gemini_csv args).

(** One printed line of the report. *)
Definition report_line (r : ReportRow) : result string :=
  l ← _format_usd_from_microcents (rr_ledger r);
  pr ← _format_usd_from_microcents (rr_provider_cost r);
  diff ← _format_usd_from_microcents (rr_diff r);
  Ok (rr_provider r +:+ "," +:+ rr_model r +:+ "," +:+ l +:+ "," +:+ pr +:+ "," +:+ diff).

Fixpoint report_lines (rows : list ReportRow) : result (list string) :=
  match rows with
  | [] => Ok []
  | r :: rest => line ← report_line r; lines ← report_lines rest; Ok (line :: lines)
  end.

End Importers.

(** ** HTTP exchanges

    The guard service is an oracle: given the calls made so far and the
    present call it gives the reply. A script run threads the list of the
    calls it has made, in order, and ends with a value or an exception. *)

Record http_call : Type := mkCall {
  call_method : string;
  call_url : string;
  call_headers : list (string * string);
  call_payload : option pyval
}.

Inductive http_reply : Type :=
  | ReplyBody (raw : string)
  | ReplyHTTPError (code : Z) (err_body : string)
  | ReplyURLError (reason : string).

Abbreviation server := (list http_call → http_call → http_reply).

Definition io (A : Type) : Type := list http_call → list http_call * result A.

#[global] Instance io_ret : MRet io := λ A a t, (t, Ok a).
#[global] Instance io_bind : MBind io := λ A B k m t,
  match m t with
  | (t', Ok a) => k a t'
  | (t', Raise e) => (t', Raise e)
  end.

Definition io_raise {A} (e : exn) : io A := λ t, (t, Raise e).

(** [urllib.request.urlopen(req)] and reading the response. *)
Definition urlopen (srv : server) (c : http_call) : io http_reply :=
  λ t, ((t ++ [c])%list, Ok (srv t c)).

(** The trace and the outcome of a run that starts with no call made. *)
Definition run_io {A} (m : io A) : list http_call * result A := m [].

(** The reply the service gave to the [j]-th call of trace [t]. *)
Definition reply_at (srv : server) (t : list http_call) (j : nat) : option http_reply :=
  c ← t !! j; Some (srv (take j t) c).

Definition nl : string := String (ascii_of_nat 10) EmptyString.

Definition py_eq_str (v : pyval) (s : string) : bool :=
  match v with
  | PStr s' => String.eqb s' s
  | _ => false
  end.

Section Provisioning.
Context `{PyBuiltins}.

(** ** bootstrap_strict_budget.py *)

(** [_parse_positive_int] *)
Definition _parse_positive_int (value : string) : result Z :=
  match int_of_str value with
  | None => Raise (ArgumentTypeError "must be an integer")
  | Some parsed =>
      if parsed <=? 0 then Raise (ArgumentTypeError "must be > 0") else Ok parsed
  end.

(** [_extract_detail] *)
Definition _extract_detail (raw : string) : string :=
  if String.eqb raw "" then "request failed"
  else match json_loads raw with
       | None => raw
       | Some (PDict d) =>
           match dict_get d "detail" with
           | PStr detail => detail
           | _ => raw
           end
       | Some _ => raw
       end.

(** What [_request_json] makes of the reply to its request. *)
Definition decode_reply (reply : http_reply) : result pydict :=
  match reply with
  | ReplyHTTPError code err_body =>
      Raise (RuntimeError ("HTTP " +:+ pretty code +:+ ": " +:+ _extract_detail err_body))
  | ReplyURLError reason =>
      Raise (RuntimeError ("Request failed: " +:+ reason))
  | ReplyBody raw =>
      if String.eqb raw "" then Ok []
      else match json_loads raw with
           | None => Raise JSONDecodeError
           | Some (PDict parsed) => Ok parsed
           | Some _ => Raise (RuntimeError "Expected JSON object response")
           end
  end.

(** [_request_json] *)
Definition _request_json (srv : server) (method url : string)
    (headers : list (string * string)) (payload : option pyval) : io pydict :=
  reply ← urlopen srv (mkCall method url headers payload);
  match decode_reply reply with
  | Ok parsed => mret parsed
  | Raise e => io_raise e
  end.

(** [_headers] *)
Definition _headers (api_key : option string) : list (string * string) :=
  let out := [("Accept", "application/json"); ("Content-Type", "application/json")] in
  match api_key with
  | Some k => if String.eqb k "" then out else (out ++ [("x-api-key", k)])%list
  | None => out
  end.

(** The command line as [argparse] receives it. *)
Record bootstrap_argv : Type := mkBootstrapArgv {
  av_base_url : string;
  av_name : string;
  av_limit : option string;
  av_topup : option string;
  av_api_key : option string;
  av_skip_health_check : bool;
  av_create_run : bool;
  av_json : bool
}.

(** The namespace [parse_args] returns. *)
Record bootstrap_args : Type := mkBootstrapArgs {
  ba_base_url : string;
  ba_name : string;
  ba_limit : Z;
  ba_topup : option Z;
  ba_api_key : option string;
  ba_skip_health_check : bool;
  ba_create_run : bool;
  ba_json : bool
}.

(** How [argparse] applies the [type] function of an option: an
    [ArgumentTypeError] it raises ends the script through [parser.error]
    with the option's name before the message. *)
Definition argparse_type (option_name : string) (type : string → result Z)
    (value : string) : result Z :=
  match type value with
  | Raise (ArgumentTypeError msg) =>
      Raise (ArgparseError ("argument " +:+ option_name +:+ ": " +:+ msg))
  | r => r
  end.

(** [_build_parser().parse_args()]: [--limit] is required and both
    [--limit] and [--topup] go through [_parse_positive_int]. *)
Definition parse_args (argv : bootstrap_argv) : result bootstrap_args :=
  match av_limit argv with
  | None => Raise (ArgparseError "the following arguments are required: --limit")
  | Some l =>
      limit ← argparse_type "--limit" _parse_positive_int l;
      topup ← match av_topup argv with
               | None => Ok None
               | Some t =>
                   parsed ← argparse_type "--topup" _parse_positive_int t;
                   Ok (Some parsed)
               end;
      Ok (mkBootstrapArgs (av_base_url argv) (av_name argv) limit topup
            (av_api_key argv) (av_skip_health_check argv) (av_create_run argv)
            (av_json argv))
  end.

Record bootstrap_output : Type := mkBootstrapOutput {
  out_base_url : string;
  out_agent_id : string;
  out_budget : pydict;
  out_run : option pydict
}.

Definition health_url (base_url : string) : string := base_url +:+ "/health".
Definition agents_url (base_url : string) : string := base_url +:+ "/v1/agents".
Definition budget_url (base_url agent_id : string) : string :=
  base_url +:+ "/v1/agents/" +:+ agent_id +:+ "/budget".
Definition runs_url (base_url agent_id : string) : string :=
  base_url +:+ "/v1/agents/" +:+ agent_id +:+ "/runs".
Definition responses_url (base_url agent_id run_id : string) : string :=
  base_url +:+ "/v1/agents/" +:+ agent_id +:+ "/runs/" +:+ run_id +:+ "/openai/responses".

Definition budget_payload (limit topup : Z) : pyval :=
  PDict [("hard_limit_cents", PInt limit); ("topup_cents", PInt topup)].

(** The requests [main] builds. *)
Definition health_call (base_url : string) : http_call :=
  mkCall "GET" (health_url base_url) [("Accept", "application/json")] None.

Definition agents_call (base_url : string) (headers : list (string * string))
    (name : string) : http_call :=
  mkCall "POST" (agents_url base_url) headers (Some (PDict [("name", PStr name)])).

Definition budget_call (base_url : string) (headers : list (string * string))
    (agent_id : string) (limit topup : Z) : http_call :=
  mkCall "POST" (budget_url base_url agent_id) headers (Some (budget_payload limit topup)).

Definition runs_call (base_url : string) (headers : list (string * string))
    (agent_id : string) : http_call :=
  mkCall "POST" (runs_url base_url agent_id) headers (Some (PDict [])).

(** [_request_json] on a prepared request. *)
Definition request (srv : server) (c : http_call) : io pydict :=
  _request_json srv (call_method c) (call_url c) (call_headers c) (call_payload c).

(** [topup = args.topup if args.topup is not None else args.limit] *)
Definition effective_topup (args : bootstrap_args) : Z :=
  match ba_topup args with
  | Some t => t
  | None => ba_limit args
  end.

(** The health check of [main]: [if not args.skip_health_check: ...]. *)
Definition check_health (srv : server) (args : bootstrap_args) : io unit :=
  let base_url := rstrip_slash (ba_base_url args) in
  if ba_skip_health_check args then mret ()
  else
    health ← request srv (health_call base_url);
    if py_eq_str (dict_get health "status") "ok" then mret ()
    else io_raise (RuntimeError "Health check failed: /health did not return status=ok").

(** The rest of [main]: agent, budget and, when asked for, a run. *)
Definition provision (srv : server) (args : bootstrap_args) : io bootstrap_output :=
  let base_url := rstrip_slash (ba_base_url args) in
  let headers := _headers (ba_api_key args) in
  let topup := effective_topup args in
  agent ← request srv (agents_call base_url headers (ba_name args));
  match dict_get agent "agent_id" with
  | PStr agent_id =>
      if String.eqb agent_id ""
      then io_raise (RuntimeError "Agent creation did not return agent_id")
      else
        budget ← request srv (budget_call base_url headers agent_id (ba_limit args) topup);
        run ← (if ba_create_run args
                then r ← request srv (runs_call base_url headers agent_id); mret (Some r)
                else mret None);
        mret (mkBootstrapOutput base_url agent_id budget run)
  | _ => io_raise (RuntimeError "Agent creation did not return agent_id")
  end.

(** [main] after the arguments are parsed. *)
Definition bootstrap_main (srv : server) (args : bootstrap_args) : io bootstrap_output :=
  _ ← check_health srv args; provision srv args.

(** The whole script: parse the command line, then [bootstrap_main]. *)
Definition bootstrap (srv : server) (argv : bootstrap_argv)
  : list http_call * result bootstrap_output :=
  match parse_args argv with
  | Ok args => run_io (bootstrap_main srv args)
  | Raise e => ([], Raise e)
  end.

(** ** generate_spendguard_openai_traffic.py *)

(** What [_http_json] makes of the reply to its request. *)
Definition decode_http_json (method url : string) (reply : http_reply) : result pyval :=
  match reply with
  | ReplyBody raw =>
      if String.eqb raw "" then Ok PNone
      else match json_loads raw with
           | Some v => Ok v
           | None => Raise JSONDecodeError
           end
  | ReplyHTTPError code raw =>
      Raise (RuntimeError ("HTTP " +:+ pretty code +:+ " " +:+ method +:+ " " +:+ url
                           +:+ ": " +:+ raw))
  | ReplyURLError reason => Raise (URLError reason)
  end.

(** The headers [_http_json] sends. *)
Definition http_json_headers (payload : option pyval) : list (string * string) :=
  [("Accept", "application/json")] ++
  match payload with
  | Some _ => [("Content-Type", "application/json")]
  | None => []
  end.

(** [_http_json] *)
Definition _http_json (srv : server) (method url : string) (payload : option pyval)
  : io pyval :=
  reply ← urlopen srv (mkCall method url (http_json_headers payload) payload);
  match decode_http_json method url reply with
  | Ok v => mret v
  | Raise e => io_raise e
  end.

(** The namespace of the traffic generator; [argparse] converts the
    numeric options with [int] and [--sleep-seconds] with [float]. *)
Record traffic_args : Type := mkTrafficArgs {
  ta_base_url : string;
  ta_model : string;
  ta_n : Z;
  ta_max_output_tokens : Z;
  ta_sleep_seconds : spec_float;
  ta_hard_limit_cents : Z;
  ta_topup_cents : Z;
  ta_agent_name : string;
  ta_reasoning_effort : option string
}.

(** [x.get(k) if isinstance(x, dict) else None] *)
Definition get_if_dict (x : pyval) (k : string) : pyval :=
  match x with
  | PDict d => dict_get d k
  | _ => PNone
  end.

Definition prompt_head : string :=
  "Give a concise, correct answer." +:+ nl +:+
  "Task: Return the first 25 prime numbers as a comma-separated list." +:+ nl +:+
  "Request number: ".

(** The prompt of iteration [i] of the loop: [f"... Request number: {i+1}\n"]. *)
Definition prompt (i : nat) : string :=
  prompt_head +:+ pretty (i + 1)%nat +:+ nl.

Definition responses_payload (args : traffic_args) (i : nat) : pyval :=
  PDict ([("model", PStr (ta_model args));
          ("input", PStr (prompt i));
          ("max_output_tokens", PInt (ta_max_output_tokens args))] ++
         match ta_reasoning_effort args with
         | Some effort =>
             if String.eqb effort "" then []
             else [("reasoning", PDict [("effort", PStr effort)])]
         | None => []
         end).

(** The requests of the traffic generator. *)
Definition json_call (url : string) (payload : pyval) : http_call :=
  mkCall "POST" url (http_json_headers (Some payload)) (Some payload).

Definition t_agents_call (base name : string) : http_call :=
  json_call (agents_url base) (PDict [("name", PStr name)]).

Definition t_budget_call (base agent_id : string) (hard_limit topup : Z) : http_call :=
  json_call (budget_url base agent_id) (budget_payload hard_limit topup).

Definition t_runs_call (base agent_id : string) : http_call :=
  json_call (runs_url base agent_id) (PDict []).

Definition t_responses_call (args : traffic_args) (base agent_id run_id : string)
    (i : nat) : http_call :=
  json_call (responses_url base agent_id run_id) (responses_payload args i).

(** [_http_json("POST", url, payload)] on a prepared request. *)
Definition post (srv : server) (c : http_call) : io pyval :=
  _http_json srv (call_method c) (call_url c) (call_payload c).

(** [if float(args.sleep_seconds) > 0: time.sleep(float(args.sleep_seconds))] *)
Definition pause (args : traffic_args) : io unit :=
  λ t, (t, if SFltb (S754_zero false) (ta_sleep_seconds args)
           then time_sleep (ta_sleep_seconds args) else Ok ()).

(** The body of [for i in range(int(args.n))]. *)
Definition traffic_step (srv : server) (args : traffic_args)
    (base : string) (agent_id : pyval) (i : nat) : io unit :=
  run ← post srv (t_runs_call base (py_str agent_id));
  let run_id := get_if_dict run "run_id" in
  if negb (truthy run_id)
  then io_raise (RuntimeError ("Unexpected /v1/agents/{agent_id}/runs response: "
                               +:+ py_str run))
  else
    _ ← post srv (t_responses_call args base (py_str agent_id) (py_str run_id) i);
    pause args.

Fixpoint traffic_loop (srv : server) (args : traffic_args)
    (base : string) (agent_id : pyval) (idxs : list nat) : io unit :=
  match idxs with
  | [] => mret ()
  | i :: rest =>
      _ ← traffic_step srv args base agent_id i;
      traffic_loop srv args base agent_id rest
  end.

(** [range(n)] *)
Definition range (n : Z) : list nat := seq 0 (Z.to_nat n).

(** The argument checks at the head of [main]. *)
Definition check_args (args : traffic_args) : result unit :=
  if ta_n args <=? 0 then Raise (SystemExit "--n must be > 0")
  else if ta_max_output_tokens args <=? 0
  then Raise (SystemExit "--max-output-tokens must be > 0")
  else if ta_hard_limit_cents args <=? 0
  then Raise (SystemExit "--hard-limit-cents must be > 0")
  else if ta_topup_cents args <? 0
  then Raise (SystemExit "--topup-cents must be >= 0")
  else Ok ().

(** [main]; the result is the [agent_id] it prints. *)
Definition traffic_main (srv : server) (args : traffic_args) : io pyval :=
  let base := rstrip_slash (ta_base_url args) in
  match check_args args with
  | Raise e => io_raise e
  | Ok _ =>
      agent ← post srv (t_agents_call base (ta_agent_name args));
      let agent_id := get_if_dict agent "agent_id" in
      if negb (truthy agent_id)
      then io_raise (RuntimeError ("Unexpected /v1/agents response: " +:+ py_str agent))
      else
        _ ← post srv (t_budget_call base (py_str agent_id)
                        (ta_hard_limit_cents args) (ta_topup_cents args));
        _ ← traffic_loop srv args base agent_id (range (ta_n args));
        mret agent_id
  end.

End Provisioning.

(** ** What a CSV row contributes *)

Section RowAmounts.
Context `{PyBuiltins}.

Definition row_model (row : csv_row) : string := strip (row_get_or_empty row "model").
Definition row_cost (row : csv_row) : string := strip (row_get_or_empty row "cost_usd").

(** A row the loop passes over with [continue]. *)
Definition row_skipped (row : csv_row) : bool :=
  String.eqb (row_model row) "" || String.eqb (row_cost row) "".

(** [_usd_to_microcents(float(cost))] of a row. *)
Definition row_amount (row : csv_row) : result Z :=
  usd ← py_float (row_cost row); _usd_to_microcents usd.

(** The [(model, microcents)] pairs of the rows that are not skipped, in
    file order; an exception when a conversion raises. *)
Fixpoint csv_amounts (rows : list csv_row) : result (list (string * Z)) :=
  match rows with
  | [] => Ok []
  | row :: rest =>
      if row_skipped row then csv_amounts rest
      else mc ← row_amount row; amts ← csv_amounts rest; Ok ((row_model row, mc) :: amts)
  end.

End RowAmounts.

(** Integer sum of the amounts listed for [model]. *)
Definition model_total (amts : list (string * Z)) (model : string) : Z :=
  foldr (λ a acc, (if decide (a.1 = model) then a.2 else 0) + acc) 0 amts.

(** What an adapter that is not loaded adds: nothing. *)
Definition load_opt (load : list csv_row → result (gmap key Z))
    (csv : option (list csv_row)) : result (gmap key Z) :=
  match csv with
  | Some rows => load rows
  | None => Ok ∅
  end.

(** ** A concrete interpreter for examples

    Parsers for plain decimal text, and a JSON reader that knows the few
    documents the examples use. *)

Definition digit_of (c : ascii) : option Z :=
  let n := Z.of_nat (nat_of_ascii c) in
  if (48 <=? n) && (n <=? 57) then Some (n - 48) else None.

Fixpoint digits_value (acc : Z) (s : string) : option Z :=
  match s with
  | EmptyString => Some acc
  | String c s' =>
      match digit_of c with
      | Some d => digits_value (10 * acc + d) s'
      | None => None
      end
  end.

Definition unsigned_of_str (s : string) : option Z :=
  match s with
  | EmptyString => None
  | _ => digits_value 0 s
  end.

Definition decimal_int_of_str (s : string) : option Z :=
  match s with
  | String "-"%char s' => Z.opp <$> unsigned_of_str s'
  | _ => unsigned_of_str s
  end.

Fixpoint split_dot (s : string) : string * option string :=
  match s with
  | EmptyString => (EmptyString, None)
  | String c s' =>
      if Ascii.eqb c "."%char then (EmptyString, Some s')
      else let '(a, b) := split_dot s' in (String c a, b)
  end.

(** The binary64 value nearest to a decimal numeral [ddd.ddd]. *)
Definition decimal_float_of_str (s : string) : option spec_float :=
  let '(neg, body) :=
    match s with
    | String "-"%char s' => (true, s')
    | _ => (false, s)
    end in
  let '(ip, fp) := split_dot body in
  let fp := default "" fp in
  k ← unsigned_of_str (ip +:+ fp);
  Some (fdiv (exact_of_Z (if neg then - k else k))
             (exact_of_Z (10 ^ Z.of_nat (String.length fp)))).

Definition dq : string := String (ascii_of_nat 34) EmptyString.
Definition quoted (s : string) : string := dq +:+ s +:+ dq.

(** The text [{"k": v}] *)
Definition obj1 (k v : string) : string := "{" +:+ quoted k +:+ ": " +:+ v +:+ "}".

Definition meta_442100 : string :=
  obj1 "billing_breakdown" (obj1 "totals" (obj1 "realized_microcents" "442100")).

Definition sample_documents : list (string * pyval) :=
  [ ("{}", PDict []);
    ("[]", PList []);
    ("[1, 2]", PList [PInt 1; PInt 2]);
    (obj1 "status" (quoted "ok"), PDict [("status", PStr "ok")]);
    (obj1 "status" (quoted "degraded"), PDict [("status", PStr "degraded")]);
    (obj1 "agent_id" (quoted "a1"), PDict [("agent_id", PStr "a1")]);
    (obj1 "run_id" (quoted "r1"), PDict [("run_id", PStr "r1")]);
    ("{" +:+ quoted "agent_id" +:+ ": " +:+ quoted "a1" +:+ ", "
         +:+ quoted "run_id" +:+ ": " +:+ quoted "r1" +:+ "}",
       PDict [("agent_id", PStr "a1"); ("run_id", PStr "r1")]);
    (obj1 "hard_limit_cents" "500", PDict [("hard_limit_cents", PInt 500)]);
    (obj1 "billing_breakdown" "{}", PDict [("billing_breakdown", PDict [])]);
    (meta_442100,
       PDict [("billing_breakdown",
               PDict [("totals", PDict [("realized_microcents", PInt 442100)])])]) ].

Fixpoint find_document (docs : list (string * pyval)) (s : string) : option pyval :=
  match docs with
  | [] => None
  | (text, v) :: docs' => if String.eqb text s then Some v else find_document docs' s
  end.

Definition sample_json_loads (s : string) : option pyval :=
  find_document sample_documents s.

(** [repr] for the examples. Text is taken to hold no character beyond
    ASCII that is not printable; a float that is not a whole number below
    10^16 (whose shortest decimal form the examples never need) is shown as
    [<float>]. *)

Definition hex_digit (n : nat) : ascii :=
  ascii_of_nat (if (n <? 10)%nat then 48 + n else 87 + n).

(** The backslash. *)
Definition bs : ascii := ascii_of_nat 92.

Definition hex_escape (c : ascii) : string :=
  let n := nat_of_ascii c in
  String bs (String "x"%char
    (String (hex_digit (n / 16)) (String (hex_digit (n mod 16)) EmptyString))).

Fixpoint has_char (c : ascii) (s : string) : bool :=
  match s with
  | EmptyString => false
  | String a s' => Ascii.eqb a c || has_char c s'
  end.

(** The escape of one byte inside the quotes [q]; [wide] keeps the bytes
    beyond ASCII, as in the [repr] of a [str]. *)
Definition escape_char (q : ascii) (wide : bool) (c : ascii) : string :=
  let n := nat_of_ascii c in
  if Ascii.eqb c bs then String bs (String bs EmptyString)
  else if Ascii.eqb c q then String bs (String q EmptyString)
  else if (n =? 9)%nat then String bs "t"
  else if (n =? 10)%nat then String bs "n"
  else if (n =? 13)%nat then String bs "r"
  else if (n <? 32)%nat || (n =? 127)%nat then hex_escape c
  else if (127 <? n)%nat && negb wide then hex_escape c
  else String c EmptyString.

Fixpoint escape (q : ascii) (wide : bool) (s : string) : string :=
  match s with
  | EmptyString => EmptyString
  | String c s' => escape_char q wide c +:+ escape q wide s'
  end.

Definition sq : ascii := "'"%char.
Definition dqc : ascii := ascii_of_nat 34.

Definition repr_text (wide : bool) (s : string) : string :=
  let q := if has_char sq s && negb (has_char dqc s) then dqc else sq in
  String q (escape q wide s +:+ String q EmptyString).

Definition repr_float (f : spec_float) : string :=
  match f with
  | S754_nan => "nan"
  | S754_infinity s => if s then "-inf" else "inf"
  | S754_zero s => if s then "-0.0" else "0.0"
  | S754_finite s m e =>
      match e with
      | Zneg p =>
          if (Zpos m mod 2 ^ Zpos p =? 0) && (Zpos m / 2 ^ Zpos p <? 10 ^ 16)
          then (if s then "-" else "") +:+ pretty (Zpos m / 2 ^ Zpos p) +:+ ".0"
          else "<float>"
      | _ =>
          if Zpos m * 2 ^ e <? 10 ^ 16
          then (if s then "-" else "") +:+ pretty (Zpos m * 2 ^ e) +:+ ".0"
          else "<float>"
      end
  end.

Fixpoint sample_repr (v : pyval) : string :=
  match v with
  | PNone => "None"
  | PBool b => if b then "True" else "False"
  | PInt z => pretty z
  | PFloat f => repr_float f
  | PStr s => repr_text true s
  | PBytes s => "b" +:+ repr_text false s
  | PList l =>
      "[" +:+ (fix items (l : list pyval) : string :=
                 match l with
                 | [] => ""
                 | [x] => sample_repr x
                 | x :: l' => sample_repr x +:+ ", " +:+ items l'
                 end) l +:+ "]"
  | PDict d =>
      "{" +:+ (fix items (d : list (string * pyval)) : string :=
                 match d with
                 | [] => ""
                 | [(k, x)] => repr_text true k +:+ ": " +:+ sample_repr x
                 | (k, x) :: d' =>
                     repr_text true k +:+ ": " +:+ sample_repr x +:+ ", " +:+ items d'
                 end) d +:+ "}"
  end.

(** [time.sleep] for the examples: it takes a delay below 2^63
    nanoseconds. *)
Definition sample_sleep (secs : spec_float) : result unit :=
  match secs with
  | S754_nan => Raise ValueError
  | S754_infinity s => if s then Raise ValueError else Raise OverflowError
  | S754_zero _ => Ok ()
  | S754_finite s m e =>
      if s then Raise ValueError
      else if match e with
              | Zneg p => 2 ^ 63 * 2 ^ Zpos p <=? Zpos m * 10 ^ 9
              | _ => 2 ^ 63 <=? Zpos m * 2 ^ e * 10 ^ 9
              end
      then Raise OverflowError
      else Ok ()
  end.

Definition sample_builtins : PyBuiltins :=
  {| json_loads := sample_json_loads;
     int_of_str := decimal_int_of_str;
     float_of_str := decimal_float_of_str;
     py_repr := sample_repr;
     time_sleep := sample_sleep |}.

(** ** Amounts in millionths of a dollar *)

(** The float a decimal amount [k / 10^6] denotes: the binary64 value
    nearest to it. *)
Definition float_of_millionths (k : Z) : spec_float :=
  fdiv (exact_of_Z k) (exact_of_Z 1000000).

(** The three adapters with the provider string each attaches. *)
Definition adapters `{PyBuiltins} : list (string * (list csv_row → result (gmap key Z))) :=
  [ ("openai", _load_openai_csv);
    ("anthropic", _load_anthropic_csv);
    ("gemini", _load_gemini_csv) ].

(** A CSV row with the two columns the adapters read. *)
Definition csv_line (model cost : string) : csv_row :=
  {[ "model" := Some model; "cost_usd" := Some cost ]}.

(** ** Metadata shapes *)

(** The value stored under [k], if the key is there. *)
Fixpoint dict_lookup (d : pydict) (k : string) : option pyval :=
  match d with
  | [] => None
  | (k', v) :: d' => if String.eqb k' k then Some v else dict_lookup d' k
  end.

Definition as_dict (v : pyval) : option pydict :=
  match v with
  | PDict d => Some d
  | _ => None
  end.

(** The field [billing_breakdown.totals.realized_microcents] of a
    metadata document, when every step of the path is there. *)
Definition nested_field (meta : pyval) : option pyval :=
  d ← as_dict meta;
  bb ← dict_lookup d "billing_breakdown";
  bbd ← as_dict bb;
  totals ← dict_lookup bbd "totals";
  td ← as_dict totals;
  dict_lookup td "realized_microcents".

(** A [meta_json] column that is text which does not parse, or whose
    document (parsed from text, or stored as such) lacks the nested field. *)
Definition malformed_meta `{PyBuiltins} (meta_json : pyval) : Prop :=
  match meta_json with
  | PStr s =>
      match json_loads s with
      | None => True
      | Some meta => nested_field meta = None
      end
  | v => nested_field v = None
  end.

(** A ledger table with unparsable, complete, incomplete and absent metadata. *)
Definition sample_store : list db_row :=
  [ mkDbRow (PStr "openai") (PStr "gpt-5.2-pro") (PStr "2026-02-10T00:10:00+00:00")
            (PInt 1) (PStr "not json");
    mkDbRow (PStr "openai") (PStr "gpt-5.2-pro") (PStr "2026-02-10T00:20:00+00:00")
            (PInt 1) (PStr meta_442100);
    mkDbRow (PStr "openai") (PStr "gpt-4") (PStr "2026-02-10T00:30:00+00:00")
            (PInt 2) (PStr (obj1 "billing_breakdown" "{}"));
    mkDbRow (PStr "openai") (PStr "gpt-4") (PStr "2026-02-11T00:00:00+00:00")
            (PInt 2) PNone ].


(** ** Reading a trace *)

Fixpoint last_char (s : string) : option ascii :=
  match s with
  | EmptyString => None
  | String c s' => match last_char s' with None => Some c | Some c' => Some c' end
  end.


Section TracePredicates.
Context `{PyBuiltins}.

Definition is_health_call (base : string) (c : http_call) : Prop :=
  call_method c = "GET" ∧ call_url c = health_url base.

(** [POST /v1/agents] *)
Definition is_agents_call (base : string) (c : http_call) : Prop :=
  call_method c = "POST" ∧ call_url c = agents_url base.

(** [POST /v1/agents/{agent_id}/budget] *)
Definition is_budget_call (base : string) (c : http_call) : Prop :=
  call_method c = "POST" ∧ ∃ agent_id, call_url c = budget_url base agent_id.

(** [POST /v1/agents/{agent_id}/runs] *)
Definition is_runs_call (base : string) (c : http_call) : Prop :=
  call_method c = "POST" ∧ ∃ agent_id, call_url c = runs_url base agent_id.

(** [POST /v1/agents/{agent_id}/runs/{run_id}/openai/responses] *)
Definition is_responses_call (base : string) (c : http_call) : Prop :=
  call_method c = "POST" ∧ ∃ agent_id run_id, call_url c = responses_url base agent_id run_id.

(** The reply is a JSON object whose [agent_id] is the non-empty string [id]. *)
Definition returned_agent_id (reply : http_reply) (id : string) : Prop :=
  ∃ d, decode_reply reply = Ok d ∧ dict_get d "agent_id" = PStr id ∧ id ≠ "".

(** The reply is a JSON object whose [status] is the string [ok]. *)
Definition reports_ok (reply : http_reply) : Prop :=
  ∃ d, decode_reply reply = Ok d ∧ dict_get d "status" = PStr "ok".

(** [_request_json] returns on this reply rather than raising. *)
Definition call_succeeded (reply : http_reply) : Prop :=
  ∃ d, decode_reply reply = Ok d.

(** What the order claims ask of a trace. *)
Definition budget_after_agent (srv : server) (base : string) (t : list http_call) : Prop :=
  ∀ i c, t !! i = Some c → is_budget_call base c →
    ∃ j c' reply id, (j < i)%nat ∧ t !! j = Some c' ∧ is_agents_call base c'
      ∧ reply_at srv t j = Some reply ∧ returned_agent_id reply id
      ∧ call_url c = budget_url base id.

Definition run_after_budget (srv : server) (base : string) (t : list http_call) : Prop :=
  ∀ i c, t !! i = Some c → is_runs_call base c →
    ∃ j c' reply, (j < i)%nat ∧ t !! j = Some c' ∧ is_budget_call base c'
      ∧ reply_at srv t j = Some reply ∧ call_succeeded reply.


(** ** The provisioning workflow as a state machine

    [START → HEALTH_CHECKED → AGENT_CREATED → BUDGET_SET → RUN_CREATED]:
    the calls a run of [main] made and its outcome, by the state it
    reached. *)

Section Workflow.
Variables (srv : server) (args : bootstrap_args).

Let base := rstrip_slash (ba_base_url args).
Let headers := _headers (ba_api_key args).
Let ac := agents_call base headers (ba_name args).
Let bc id := budget_call base headers id (ba_limit args) (effective_topup args).
Let rc id := runs_call base headers id.

(** The run from the state reached after the calls [pre]. *)
Inductive provisioned (pre : list http_call)
  : list http_call → result bootstrap_output → Prop :=
  | agent_failed e :
      (∀ id, ¬ returned_agent_id (srv pre ac) id) →
      provisioned pre (pre ++ [ac]) (Raise e)
  | budget_failed id e :
      returned_agent_id (srv pre ac) id →
      decode_reply (srv (pre ++ [ac]) (bc id)) = Raise e →
      provisioned pre (pre ++ [ac; bc id]) (Raise e)
  | budget_set id budget :
      returned_agent_id (srv pre ac) id →
      decode_reply (srv (pre ++ [ac]) (bc id)) = Ok budget →
      ba_create_run args = false →
      provisioned pre (pre ++ [ac; bc id]) (Ok (mkBootstrapOutput base id budget None))
  | run_failed id budget e :
      returned_agent_id (srv pre ac) id →
      decode_reply (srv (pre ++ [ac]) (bc id)) = Ok budget →
      ba_create_run args = true →
      decode_reply (srv (pre ++ [ac; bc id]) (rc id)) = Raise e →
      provisioned pre (pre ++ [ac; bc id; rc id]) (Raise e)
  | run_created id budget run :
      returned_agent_id (srv pre ac) id →
      decode_reply (srv (pre ++ [ac]) (bc id)) = Ok budget →
      ba_create_run args = true →
      decode_reply (srv (pre ++ [ac; bc id]) (rc id)) = Ok run →
      provisioned pre (pre ++ [ac; bc id; rc id])
        (Ok (mkBootstrapOutput base id budget (Some run))).

Inductive bootstrapped : list http_call → result bootstrap_output → Prop :=
  | unhealthy e :
      ba_skip_health_check args = false →
      ¬ reports_ok (srv [] (health_call base)) →
      bootstrapped [health_call base] (Raise e)
  | health_skipped t r :
      ba_skip_health_check args = true →
      provisioned [] t r →
      bootstrapped t r
  | health_checked t r :
      ba_skip_health_check args = false →
      reports_ok (srv [] (health_call base)) →
      provisioned [health_call base] t r →
      bootstrapped t r.

End Workflow.

(** ** Runs of the traffic generator *)




(** The two calls of one loop iteration: create a run, send the request. *)
Definition request_pair (args : traffic_args) (base agent_id : string)
    (ir : nat * pyval) : list http_call :=
  [t_runs_call base agent_id;
   t_responses_call args base agent_id (py_str ir.2) ir.1].

(** The calls of a run of [main] that goes through, given the run
    identifiers the service handed out. *)
Definition traffic_trace (args : traffic_args) (agent_id : pyval) (run_ids : list pyval)
  : list http_call :=
  let base := rstrip_slash (ta_base_url args) in
  [t_agents_call base (ta_agent_name args);
   t_budget_call base (py_str agent_id) (ta_hard_limit_cents args) (ta_topup_cents args)]
  ++ flat_map (request_pair args base (py_str agent_id)) (zip (range (ta_n args)) run_ids).

(** A call of the loop body. *)
Definition is_loop_call (args : traffic_args) (base agent_id : string) (c : http_call) : Prop :=
  c = t_runs_call base agent_id
  ∨ ∃ run_id i, c = t_responses_call args base agent_id run_id i.

End TracePredicates.

(** A service that answers each endpoint with a fixed body. *)
Definition scripted_server (health agent budget run : string) : server :=
  λ _ c,
    if String.eqb (call_method c) "GET" then ReplyBody health
    else if String.eqb (call_url c) "http://h/v1/agents" then ReplyBody agent
    else if String.eqb (call_url c) "http://h/v1/agents/a1/budget" then ReplyBody budget
    else ReplyBody run.

Definition sample_bootstrap_args : bootstrap_args :=
  mkBootstrapArgs "http://h/" "strict-budget-agent" 500 None None false true false.

(** A service that always answers with the same body. *)
Definition constant_server (body : string) : server := λ _ _, ReplyBody body.

Definition both_ids : string :=
  "{" +:+ quoted "agent_id" +:+ ": " +:+ quoted "a1" +:+ ", "
      +:+ quoted "run_id" +:+ ": " +:+ quoted "r1" +:+ "}".

(** 0.5, the default of [--sleep-seconds]. *)
Definition half_second : spec_float := S754_finite false 4503599627370496 (-53).

Definition sample_traffic_args (n topup : Z) : traffic_args :=
  mkTrafficArgs "http://h" "gpt-5.2-pro" n 128 half_second 500 topup "traffic-test" None.

(** Whether [s] ends with [suffix]. *)
Fixpoint has_suffix (suffix s : string) : bool :=
  String.eqb s suffix
  || match s with
     | EmptyString => false
     | String _ s' => has_suffix suffix s'
     end.

(** A service at [http://h] that answers as the interface says: an
    [agent_id] to the agent creation, a [run_id] to a run creation, the
    limit to a budget call, and an empty body to anything else. *)
Definition interface_server : server :=
  λ _ c,
    if String.eqb (call_url c) "http://h/v1/agents"
    then ReplyBody (obj1 "agent_id" (quoted "a1"))
    else if has_suffix "/runs" (call_url c) then ReplyBody (obj1 "run_id" (quoted "r1"))
    else if has_suffix "/budget" (call_url c) then ReplyBody (obj1 "hard_limit_cents" "500")
    else ReplyBody "".


(** ** Reading binary64 values *)

(** The rational a float stands for (0 for the values that are no number). *)
Definition SF2Q (x : spec_float) : Q :=
  match x with
  | S754_finite s m e =>
      match e with
      | Zneg p => Qmake (cond_Zopp s (Zpos m)) (2 ^ p)
      | _ => inject_Z (cond_Zopp s (Zpos m) * 2 ^ e)
      end
  | _ => 0%Q
  end.

(** Rounding to the nearest integer with ties away from zero. *)
Definition round_half_away (q : Q) : Z :=
  if Qle_bool 0 q then Qfloor (q + (1 # 2)) else - Qfloor (- q + (1 # 2)).

(** The shift register of the rounding of [N / D]: the quotient, whether
    the remainder reaches half of [D], and whether anything is left
    besides. *)
Definition rec_of (N D : Z) : shr_record :=
  {| shr_m := N / D;
     shr_r := D <=? 2 * (N mod D);
     shr_s := negb (N mod D =? 0) && negb (2 * (N mod D) =? D) |}.

(** The mantissa and exponent a rounded quotient [N / D * 2^e] gets when
    its integer part has at least 53 bits: [p] bits are shifted out, the
    rest is rounded to nearest-even, and a carry into a 54th bit is
    shifted once more. *)
Definition rounded_mantissa (N D : Z) : Z :=
  let p := Zdigits2 (N / D) - prec in
  let m := rne_div N (D * 2 ^ p) in
  if m =? 2 ^ prec then 2 ^ (prec - 1) else m.

Definition rounded_exponent (N D e : Z) : Z :=
  let p := Zdigits2 (N / D) - prec in
  let m := rne_div N (D * 2 ^ p) in
  if m =? 2 ^ prec then e + p + 1 else e + p.

(** Half a unit in the last place, relative to the value: [2^-53]. *)
Definition half_ulp : Q := 1 # (2 ^ 53).

(** [f] is within relative error [2^-53] of the rational [v]. *)
Definition approximates (f : spec_float) (v : Q) : Prop :=
  (v * (1 - half_ulp) <= SF2Q f <= v * (1 + half_ulp))%Q.

(** A positive float with a full 53-bit mantissa and exponent in [lo, hi]. *)
Definition normal_in (lo hi : Z) (f : spec_float) : Prop :=
  ∃ m e, f = S754_finite false m e ∧ 2 ^ 52 ≤ Zpos m < 2 ^ 53 ∧ lo ≤ e ≤ hi.

(** ** Totals of sums and of report columns *)

(** The sum of the values of a dict of sums. *)
Definition map_total (sums : gmap key Z) : Z :=
  map_fold (λ _ v acc, v + acc) 0 sums.

(** The sum of [realized_microcents] over all rows. *)
Definition rows_total (rows : list LedgerRow) : Z :=
  foldr (λ r acc, realized_microcents r + acc) 0 rows.

(** The sum of [f] over a list of keys. *)
Definition sum_over (f : key → Z) (l : list key) : Z :=
  foldr (λ k acc, f k + acc) 0 l.

(** The sum of a column of the report. *)
Definition column_total (col : ReportRow → Z) (rep : list ReportRow) : Z :=
  foldr (λ r acc, col r + acc) 0 rep.

(** Two dicts of sums added key by key. *)
Definition add_sums (a b : gmap key Z) : gmap key Z :=
  union_with (λ x y, Some (x + y)) a b.

(** ** More sample data *)

(** A ledger table whose second row has a NULL [realized_cents]. *)
Definition store_with_null_cents : list db_row :=
  [ mkDbRow (PStr "openai") (PStr "gpt-4") (PStr "2026-02-10T00:10:00+00:00")
            (PInt 3) (PStr meta_442100);
    mkDbRow (PStr "openai") (PStr "gpt-4") (PStr "2026-02-10T00:20:00+00:00")
            PNone (PStr meta_442100);
    mkDbRow (PStr "openai") (PStr "gpt-4") (PStr "2026-02-10T00:30:00+00:00")
            (PInt 2) (PStr meta_442100) ].

Section Millionths.
Context `{PyBuiltins}.

(** A row that is not skipped, of model [mk.1], whose cost text [float()]
    reads as the float nearest to [mk.2] millionths of a dollar, an amount
    below 10^7 dollars. *)
Definition row_millionths (row : csv_row) (mk : string * Z) : Prop :=
  row_skipped row = false
  ∧ row_model row = mk.1
  ∧ 0 ≤ mk.2 < 10 ^ 13
  ∧ py_float (row_cost row) = Ok (float_of_millionths mk.2).

End Millionths.

(** A ledger table whose second row holds metadata that is not UTF-8 (the
    byte FF), and one whose second row holds metadata that is no JSON next
    to a NULL [realized_cents]. *)
Definition store_with_undecodable_meta : list db_row :=
  [ mkDbRow (PStr "openai") (PStr "gpt-4") (PStr "2026-02-10T00:10:00+00:00")
            (PInt 3) (PStr meta_442100);
    mkDbRow (PStr "openai") (PStr "gpt-4") (PStr "2026-02-10T00:20:00+00:00")
            (PInt 1) (PStr (String (ascii_of_nat 255) EmptyString)) ].

Definition store_with_bad_meta_and_null_cents : list db_row :=
  [ mkDbRow (PStr "openai") (PStr "gpt-4") (PStr "2026-02-10T00:10:00+00:00")
            (PInt 3) (PStr meta_442100);
    mkDbRow (PStr "openai") (PStr "gpt-4") (PStr "2026-02-10T00:20:00+00:00")
            PNone (PStr "not json") ].

(** ** Variations of the command line *)

(** The bootstrap arguments with another [--base-url]. *)
Definition with_base_url (args : bootstrap_args) (base_url : string) : bootstrap_args :=
  mkBootstrapArgs base_url (ba_name args) (ba_limit args) (ba_topup args)
    (ba_api_key args) (ba_skip_health_check args) (ba_create_run args) (ba_json args).

(** The traffic generator's arguments with another [--base-url]. *)
Definition with_traffic_base_url (args : traffic_args) (base_url : string) : traffic_args :=
  mkTrafficArgs base_url (ta_model args) (ta_n args) (ta_max_output_tokens args)
    (ta_sleep_seconds args) (ta_hard_limit_cents args) (ta_topup_cents args) (ta_agent_name args)
    (ta_reasoning_effort args).

(** ** Reading a report the other way round *)

(** A report row with the two sources exchanged. *)
Definition swap_row (r : ReportRow) : ReportRow :=
  mkReportRow (rr_provider r) (rr_model r) (rr_provider_cost r) (rr_ledger r) (- rr_diff r).

(** The three amounts of a row can be divided by [100 * 1_000_000] as floats. *)
Definition row_printable (r : ReportRow) : Prop :=
  Z.abs (rr_ledger r) < 2 ^ 1000
  ∧ Z.abs (rr_provider_cost r) < 2 ^ 1000
  ∧ Z.abs (rr_diff r) < 2 ^ 1000.

(** ** Timestamps (reconcile_spendguard_billing.py) *)

(** [s[:-1]] *)
Fixpoint drop_last (s : string) : string :=
  match s with
  | EmptyString => EmptyString
  | String c s' =>
      match s' with
      | EmptyString => EmptyString
      | _ => String c (drop_last s')
      end
  end.

(** [s.endswith("Z")] *)
Definition ends_with_Z (s : string) : bool :=
  match last_char s with
  | Some c => Ascii.eqb c "Z"%char
  | None => false
  end.

Section ParseIso.

(** The values of [datetime] and the library's [datetime.fromisoformat]. *)
Variable datetime : Type.
Variable fromisoformat : string → result datetime.

(** [_parse_iso] *)
Definition _parse_iso (ts : string) : result datetime :=
  let ts := strip ts in
  let ts := if ends_with_Z ts then drop_last ts +:+ "+00:00" else ts in
  fromisoformat ts.

End ParseIso.

(** ** Blank cells of a CSV row *)

(** A text made of whitespace characters only (the empty text included). *)
Definition blank_text (s : string) : Prop :=
  ∃ chars : list string,
    Forall (λ w, is_space_char w = true) chars ∧ s = foldr String.append "" chars.

(** A cell that is missing from the row, holds [None], or holds a blank
    text. *)
Definition blank_cell (row : csv_row) (column : string) : Prop :=
  match row !! column with
  | Some (Some s) => blank_text s
  | _ => True
  end.

(** The text of a space, a no-break space (U+00A0), a tab and an em space
    (U+2003). *)
Definition blank_sample : string :=
  String (ascii_of_nat 32)
    (String (ascii_of_nat 194) (String (ascii_of_nat 160)
       (String (ascii_of_nat 9)
          (String (ascii_of_nat 226) (String (ascii_of_nat 128)
             (String (ascii_of_nat 131) EmptyString)))))).

(** ** Facts about the key order *)

Lemma string_compare_refl (s : string) : String.compare s s = Eq.
Proof. by apply String_as_OT.cmp_eq. Qed.

Lemma string_compare_lt_trans (a b c : string) :
  String.compare a b = Lt → String.compare b c = Lt → String.compare a c = Lt.
Proof.
  intros H1 H2.
  apply String_as_OT.cmp_lt. apply String_as_OT.cmp_lt in H1, H2.
  eapply String_as_OT.lt_trans; eauto.
Qed.

Lemma string_compare_gt_lt (a b : string) :
  String.compare a b = Gt ↔ String.compare b a = Lt.
Proof.
  rewrite (String.compare_antisym b a).
  destruct (String.compare a b); simpl; split; congruence.
Qed.

Lemma string_leb_trans (a b c : string) :
  String.leb a b = true → String.leb b c = true → String.leb a c = true.
Proof.
  unfold String.leb.
  destruct (String.compare a b) eqn:Hab; try discriminate;
  destruct (String.compare b c) eqn:Hbc; try discriminate; intros _ _.
  - apply String.compare_eq_iff in Hab, Hbc. subst. by rewrite string_compare_refl.
  - apply String.compare_eq_iff in Hab. subst. by rewrite Hbc.
  - apply String.compare_eq_iff in Hbc. subst. by rewrite Hab.
  - by rewrite (string_compare_lt_trans _ _ _ Hab Hbc).
Qed.

#[global] Instance key_le_total : Total key_le.
Proof.
  intros [p1 m1] [p2 m2]. unfold key_le, key_leb. simpl.
  rewrite (String.compare_antisym p1 p2).
  destruct (String.compare p2 p1) eqn:E; simpl; auto.
  apply String.leb_total.
Qed.

#[global] Instance key_le_trans : Transitive key_le.
Proof.
  intros [p1 m1] [p2 m2] [p3 m3]. unfold key_le, key_leb. simpl.
  destruct (String.compare p1 p2) eqn:E12; try discriminate;
  destruct (String.compare p2 p3) eqn:E23; try discriminate.
  - apply String.compare_eq_iff in E12, E23. subst. rewrite string_compare_refl.
    apply string_leb_trans.
  - apply String.compare_eq_iff in E12. subst. by rewrite E23.
  - apply String.compare_eq_iff in E23. subst. by rewrite E12.
  - by rewrite (string_compare_lt_trans _ _ _ E12 E23).
Qed.

#[global] Instance key_le_antisym : AntiSymm (=) key_le.
Proof.
  intros [p1 m1] [p2 m2]. unfold key_le, key_leb. simpl.
  destruct (String.compare p1 p2) eqn:E12.
  - apply String.compare_eq_iff in E12. subst. rewrite string_compare_refl.
    intros H1 H2. f_equal. by apply String.leb_antisym.
  - apply string_compare_gt_lt in E12 as E21. rewrite E21. discriminate.
  - discriminate.
Qed.

(** ** Ledger aggregation *)

Lemma get_or_0_default (sums : gmap key Z) (k : key) :
  get_or_0 sums k = default 0 (sums !! k).
Proof.
  unfold get_or_0. destruct (sums !! k) as [v|]; simpl; [|done].
  case_decide; congruence.
Qed.

Lemma ledger_total_absent (rows : list LedgerRow) (k : key) :
  k ∉ row_key <$> rows → ledger_total rows k = 0.
Proof.
  induction rows as [|r rows IH]; [done|].
  rewrite fmap_cons, not_elem_of_cons. intros [Hne Hnin].
  cbn [ledger_total foldr]. fold (ledger_total rows k).
  rewrite IH by done. rewrite decide_False by done. lia.
Qed.

Lemma sum_fold_lookup (rows : list LedgerRow) (acc : gmap key Z) (k : key) :
  foldl (λ sums r, <[row_key r := get0 sums (row_key r) + realized_microcents r]> sums)
        acc rows !! k
  = if decide (k ∈ row_key <$> rows)
    then Some (get0 acc k + ledger_total rows k)
    else acc !! k.
Proof.
  revert acc. induction rows as [|r rows IH]; intros acc.
  - done.
  - rewrite fmap_cons. cbn [foldl ledger_total foldr]. rewrite IH.
    fold (ledger_total rows k). unfold get0.
    destruct (decide (row_key r = k)) as [Heq|Hne].
    + rewrite (decide_True (P := k ∈ row_key r :: _)) by (rewrite Heq; by left).
      rewrite Heq, lookup_insert_eq. simpl.
      case_decide as Hin; f_equal; [lia|].
      rewrite ledger_total_absent by done. lia.
    + rewrite lookup_insert_ne by done.
      destruct (decide (k ∈ row_key <$> rows)) as [Hin|Hnin].
      * rewrite decide_True by (by right). done.
      * rewrite decide_False; [done|].
        intros [->|?]%elem_of_cons; done.
Qed.

Lemma sum_lookup (rows : list LedgerRow) (k : key) :
  _sum_microcents_by_provider_model rows !! k
  = if decide (k ∈ row_key <$> rows) then Some (ledger_total rows k) else None.
Proof.
  unfold _sum_microcents_by_provider_model. rewrite sum_fold_lookup.
  case_decide; [|done]. unfold get0. by rewrite lookup_empty.
Qed.

(** ** The sorted key list *)

Lemma sorted_perm (l : list key) : sorted l ≡ₚ l.
Proof. apply merge_sort_Permutation. Qed.

Lemma sorted_strict (l : list key) : NoDup l → StronglySorted key_lt (sorted l).
Proof.
  intros Hnd.
  assert (Hs : StronglySorted key_le (sorted l)) by apply (StronglySorted_merge_sort _).
  assert (Hnd' : NoDup (sorted l)) by by rewrite sorted_perm.
  induction Hs as [|x xs Hxs IH Hall]; [constructor|].
  apply NoDup_cons in Hnd' as [Hx Hnd'].
  constructor; [by apply IH|].
  apply Forall_forall. intros y Hy. split.
  - by eapply Forall_forall in Hall.
  - intros ->. done.
Qed.

Lemma report_keys_spec (L P : gmap key Z) :
  NoDup (report_keys L P)
  ∧ StronglySorted key_lt (report_keys L P)
  ∧ ∀ k, k ∈ report_keys L P ↔ k ∈ dom L ∨ k ∈ dom P.
Proof.
  unfold report_keys. split_and!.
  - rewrite sorted_perm. apply NoDup_elements.
  - apply sorted_strict, NoDup_elements.
  - intros k. rewrite sorted_perm, elem_of_elements. set_solver.
Qed.

Lemma report_keys_of_rows (L P : gmap key Z) :
  rr_key <$> report L P = report_keys L P.
Proof.
  unfold report. rewrite <- list_fmap_compose.
  rewrite <- (list_fmap_id (report_keys L P)) at 2.
  apply list_fmap_ext. intros _ [p m] _. done.
Qed.

(** C1. The report has exactly one row for each key of
    [keys(L) ∪ keys(P)], the rows come in strictly increasing
    [(provider, model)] order, a key absent from one side counts 0 there,
    each row's diff is its ledger amount minus its provider amount, and
    two empty sources give the empty report. [L] is the per-key sum of
    [realized_microcents] over the ledger rows. *)
Theorem report_key_union_complete (rows : list LedgerRow) (P : gmap key Z) :
  let L := _sum_microcents_by_provider_model rows in
  let rep := reconcile rows P in
  (∀ k, L !! k = if decide (k ∈ row_key <$> rows)
                 then Some (ledger_total rows k) else None)
  ∧ NoDup (rr_key <$> rep)
  ∧ (∀ k, k ∈ rr_key <$> rep ↔ k ∈ dom L ∨ k ∈ dom P)
  ∧ StronglySorted key_lt (rr_key <$> rep)
  ∧ (∀ r, r ∈ rep →
       rr_ledger r = default 0 (L !! rr_key r)
       ∧ rr_provider_cost r = default 0 (P !! rr_key r)
       ∧ rr_diff r = rr_ledger r - rr_provider_cost r)
  ∧ (rows = [] → P = ∅ → rep = []).
Proof.
  intros L rep. subst rep. unfold reconcile. fold L.
  rewrite report_keys_of_rows.
  destruct (report_keys_spec L P) as (Hnd & Hs & Hin).
  split_and!; try done.
  - apply sum_lookup.
  - intros r (k & -> & _)%list_elem_of_fmap. unfold report_row, rr_key. simpl.
    rewrite !get_or_0_default. by destruct k.
  - intros -> ->. done.
Qed.

(** ** Provider cost import *)

Section ImportFacts.
Context `{PyBuiltins}.

Lemma csv_step_skipped tag sums row :
  row_skipped row = true → csv_step tag sums row = Ok sums.
Proof.
  unfold row_skipped, row_model, row_cost, csv_step. by intros ->.
Qed.

Lemma csv_step_amount tag sums row :
  row_skipped row = false →
  csv_step tag sums row
  = mc ← row_amount row;
    Ok (<[(tag, row_model row) := get0 sums (tag, row_model row) + mc]> sums).
Proof.
  unfold row_skipped, row_model, row_cost, csv_step, row_amount, row_cost.
  intros ->. by destruct (py_float _).
Qed.

Lemma model_total_absent amts m : m ∉ amts.*1 → model_total amts m = 0.
Proof.
  induction amts as [|a amts IH]; [done|].
  rewrite fmap_cons, not_elem_of_cons. intros [Hne Hnin].
  cbn [model_total foldr]. fold (model_total amts m).
  rewrite IH by done. rewrite decide_False by done. lia.
Qed.

(** The loop, run from any accumulator, adds to each key the integer sum
    of the amounts of its model and leaves the other keys alone. *)
Lemma csv_loop_spec tag rows : ∀ acc amts,
  csv_amounts rows = Ok amts →
  ∃ sums, csv_loop tag acc rows = Ok sums
    ∧ ∀ k, sums !! k =
        if decide (k.1 = tag ∧ k.2 ∈ amts.*1)
        then Some (get0 acc k + model_total amts k.2)
        else acc !! k.
Proof.
  induction rows as [|row rows IH]; intros acc amts Hamts.
  - injection Hamts as <-. exists acc. split; [done|].
    intros k. rewrite decide_False; [done|]. intros [_ []%elem_of_nil].
  - cbn [csv_amounts] in Hamts. cbn [csv_loop].
    destruct (row_skipped row) eqn:Hskip.
    + rewrite csv_step_skipped by done. by apply IH.
    + rewrite csv_step_amount by done.
      destruct (row_amount row) as [mc|] eqn:Hmc; [|done]. simpl in Hamts.
      destruct (csv_amounts rows) as [amts'|] eqn:Hrest; [|done].
      injection Hamts as <-. simpl.
      destruct (IH (<[(tag, row_model row) := get0 acc (tag, row_model row) + mc]> acc)
                  amts' eq_refl) as (sums & Hloop & Hsums).
      exists sums. split; [done|]. intros k. rewrite Hsums. clear Hsums Hloop IH.
      rewrite ?fmap_cons. cbn [model_total foldr fst snd]. fold (model_total amts' k.2).
      unfold get0.
      destruct (decide ((tag, row_model row) = k)) as [<-|Hne].
      * simpl. rewrite lookup_insert_eq. simpl.
        rewrite (decide_True (P := _ ∧ row_model row ∈ row_model row :: _))
          by (split; [done | by left]).
        rewrite (decide_True (P := row_model row = row_model row)) by done.
        case_decide as Hin; f_equal; [lia|].
        rewrite model_total_absent; [lia|]. intros ?. apply Hin. done.
      * rewrite lookup_insert_ne by done.
        destruct (decide (k.1 = tag ∧ k.2 ∈ amts'.*1)) as [[Ht Hin]|Hnin].
        -- rewrite decide_True by (split; [done | by right]).
           rewrite (decide_False (P := row_model row = k.2)); [done|].
           intros Heq. apply Hne. destruct k; simpl in *; congruence.
        -- rewrite decide_False; [done|].
           intros [Ht [Heq|Hin]%elem_of_cons]; [|by apply Hnin].
           apply Hne. destruct k; simpl in *; congruence.
Qed.


Lemma csv_step_keys tag acc row sums k :
  csv_step tag acc row = Ok sums →
  is_Some (sums !! k) → k.1 = tag ∨ is_Some (acc !! k).
Proof.
  destruct (row_skipped row) eqn:Hskip.
  - rewrite csv_step_skipped by done. intros [= <-]. by right.
  - rewrite csv_step_amount by done.
    destruct (row_amount row) as [mc|]; [|done]. simpl. intros [= <-].
    destruct (decide ((tag, row_model row) = k)) as [<-|Hne]; [by left|].
    rewrite lookup_insert_ne by done. by right.
Qed.

Lemma csv_loop_keys tag rows : ∀ acc sums k,
  csv_loop tag acc rows = Ok sums →
  is_Some (sums !! k) → k.1 = tag ∨ is_Some (acc !! k).
Proof.
  induction rows as [|row rows IH]; intros acc sums k; cbn [csv_loop].
  - intros [= <-]. by right.
  - destruct (csv_step tag acc row) as [acc'|] eqn:Hstep; [|done]. simpl.
    intros Hloop Hk. destruct (IH _ _ _ Hloop Hk) as [?|Hk']; [by left|].
    by eapply csv_step_keys.
Qed.

Lemma load_tagged tag rows sums k :
  csv_loop tag ∅ rows = Ok sums → is_Some (sums !! k) → k.1 = tag.
Proof.
  intros Hloop Hk. destruct (csv_loop_keys _ _ _ _ _ Hloop Hk) as [?|[? Hk']]; [done|].
  by rewrite lookup_empty in Hk'.
Qed.

Lemma model_total_filter amts m :
  model_total amts m = model_total (filter (λ a, a.1 = m) amts) m.
Proof.
  induction amts as [|a amts IH]; [done|].
  cbn [model_total foldr]. fold (model_total amts m).
  destruct (decide (a.1 = m)) as [Heq|Hne].
  - rewrite filter_cons_True by done. cbn [model_total foldr].
    fold (model_total (filter (λ a, a.1 = m) amts) m).
    rewrite decide_True by done. lia.
  - rewrite filter_cons_False by done. lia.
Qed.

End ImportFacts.

(** ** Properties of the importers *)

Section ImportClaims.
Context `{PyBuiltins}.

Lemma adapters_loop tag load rows :
  (tag, load) ∈ adapters → load rows = csv_loop tag ∅ rows.
Proof.
  unfold adapters. rewrite !elem_of_cons, elem_of_nil.
  intros [[= -> ->]|[[= -> ->]|[[= -> ->]|[]]]]; done.
Qed.

(** C8. An adapter's sum for a key is the integer sum of the individually
    converted costs of the rows with that key: with exactly two such rows,
    of amounts [na = usd_to_microcents(a)] and [nb = usd_to_microcents(b)],
    it is [na + nb]; with any number of rows it is their integer total.
    [amts] lists [(model, usd_to_microcents(float(cost)))] for the rows
    that are not skipped. *)
Theorem csv_import_sums_converted_rows
    (tag : string) (load : list csv_row → result (gmap key Z))
    (rows : list csv_row) (amts : list (string * Z)) :
  (tag, load) ∈ adapters →
  csv_amounts rows = Ok amts →
  ∃ sums, load rows = Ok sums
    ∧ (∀ m na nb, filter (λ a, a.1 = m) amts = [(m, na); (m, nb)] →
         sums !! (tag, m) = Some (na + nb))
    ∧ (∀ m, sums !! (tag, m) =
         if decide (m ∈ amts.*1) then Some (model_total amts m) else None).
Proof.
  intros Hload Hamts. rewrite (adapters_loop _ _ _ Hload).
  destruct (csv_loop_spec tag rows ∅ amts Hamts) as (sums & Hloop & Hsums).
  exists sums. split; [done|].
  assert (Hall : ∀ m, sums !! (tag, m) =
            if decide (m ∈ amts.*1) then Some (model_total amts m) else None).
  { intros m. rewrite Hsums. simpl. unfold get0. rewrite lookup_empty. simpl.
    destruct (decide (m ∈ amts.*1)).
    - by rewrite decide_True.
    - rewrite decide_False; [done|]. by intros [_ ?]. }
  split; [|done].
  intros m na nb Hfilter. rewrite Hall.
  rewrite decide_True.
  - f_equal. rewrite model_total_filter, Hfilter. simpl.
    rewrite !decide_True by done. lia.
  - apply list_elem_of_fmap. exists (m, na). split; [done|].
    assert (Hin : (m, na) ∈ filter (λ a, a.1 = m) amts) by (rewrite Hfilter; by left).
    by apply list_elem_of_filter in Hin as [_ ?].
Qed.

Lemma update_from_ok ps load csv sums :
  load_opt load csv = Ok sums → update_from ps load csv = Ok (sums ∪ ps).
Proof.
  destruct csv as [rows|]; simpl.
  - by intros ->.
  - intros [= <-]. by rewrite (left_id_L ∅ (∪)).
Qed.

Lemma load_opt_tagged tag csv sums k :
  load_opt (csv_loop tag ∅) csv = Ok sums → is_Some (sums !! k) → k.1 = tag.
Proof.
  destruct csv as [rows|]; simpl.
  - apply load_tagged.
  - intros [= <-]. rewrite lookup_empty. by intros [? ?].
Qed.

(** C6. After the adapters' outputs are merged with [update], every key
    of every adapter's output is present with the value that adapter gave
    it: the keys of the three outputs carry three different provider
    strings, so no later [update] overwrites an earlier key. *)
Theorem provider_keys_coexist (args : reconcile_args) (so sa sg : gmap key Z) :
  load_opt _load_openai_csv (arg_openai_csv args) = Ok so →
  load_opt _load_anthropic_csv (arg_anthropic_csv args) = Ok sa →
  load_opt _load_gemini_csv (arg_gemini_csv args) = Ok sg →
  ∃ provider_sums, load_provider_sums args = Ok provider_sums
    ∧ (∀ k v, so !! k = Some v → provider_sums !! k = Some v)
    ∧ (∀ k v, sa !! k = Some v → provider_sums !! k = Some v)
    ∧ (∀ k v, sg !! k = Some v → provider_sums !! k = Some v)
    ∧ (∀ k, k ∈ dom so → k.1 = "openai")
    ∧ (∀ k, k ∈ dom sa → k.1 = "anthropic")
    ∧ (∀ k, k ∈ dom sg → k.1 = "gemini")
    ∧ dom provider_sums = dom so ∪ dom sa ∪ dom sg.
Proof.
  intros Ho Ha Hg.
  assert (Hto : ∀ k, is_Some (so !! k) → k.1 = "openai")
    by (intros k; by apply (load_opt_tagged _ _ _ _ Ho)).
  assert (Hta : ∀ k, is_Some (sa !! k) → k.1 = "anthropic")
    by (intros k; by apply (load_opt_tagged _ _ _ _ Ha)).
  assert (Htg : ∀ k, is_Some (sg !! k) → k.1 = "gemini")
    by (intros k; by apply (load_opt_tagged _ _ _ _ Hg)).
  exists (sg ∪ (sa ∪ (so ∪ ∅))). split.
  { unfold load_provider_sums.
    rewrite (update_from_ok _ _ _ _ Ho). simpl.
    rewrite (update_from_ok _ _ _ _ Ha). simpl.
    by rewrite (update_from_ok _ _ _ _ Hg). }
  rewrite (right_id_L ∅ (∪)).
  split_and!.
  - intros k v Hk.
    assert (sg !! k = None) as Hng.
    { apply eq_None_not_Some. intros Hs. apply Htg in Hs.
      rewrite (Hto k) in Hs by eauto. done. }
    assert (sa !! k = None) as Hna.
    { apply eq_None_not_Some. intros Hs. apply Hta in Hs.
      rewrite (Hto k) in Hs by eauto. done. }
    rewrite lookup_union_r by done. rewrite lookup_union_r by done. done.
  - intros k v Hk.
    assert (sg !! k = None) as Hng.
    { apply eq_None_not_Some. intros Hs. apply Htg in Hs.
      rewrite (Hta k) in Hs by eauto. done. }
    rewrite lookup_union_r by done. by apply lookup_union_Some_l.
  - intros k v Hk. by apply lookup_union_Some_l.
  - intros k Hk. by apply Hto, elem_of_dom.
  - intros k Hk. by apply Hta, elem_of_dom.
  - intros k Hk. by apply Htg, elem_of_dom.
  - rewrite !dom_union_L.
    rewrite (comm_L (∪) (dom sg)), (comm_L (∪) (dom sa)). done.
Qed.

End ImportClaims.

Lemma csv_import_sums_converted_rows_witness :
  let rows := [csv_line "gpt-5.2-pro" "0.003421"; csv_line "gpt-4" "0.5";
               csv_line "gpt-5.2-pro" "0.001000"] in
  ∃ sums, @_load_openai_csv sample_builtins rows = Ok sums
    ∧ sums !! ("openai", "gpt-5.2-pro") = Some (342100 + 100000).
Proof.
  intros rows.
  destruct (@csv_import_sums_converted_rows sample_builtins "openai"
              (@_load_openai_csv sample_builtins) rows
              [("gpt-5.2-pro", 342100); ("gpt-4", 50000000); ("gpt-5.2-pro", 100000)])
    as (sums & Hload & Htwo & _).
  - by left.
  - vm_compute. reflexivity.
  - exists sums. split; [exact Hload|]. apply Htwo. vm_compute. reflexivity.
Defined.

(** Converting the float sum of two costs is a different computation: two
    costs of [2^-28] dollars convert to 0 microcents each, while their
    float sum converts to 1. *)
Example float_sum_converts_differently :
  let a := S754_finite false 1 (-28) in
  _usd_to_microcents a = Ok 0 ∧ _usd_to_microcents (fadd a a) = Ok 1.
Proof. split; vm_compute; reflexivity. Qed.

Lemma provider_keys_coexist_witness :
  let args := mkReconcileArgs "2026-02-10T00:00:00+00:00" "2026-02-10T01:00:00+00:00"
                (Some [csv_line "gpt-5.2-pro" "0.003421"; csv_line "gpt-5.2-pro" "0.001000"])
                (Some [csv_line "claude-x" "0.010000"])
                None in
  ∃ provider_sums, @load_provider_sums sample_builtins args = Ok provider_sums
    ∧ provider_sums !! ("openai", "gpt-5.2-pro") = Some 442100
    ∧ provider_sums !! ("anthropic", "claude-x") = Some 1000000.
Proof.
  intros args.
  destruct (@provider_keys_coexist sample_builtins args
              {[ ("openai", "gpt-5.2-pro") := 442100 ]}
              {[ ("anthropic", "claude-x") := 1000000 ]} ∅)
    as (ps & Hps & Ho & Ha & _).
  - vm_compute. reflexivity.
  - vm_compute. reflexivity.
  - vm_compute. reflexivity.
  - exists ps. split; [exact Hps|]. split.
    + apply Ho. vm_compute. reflexivity.
    + apply Ha. vm_compute. reflexivity.
Defined.

(** ** Ledger extraction *)

Section LedgerFacts.
Context `{PyBuiltins}.

Lemma dict_get_lookup d k : dict_get d k = default PNone (dict_lookup d k).
Proof.
  induction d as [|[k' v] d IH]; [done|]. simpl. by destruct (String.eqb k' k).
Qed.

Lemma py_or_dict d : py_or (PDict d) (PDict []) = PDict d.
Proof. by destruct d. Qed.

Lemma py_get_not_dict v k : as_dict v = None → py_get v k = Raise AttributeError.
Proof. by destruct v. Qed.

(** One step down the path: [x = (v or {}).get(key)], then [cont x]. The
    outcome is 0 whenever it is 0 for an absent key and for every value
    stored under the key. *)
Lemma get_step_zero (key : string) (cont : pyval → result Z) (v : pyval) :
  except_all (cont PNone) 0 = 0 →
  (∀ d x, as_dict v = Some d → dict_lookup d key = Some x → except_all (cont x) 0 = 0) →
  except_all (x ← py_get (py_or v (PDict [])) key; cont x) 0 = 0.
Proof.
  intros Hnone Hsome.
  destruct (as_dict v) as [d|] eqn:Hd.
  - destruct v; try done. injection Hd as ->. rewrite py_or_dict. simpl.
    rewrite dict_get_lookup.
    destruct (dict_lookup d key) as [x|] eqn:Hx; simpl; [by eapply Hsome | done].
  - unfold py_or. destruct (truthy v).
    + by rewrite py_get_not_dict.
    + done.
Qed.

Lemma meta_walk_zero (meta : pyval) :
  nested_field meta = None →
  except_all
    (bb ← py_get meta "billing_breakdown";
     totals ← py_get (py_or bb (PDict [])) "totals";
     v ← py_get (py_or totals (PDict [])) "realized_microcents";
     py_int (py_or v (PInt 0))) 0 = 0.
Proof.
  intros Hnf.
  destruct (as_dict meta) as [d|] eqn:Hd; [|by rewrite py_get_not_dict].
  destruct meta; try done. injection Hd as ->. simpl.
  unfold nested_field in Hnf. simpl in Hnf.
  rewrite dict_get_lookup.
  destruct (dict_lookup d "billing_breakdown") as [bb|]; simpl in *; [|done].
  apply get_step_zero; [done|]. intros bbd totals Hbbd Htotals.
  rewrite Hbbd in Hnf. simpl in Hnf. rewrite Htotals in Hnf. simpl in Hnf.
  apply get_step_zero; [done|]. intros td v Htd Hv.
  rewrite Htd in Hnf. simpl in Hnf. congruence.
Qed.

Lemma malformed_meta_zero (meta_json : pyval) :
  malformed_meta meta_json → row_microcents meta_json = 0.
Proof.
  assert (Hgen : ∀ v, nested_field v = None →
            except_all
              (bb ← py_get (py_or v (PDict [])) "billing_breakdown";
               totals ← py_get (py_or bb (PDict [])) "totals";
               x ← py_get (py_or totals (PDict [])) "realized_microcents";
               py_int (py_or x (PInt 0))) 0 = 0).
  { intros v Hv. apply meta_walk_zero. unfold py_or. by destruct (truthy v). }
  destruct meta_json as [| | | |s| | |d]; try exact (Hgen _).
  unfold malformed_meta, row_microcents, meta_microcents.
  destruct (json_loads s) as [meta|]; [|done]. apply meta_walk_zero.
Qed.

Lemma wellformed_meta_value (s : string) (meta : pyval) (z : Z) :
  json_loads s = Some meta → nested_field meta = Some (PInt z) →
  row_microcents (PStr s) = z.
Proof.
  unfold row_microcents, meta_microcents. intros -> Hnf. simpl.
  unfold nested_field in Hnf.
  destruct meta as [| | | | | | |d]; try done. simpl in *.
  rewrite dict_get_lookup.
  destruct (dict_lookup d "billing_breakdown") as [bb|]; [|done]. simpl in *.
  destruct bb as [| | | | | | |bbd]; try done. rewrite py_or_dict. simpl in *.
  rewrite dict_get_lookup.
  destruct (dict_lookup bbd "totals") as [t|]; [|done]. simpl in *.
  destruct t as [| | | | | | |td]; try done. rewrite py_or_dict. simpl in *.
  rewrite dict_get_lookup, Hnf. simpl.
  unfold py_or. simpl. destruct (z =? 0) eqn:Hz; simpl; [|done].
  apply Z.eqb_eq in Hz. by subst.
Qed.

Lemma ledger_loop_app (rows : list db_row) : ∀ out rs,
  Forall2 (λ row r, ledger_row_of row = Ok r) rows rs →
  ledger_loop out rows = Ok (out ++ rs)%list.
Proof.
  induction rows as [|row rows IH]; intros out rs Hall.
  - apply Forall2_nil_inv_l in Hall as ->. by rewrite app_nil_r.
  - apply Forall2_cons_inv_l in Hall as (r & rs' & Hr & Hrs & ->).
    cbn [ledger_loop]. rewrite Hr. simpl. rewrite (IH _ rs') by done.
    by rewrite <- app_assoc.
Qed.

Lemma ledger_row_of_int (row : db_row) :
  is_ok (py_int (db_realized_cents row)) = true →
  ∃ rc, py_int (db_realized_cents row) = Ok rc
    ∧ ledger_row_of row =
        Ok (mkLedgerRow (py_str (db_provider row)) (py_str (db_model row))
              (py_str (db_created_at row)) (row_microcents (db_meta_json row)) rc).
Proof.
  unfold ledger_row_of. destruct (py_int (db_realized_cents row)) as [rc|]; [|done].
  intros _. by exists rc.
Qed.

Lemma fetchall_ok (rows : list db_row) :
  (∀ row, row ∈ rows → row_decodes row = true) → fetchall rows = Ok rows.
Proof.
  intros Hdec. unfold fetchall.
  assert (Hall : forallb row_decodes rows = true).
  { apply forallb_forall. intros row Hrow. apply Hdec. by apply list_elem_of_In. }
  by rewrite Hall.
Qed.

Lemma fetchall_inv (rows rows' : list db_row) :
  fetchall rows = Ok rows' → rows' = rows ∧ forallb row_decodes rows = true.
Proof.
  unfold fetchall. destruct (forallb row_decodes rows); [|done]. by intros [= <-].
Qed.

(** C5. In an extraction whose selected rows the cursor can hand over
    (every TEXT among them is valid UTF-8) and whose [realized_cents] values
    are ones [int()] accepts, every row of the inclusive window is
    returned, in order, and none raises: a row whose [meta_json] does not
    parse, or whose document lacks
    [billing_breakdown.totals.realized_microcents], comes back with
    [realized_microcents = 0], next to the other rows, which keep the
    integer their metadata holds. *)
Theorem ledger_extraction_tolerates_malformed_meta
    (store : list db_row) (start end_ : string) :
  let window := filter (λ row, in_window start end_ row = true) store in
  (∀ row, row ∈ window → row_decodes row = true) →
  (∀ row, row ∈ window → is_ok (py_int (db_realized_cents row)) = true) →
  ∃ out, _load_sqlite_ledger store start end_ = Ok out
    ∧ length out = length window
    ∧ ∀ i row, window !! i = Some row →
        ∃ r, out !! i = Some r
          ∧ provider r = py_str (db_provider row)
          ∧ model r = py_str (db_model row)
          ∧ created_at r = py_str (db_created_at row)
          ∧ (malformed_meta (db_meta_json row) → realized_microcents r = 0)
          ∧ (∀ s meta z, db_meta_json row = PStr s → json_loads s = Some meta →
               nested_field meta = Some (PInt z) → realized_microcents r = z).
Proof.
  intros window Hdec Hint. unfold _load_sqlite_ledger. fold window.
  rewrite (fetchall_ok window Hdec). cbn [mbind result_bind rbind].
  assert (Hrs : ∃ rs, Forall2 (λ row r, ledger_row_of row = Ok r) window rs).
  { clear -Hint. induction window as [|row rows IH]; [by exists []|].
    destruct IH as [rs Hrs]; [intros; apply Hint; by right|].
    destruct (ledger_row_of_int row) as (rc & _ & Hrow); [apply Hint; by left|].
    eexists (_ :: rs). constructor; eauto. }
  destruct Hrs as [rs Hrs]. exists rs.
  split; [by rewrite (ledger_loop_app _ [] rs)|].
  split; [symmetry; by eapply Forall2_length|].
  intros i row Hi.
  destruct (Forall2_lookup_l _ _ _ _ _ Hrs Hi) as (r & Hr & Hrow).
  exists r. split; [done|].
  destruct (ledger_row_of_int row) as (rc & _ & Hrow').
  { apply Hint. by eapply list_elem_of_lookup_2. }
  rewrite Hrow' in Hrow. injection Hrow as <-. simpl.
  split_and!; try done.
  - apply malformed_meta_zero.
  - intros s meta z -> Hs Hnf. by eapply wellformed_meta_value.
Qed.

End LedgerFacts.

Lemma ledger_extraction_tolerates_malformed_meta_witness :
  ∃ out, @_load_sqlite_ledger sample_builtins sample_store
           "2026-02-10T00:00:00+00:00" "2026-02-10T01:00:00+00:00" = Ok out
    ∧ length out = 3%nat
    ∧ realized_microcents <$> out = [0; 442100; 0].
Proof.
  destruct (@ledger_extraction_tolerates_malformed_meta sample_builtins sample_store
              "2026-02-10T00:00:00+00:00" "2026-02-10T01:00:00+00:00")
    as (out & Hout & Hlen & _).
  - intros row Hrow. vm_compute in Hrow.
    repeat (apply elem_of_cons in Hrow as [->|Hrow]; [reflexivity|]).
    by apply elem_of_nil in Hrow.
  - intros row Hrow. vm_compute in Hrow.
    repeat (apply elem_of_cons in Hrow as [->|Hrow]; [reflexivity|]).
    by apply elem_of_nil in Hrow.
  - exists out. split; [exact Hout|]. split; [exact Hlen|].
    vm_compute in Hout. injection Hout as <-. reflexivity.
Defined.

(** The claim that an extraction never raises on a row with unparsable
    metadata, and returns every row of the window, fails even when every
    [realized_cents] is an integer: metadata that is not UTF-8 makes the
    cursor raise [OperationalError] before any row is looked at, and no
    row is returned. *)
Lemma ledger_extraction_raises_on_undecodable_meta :
  ¬ (∀ (store : list db_row) (start end_ : string),
       let window := filter (λ row, in_window start end_ row = true) store in
       (∀ row, row ∈ window →
          is_ok (@py_int sample_builtins (db_realized_cents row)) = true) →
       ∃ out, @_load_sqlite_ledger sample_builtins store start end_ = Ok out
         ∧ length out = length window).
Proof.
  intros Hall.
  destruct (Hall store_with_undecodable_meta
              "2026-02-10T00:00:00+00:00" "2026-02-10T01:00:00+00:00")
    as (out & Hout & _).
  - intros row Hrow. vm_compute in Hrow.
    repeat (apply elem_of_cons in Hrow as [->|Hrow]; [reflexivity|]).
    by apply elem_of_nil in Hrow.
  - vm_compute in Hout. discriminate Hout.
Qed.

Example ledger_extraction_raises :
  @_load_sqlite_ledger sample_builtins store_with_undecodable_meta
     "2026-02-10T00:00:00+00:00" "2026-02-10T01:00:00+00:00" = Raise OperationalError
  ∧ @_load_sqlite_ledger sample_builtins store_with_bad_meta_and_null_cents
     "2026-02-10T00:00:00+00:00" "2026-02-10T01:00:00+00:00" = Raise TypeError.
Proof. split; vm_compute; reflexivity. Qed.

(** ** URL shapes *)

Lemma last_char_app (s : string) (c : ascii) (t : string) :
  last_char (s +:+ String c t) = last_char (String c t).
Proof.
  induction s as [|a s IH]; [done|].
  change (String a s +:+ String c t) with (String a (s +:+ String c t)).
  cbn [last_char]. rewrite IH. simpl. by destruct (last_char t).
Qed.

Lemma budget_not_runs (a b : string) : a +:+ "/budget" ≠ b +:+ "/runs".
Proof.
  intros Heq. apply (f_equal last_char) in Heq.
  rewrite !last_char_app in Heq. discriminate.
Qed.

Lemma agents_url_not_budget base id : agents_url base ≠ budget_url base id.
Proof.
  unfold agents_url, budget_url. intros Heq%(inj (String.app base)).
  discriminate.
Qed.

Lemma agents_url_not_runs base id : agents_url base ≠ runs_url base id.
Proof.
  unfold agents_url, runs_url. intros Heq%(inj (String.app base)).
  discriminate.
Qed.

Lemma budget_url_not_runs base id id' : budget_url base id ≠ runs_url base id'.
Proof.
  unfold budget_url, runs_url. intros Heq%(inj (String.app base)).
  apply (inj (String.app "/v1/agents/")) in Heq. by apply budget_not_runs in Heq.
Qed.

Section Bootstrap.
Context `{PyBuiltins}.

Lemma request_json_run srv method url headers payload t :
  _request_json srv method url headers payload t
  = (t ++ [mkCall method url headers payload],
     decode_reply (srv t (mkCall method url headers payload))).
Proof.
  unfold _request_json, urlopen, mbind, io_bind, mret, io_ret, io_raise.
  by destruct (decode_reply _).
Qed.

Lemma request_run srv c t :
  request srv c t = ((t ++ [c])%list, decode_reply (srv t c)).
Proof.
  unfold request. rewrite request_json_run. by destruct c.
Qed.

Lemma bind_request {A} srv c (k : pydict → io A) t :
  (request srv c ≫= k) t
  = match decode_reply (srv t c) with
    | Ok d => k d (t ++ [c])%list
    | Raise e => ((t ++ [c])%list, Raise e)
    end.
Proof. unfold mbind, io_bind. by rewrite request_run. Qed.

Lemma py_eq_str_true v s : py_eq_str v s = true ↔ v = PStr s.
Proof.
  destruct v; simpl; try (split; congruence).
  rewrite String.eqb_eq. split; congruence.
Qed.

Lemma provision_shape srv args pre t r :
  provision srv args pre = (t, r) → provisioned srv args pre t r.
Proof.
  unfold provision. rewrite bind_request.
  set (base := rstrip_slash (ba_base_url args)).
  set (headers := _headers (ba_api_key args)).
  set (ac := agents_call base headers (ba_name args)).
  destruct (decode_reply (srv pre ac)) as [agent|e] eqn:Hagent; simpl.
  2:{ intros [= <- <-]. apply agent_failed. intros id (d & Hd & _).
      unfold ac, base, headers in Hagent. congruence. }
  assert (Hbad : ∀ e, (∀ id, dict_get agent "agent_id" = PStr id → id = "") →
            provisioned srv args pre (pre ++ [ac]) (Raise e)).
  { intros e Hno. apply agent_failed. intros id (d & Hd & Hid & Hne).
    fold base headers ac in Hd. rewrite Hagent in Hd. injection Hd as <-. by apply Hne, Hno. }
  destruct (dict_get agent "agent_id") as [| | | |id| | |] eqn:Hid;
    try (intros [= <- <-]; apply Hbad; intros ? [=]).
  destruct (String.eqb id "") eqn:Hempty.
  { intros [= <- <-]. apply Hbad. intros ? [= <-]. by apply String.eqb_eq. }
  apply String.eqb_neq in Hempty.
  assert (Hret : returned_agent_id (srv pre ac) id) by (by exists agent).
  clear Hbad.
  rewrite bind_request.
  set (bc := budget_call base headers id (ba_limit args) (effective_topup args)).
  destruct (decode_reply (srv (pre ++ [ac]) bc)) as [budget|e] eqn:Hbudget; simpl.
  2:{ intros [= <- <-]. rewrite <- app_assoc. by apply budget_failed. }
  unfold mbind at 1, io_bind at 1.
  destruct (ba_create_run args) eqn:Hrun.
  - rewrite bind_request.
    set (rc := runs_call base headers id).
    rewrite <- !app_assoc. simpl.
    destruct (decode_reply (srv (pre ++ [ac; bc]) rc)) as [run|e] eqn:Hr; simpl.
    + intros [= <- <-]. by eapply run_created.
    + intros [= <- <-]. by eapply run_failed.
  - simpl. intros [= <- <-]. rewrite <- !app_assoc. by apply budget_set.
Qed.

Lemma bootstrap_shape srv args t r :
  run_io (bootstrap_main srv args) = (t, r) → bootstrapped srv args t r.
Proof.
  unfold run_io, bootstrap_main, check_health.
  unfold mbind at 1, io_bind at 1.
  destruct (ba_skip_health_check args) eqn:Hskip.
  - simpl. intros Hp. apply health_skipped; [done|]. by apply provision_shape.
  - rewrite bind_request. simpl.
    destruct (decode_reply (srv [] (health_call _))) as [health|e] eqn:Hh.
    + destruct (py_eq_str (dict_get health "status") "ok") eqn:Hok; simpl.
      * intros Hp. apply health_checked; [done| |by apply provision_shape].
        exists health. split; [done|]. by apply py_eq_str_true.
      * intros [= <- <-]. apply unhealthy; [done|]. intros (d & Hd & Hs).
        rewrite Hh in Hd. injection Hd as <-.
        apply py_eq_str_true in Hs. congruence.
    + simpl. intros [= <- <-]. apply unhealthy; [done|]. intros (d & Hd & _). congruence.
Qed.

Lemma reply_at_app srv (pre l : list http_call) (k : nat) :
  reply_at srv (pre ++ l) (length pre + k)
  = c ← l !! k; Some (srv (pre ++ take k l) c).
Proof.
  unfold reply_at. rewrite lookup_app_r by lia.
  replace (length pre + k - length pre)%nat with k by lia.
  by rewrite take_app_add.
Qed.

Lemma agents_call_not_budget base hs n c :
  c = agents_call base hs n → ¬ is_budget_call base c.
Proof. intros -> [_ [id Hurl]]. by apply agents_url_not_budget in Hurl. Qed.

Lemma agents_call_not_runs base hs n c :
  c = agents_call base hs n → ¬ is_runs_call base c.
Proof. intros -> [_ [id Hurl]]. by apply agents_url_not_runs in Hurl. Qed.

Lemma budget_call_not_runs base hs id l tp c :
  c = budget_call base hs id l tp → ¬ is_runs_call base c.
Proof. intros -> [_ [id' Hurl]]. by apply budget_url_not_runs in Hurl. Qed.

Lemma runs_call_not_budget base hs id c :
  c = runs_call base hs id → ¬ is_budget_call base c.
Proof. intros -> [_ [id' Hurl]]. symmetry in Hurl. by apply budget_url_not_runs in Hurl. Qed.

Lemma health_call_not_post base c :
  c = health_call base → call_method c ≠ "POST".
Proof. by intros ->. Qed.

Lemma provisioned_order srv args pre t r :
  let base := rstrip_slash (ba_base_url args) in
  provisioned srv args pre t r →
  (∀ c, c ∈ pre → call_method c ≠ "POST") →
  budget_after_agent srv base t ∧ run_after_budget srv base t.
Proof.
  intros base Hshape Hpre.
  assert (Hpre_b : ∀ i c, pre !! i = Some c → ¬ is_budget_call base c).
  { intros i c Hi [Hm _]. eapply Hpre; [|done]. by eapply list_elem_of_lookup_2. }
  assert (Hpre_r : ∀ i c, pre !! i = Some c → ¬ is_runs_call base c).
  { intros i c Hi [Hm _]. eapply Hpre; [|done]. by eapply list_elem_of_lookup_2. }
  set (headers := _headers (ba_api_key args)).
  set (ac := agents_call base headers (ba_name args)).
  assert (Hac : is_agents_call base ac) by done.
  assert (Hagent : ∀ l, reply_at srv (pre ++ ac :: l) (length pre + 0) = Some (srv pre ac)).
  { intros l. rewrite reply_at_app. simpl. by rewrite app_nil_r. }
  assert (Hlook0 : ∀ l, (pre ++ ac :: l) !! (length pre + 0)%nat = Some ac).
  { intros l. by rewrite lookup_app_r, Nat.add_0_r, Nat.sub_diag by lia. }
  assert (Hbudget : ∀ c l, reply_at srv (pre ++ ac :: c :: l) (length pre + 1)
                           = Some (srv (pre ++ [ac]) c)).
  { intros c l. by rewrite reply_at_app. }
  assert (Hlook1 : ∀ c l, (pre ++ ac :: c :: l) !! (length pre + 1)%nat = Some c).
  { intros c l. rewrite lookup_app_r by lia.
    by replace (length pre + 1 - length pre)%nat with 1%nat by lia. }
  split; intros i c Hi Hc.
  all: destruct Hshape as [e Hno|id e Hid Hb|id budget Hid Hb Hrun|id budget e Hid Hb Hrun Hr
                        |id budget run Hid Hb Hrun Hr].
  all: apply lookup_app_Some in Hi as [Hi|[Hge Hi]].
  all: try (exfalso; first [by eapply Hpre_b | by eapply Hpre_r]).
  all: remember (i - length pre)%nat as k eqn:Hk.
  all: destruct k as [|[|[|k]]]; simpl in Hi; rewrite ?lookup_nil in Hi; try discriminate Hi.
  all: injection Hi as <-.
  all: try (exfalso; by eapply agents_call_not_budget).
  all: try (exfalso; by eapply agents_call_not_runs).
  all: try (exfalso; by eapply budget_call_not_runs).
  all: try (exfalso; by eapply runs_call_not_budget).
  all: try (exists (length pre + 0)%nat, ac, (srv pre ac), id;
            split_and!; [lia|apply Hlook0|done|apply Hagent|done|done]).
  all: eexists (length pre + 1)%nat, _, _;
       split_and!; [lia|apply Hlook1| |apply Hbudget|by eexists].
  all: split; [done|by eexists].
Qed.

(** C4. In every run of the provisioning workflow a call to the budget
    endpoint comes after a call to [POST /v1/agents] whose reply was a
    JSON object with a non-empty string [agent_id] (the one in the budget
    URL), a call to the run endpoint comes after a budget call that
    succeeded, and when the health check is made and its reply does not
    report the status [ok], the run ends with an exception after that one
    call: no [POST /v1/agents] is made. *)
Theorem provisioning_order srv args :
  let base := rstrip_slash (ba_base_url args) in
  let t := (run_io (bootstrap_main srv args)).1 in
  let r := (run_io (bootstrap_main srv args)).2 in
  (∀ i c, t !! i = Some c → is_budget_call base c →
     ∃ j c' reply id, (j < i)%nat ∧ t !! j = Some c' ∧ is_agents_call base c'
       ∧ reply_at srv t j = Some reply ∧ returned_agent_id reply id
       ∧ call_url c = budget_url base id)
  ∧ (∀ i c, t !! i = Some c → is_runs_call base c →
     ∃ j c' reply, (j < i)%nat ∧ t !! j = Some c' ∧ is_budget_call base c'
       ∧ reply_at srv t j = Some reply ∧ call_succeeded reply)
  ∧ (ba_skip_health_check args = false →
     ¬ reports_ok (srv [] (health_call base)) →
     t = [health_call base] ∧ is_ok r = false
     ∧ ∀ c, c ∈ t → ¬ is_agents_call base c).
Proof.
  intros base t r.
  destruct (run_io (bootstrap_main srv args)) as [t' r'] eqn:Hrun.
  subst t r. simpl.
  apply bootstrap_shape in Hrun.
  destruct Hrun as [e Hskip Hbad|t r Hskip Hp|t r Hskip Hok Hp].
  - split_and!.
    + intros [|i] c Hi [Hm _]; [|done]. injection Hi as <-. done.
    + intros [|i] c Hi [Hm _]; [|done]. injection Hi as <-. done.
    + intros _ _. split_and!; [done..|].
      intros c ->%list_elem_of_singleton [Hm _]. done.
  - destruct (provisioned_order srv args [] t r Hp) as [Ha Hb].
    { intros c []%elem_of_nil. }
    split_and!; [apply Ha|apply Hb|]. intros. congruence.
  - destruct (provisioned_order srv args [health_call base] t r Hp) as [Ha Hb].
    { by intros c ->%list_elem_of_singleton. }
    split_and!; [apply Ha|apply Hb|]. intros. done.
Qed.

End Bootstrap.

(** ** The request helper *)

Section RequestJson.
Context `{PyBuiltins}.

Lemma decode_non_object raw v :
  raw ≠ "" → json_loads raw = Some v → as_dict v = None →
  decode_reply (ReplyBody raw) = Raise (RuntimeError "Expected JSON object response").
Proof.
  intros Hne%String.eqb_neq Hv Hd. unfold decode_reply. rewrite Hne, Hv.
  by destruct v.
Qed.

(** C10. [_request_json] gives the empty object for an empty body, and
    raises [RuntimeError] on a non-empty body that parses to anything but
    an object; so a health endpoint that answers with such a body makes
    the workflow fail with that error after the one call. *)
Theorem request_json_accepts_objects_only
    (srv : server) (method url : string) (headers : list (string * string))
    (payload : option pyval) (t : list http_call) (args : bootstrap_args)
    (raw : string) (v : pyval) :
  let c := mkCall method url headers payload in
  let base := rstrip_slash (ba_base_url args) in
  raw ≠ "" → json_loads raw = Some v → as_dict v = None →
  (srv t c = ReplyBody "" →
     _request_json srv method url headers payload t = (t ++ [c], Ok []))
  ∧ (srv t c = ReplyBody raw →
     _request_json srv method url headers payload t
     = (t ++ [c], Raise (RuntimeError "Expected JSON object response")))
  ∧ (ba_skip_health_check args = false →
     srv [] (health_call base) = ReplyBody raw →
     run_io (bootstrap_main srv args)
     = ([health_call base], Raise (RuntimeError "Expected JSON object response"))).
Proof.
  intros c base Hne Hv Hd. split_and!.
  - intros Hr. rewrite request_json_run. fold c. by rewrite Hr.
  - intros Hr. rewrite request_json_run. fold c. rewrite Hr.
    by rewrite (decode_non_object raw v).
  - intros Hskip Hr.
    unfold run_io, bootstrap_main, check_health. rewrite Hskip.
    unfold request, mbind, io_bind. rewrite request_json_run. fold base.
    change (mkCall _ _ _ _) with (health_call base). rewrite Hr.
    by rewrite (decode_non_object raw v).
Qed.

End RequestJson.

Lemma request_json_accepts_objects_only_witness :
  let srv := scripted_server "[1, 2]" "" "" "" in
  @_request_json sample_builtins srv "GET" "http://h/health" [] None []
    = ([mkCall "GET" "http://h/health" [] None],
       Raise (RuntimeError "Expected JSON object response"))
  ∧ run_io (@bootstrap_main sample_builtins srv sample_bootstrap_args)
    = ([health_call "http://h"], Raise (RuntimeError "Expected JSON object response")).
Proof.
  intros srv.
  destruct (@request_json_accepts_objects_only sample_builtins srv "GET" "http://h/health"
              [] None [] sample_bootstrap_args "[1, 2]" (PList [PInt 1; PInt 2]))
    as (_ & Hreq & Hmain).
  - discriminate.
  - reflexivity.
  - reflexivity.
  - split.
    + apply Hreq. reflexivity.
    + apply Hmain; reflexivity.
Defined.

(** ** The traffic generator *)

Section Traffic.
Context `{PyBuiltins}.

Lemma post_run srv url payload t :
  post srv (json_call url payload) t
  = (t ++ [json_call url payload],
     decode_http_json "POST" url (srv t (json_call url payload))).
Proof.
  unfold post, _http_json, urlopen, mbind, io_bind, mret, io_ret, io_raise. simpl.
  by destruct (decode_http_json _ _ _).
Qed.

Lemma bind_post {A} srv url payload (k : pyval → io A) t :
  (post srv (json_call url payload) ≫= k) t
  = match decode_http_json "POST" url (srv t (json_call url payload)) with
    | Ok v => k v (t ++ [json_call url payload])
    | Raise e => (t ++ [json_call url payload], Raise e)
    end.
Proof. unfold mbind, io_bind. by rewrite post_run. Qed.

(** One iteration, by what the service answers. *)
Lemma traffic_step_run srv args base aid i t :
  let rc := t_runs_call base (py_str aid) in
  traffic_step srv args base aid i t
  = match decode_http_json "POST" (call_url rc) (srv t rc) with
    | Raise e => (t ++ [rc], Raise e)
    | Ok run =>
        let run_id := get_if_dict run "run_id" in
        let qc := t_responses_call args base (py_str aid) (py_str run_id) i in
        if negb (truthy run_id)
        then (t ++ [rc],
              Raise (RuntimeError ("Unexpected /v1/agents/{agent_id}/runs response: "
                                   +:+ py_str run)))
        else match decode_http_json "POST" (call_url qc) (srv (t ++ [rc]) qc) with
             | Ok _ =>
                 (t ++ [rc; qc],
                  if SFltb (S754_zero false) (ta_sleep_seconds args)
                  then time_sleep (ta_sleep_seconds args) else Ok ())
             | Raise e => (t ++ [rc; qc], Raise e)
             end
    end.
Proof.
  cbv zeta. unfold traffic_step, t_runs_call, t_responses_call.
  rewrite bind_post. cbn [call_url json_call].
  destruct (decode_http_json _ _ _) as [run|e]; [|done]. simpl.
  destruct (truthy (get_if_dict run "run_id")); simpl; [|done].
  rewrite bind_post, <- app_assoc. simpl.
  by destruct (decode_http_json _ _ _).
Qed.

Lemma traffic_step_calls srv args base aid i t t' r :
  traffic_step srv args base aid i t = (t', r) →
  ∃ l, t' = t ++ l ∧ Forall (is_loop_call args base (py_str aid)) l
       ∧ (r = Ok () → ∃ run_id, l = request_pair args base (py_str aid) (i, run_id)).
Proof.
  rewrite traffic_step_run. cbv zeta.
  set (rc := t_runs_call base (py_str aid)).
  assert (Hrc : is_loop_call args base (py_str aid) rc) by (by left).
  destruct (decode_http_json _ _ _) as [run|e].
  2:{ intros [= <- <-]. exists [rc]. split_and!; [done|repeat (constructor; [assumption|]); constructor|done]. }
  destruct (truthy (get_if_dict run "run_id")); simpl.
  2:{ intros [= <- <-]. exists [rc]. split_and!; [done|repeat (constructor; [assumption|]); constructor|done]. }
  set (qc := t_responses_call args base (py_str aid) (py_str (get_if_dict run "run_id")) i).
  assert (Hqc : is_loop_call args base (py_str aid) qc) by (right; by eexists _, _).
  destruct (decode_http_json _ _ _) as [v|e]; intros [= <- <-];
    (exists [rc; qc]; split_and!; [done|repeat (constructor; [assumption|]); constructor|]).
  - intros _. by exists (get_if_dict run "run_id").
  - done.
Qed.



Lemma traffic_loop_calls srv args base aid idxs : ∀ t t' r,
  traffic_loop srv args base aid idxs t = (t', r) →
  ∃ l, t' = t ++ l ∧ Forall (is_loop_call args base (py_str aid)) l
       ∧ (r = Ok () → ∃ run_ids, length run_ids = length idxs
            ∧ l = flat_map (request_pair args base (py_str aid)) (zip idxs run_ids)).
Proof.
  induction idxs as [|i idxs IH]; intros t t' r; cbn [traffic_loop].
  - intros [= <- <-]. exists []. rewrite app_nil_r. split_and!; [done..|].
    intros _. by exists [].
  - unfold mbind at 1, io_bind at 1.
    destruct (traffic_step srv args base aid i t) as [t1 [[]|e]] eqn:Hstep.
    + destruct (traffic_step_calls _ _ _ _ _ _ _ _ Hstep) as (l1 & -> & Hl1 & Hok1).
      intros Hloop. destruct (IH _ _ _ Hloop) as (l2 & -> & Hl2 & Hok2).
      exists (l1 ++ l2). rewrite app_assoc. split; [done|].
      split; [by apply Forall_app|].
      intros Hr. destruct (Hok1 eq_refl) as [rid ->].
      destruct (Hok2 Hr) as (rids & Hlen & ->).
      exists (rid :: rids). simpl. split; [by rewrite Hlen|done].
    + destruct (traffic_step_calls _ _ _ _ _ _ _ _ Hstep) as (l1 & -> & Hl1 & _).
      intros [= <- <-]. exists l1. split_and!; done.
Qed.


Lemma last_char_app_nonempty (a b : string) :
  b ≠ "" → last_char (a +:+ b) = last_char b.
Proof.
  intros Hb. destruct b as [|c b]; [done|]. apply last_char_app.
Qed.

Lemma responses_url_not_budget base aid rid id :
  responses_url base aid rid ≠ budget_url base id.
Proof.
  unfold responses_url, budget_url. intros Heq%(inj (String.app base)).
  apply (inj (String.app "/v1/agents/")) in Heq.
  apply (f_equal last_char) in Heq.
  rewrite (last_char_app id) in Heq.
  rewrite (last_char_app_nonempty aid) in Heq by done.
  rewrite (last_char_app_nonempty "/runs/") in Heq by (by destruct rid).
  rewrite (last_char_app rid) in Heq. discriminate.
Qed.


Lemma loop_call_not_budget args base aid c :
  is_loop_call args base aid c → ¬ is_budget_call base c.
Proof.
  intros [->|(rid & i & ->)] [_ [id Hurl]]; simpl in Hurl.
  - symmetry in Hurl. by apply budget_url_not_runs in Hurl.
  - by apply responses_url_not_budget in Hurl.
Qed.

(** The runs of [main], by how far they got. *)
Lemma traffic_main_shape srv args t r :
  let base := rstrip_slash (ta_base_url args) in
  let ac := t_agents_call base (ta_agent_name args) in
  let bc aid := t_budget_call base (py_str aid)
                  (ta_hard_limit_cents args) (ta_topup_cents args) in
  run_io (traffic_main srv args) = (t, r) →
  (∃ e, check_args args = Raise e ∧ t = [] ∧ r = Raise e)
  ∨ (check_args args = Ok ()
     ∧ ((t = [ac] ∧ is_ok r = false)
        ∨ ∃ aid l, t = [ac; bc aid] ++ l
            ∧ Forall (is_loop_call args base (py_str aid)) l
            ∧ (is_ok r = true → r = Ok aid
                 ∧ ∃ run_ids, length run_ids = Z.to_nat (ta_n args)
                     ∧ t = traffic_trace args aid run_ids))).
Proof.
  intros base ac bc. unfold run_io, traffic_main. fold base.
  destruct (check_args args) as [[]|e] eqn:Hcheck.
  2:{ intros [= <- <-]. left. by exists e. }
  intros Hrun. right. split; [done|]. revert Hrun.
  unfold t_agents_call. rewrite bind_post.
  fold (t_agents_call base (ta_agent_name args)). fold ac. simpl.
  destruct (decode_http_json _ _ _) as [agent|e].
  2:{ intros [= <- <-]. by left. }
  destruct (truthy (get_if_dict agent "agent_id")); simpl.
  2:{ intros [= <- <-]. by left. }
  set (aid := get_if_dict agent "agent_id").
  unfold t_budget_call. rewrite bind_post.
  fold (t_budget_call base (py_str aid) (ta_hard_limit_cents args) (ta_topup_cents args)).
  fold (bc aid). simpl.
  destruct (decode_http_json _ _ _) as [budget|e].
  2:{ intros [= <- <-]. right. exists aid, []. split_and!; [done|constructor|done]. }
  unfold mbind, io_bind.
  destruct (traffic_loop srv args base aid (range (ta_n args)) [ac; bc aid])
    as [t' [[]|e]] eqn:Hloop;
    destruct (traffic_loop_calls _ _ _ _ _ _ _ _ Hloop) as (l & -> & Hl & Hok);
    intros [= <- <-]; right; exists aid, l; (split_and!; [done|done|]).
  - intros _. split; [done|]. destruct (Hok eq_refl) as (rids & Hlen & ->).
    exists rids. split; [|done]. rewrite Hlen. unfold range. by rewrite length_seq.
  - done.
Qed.
















End Traffic.






(** A delay [time.sleep] does not take ends the run after the first
    request, and an agent reply that is no object is named in the error as
    [str()] prints it. *)
Example traffic_sleep_overflow :
  let args := mkTrafficArgs "http://h" "gpt-5.2-pro" 3 128 (S754_infinity false)
                500 500 "traffic-test" None in
  let run := run_io (@traffic_main sample_builtins interface_server args) in
  run.2 = Raise OverflowError ∧ length run.1 = 4%nat.
Proof. split; vm_compute; reflexivity. Qed.

Example sample_repr_of_replies :
  sample_repr (PDict [("agent_id", PStr "a1"); ("run_id", PNone)])
  = "{'agent_id': 'a1', 'run_id': None}"
  ∧ sample_repr (PList [PInt 1; PBool true; PStr "it's"])
    = "[1, True, " +:+ dq +:+ "it's" +:+ dq +:+ "]".
Proof. split; vm_compute; reflexivity. Qed.


(** ** Budget validation *)

Section BudgetValidation.
Context `{PyBuiltins}.

Lemma parse_positive_int_ok value z :
  _parse_positive_int value = Ok z → 0 < z.
Proof.
  unfold _parse_positive_int. destruct (int_of_str value) as [parsed|]; [|done].
  destruct (Z.leb_spec parsed 0); [done|]. by intros [= <-].
Qed.

Lemma parse_positive_int_nonpositive value z :
  int_of_str value = Some z → z ≤ 0 →
  _parse_positive_int value = Raise (ArgumentTypeError "must be > 0").
Proof.
  unfold _parse_positive_int. intros -> Hz.
  by rewrite (proj2 (Z.leb_le z 0)).
Qed.

Lemma argparse_type_ok name value z :
  argparse_type name _parse_positive_int value = Ok z ↔ _parse_positive_int value = Ok z.
Proof.
  unfold argparse_type. destruct (_parse_positive_int value) as [z'|e]; [done|].
  by destruct e.
Qed.

Lemma argparse_type_nonpositive name value z :
  int_of_str value = Some z → z ≤ 0 →
  argparse_type name _parse_positive_int value
  = Raise (ArgparseError ("argument " +:+ name +:+ ": must be > 0")).
Proof.
  intros Hz Hle. unfold argparse_type.
  by rewrite (parse_positive_int_nonpositive value z).
Qed.

Lemma parse_args_positive argv args :
  parse_args argv = Ok args →
  0 < ba_limit args ∧ 0 < effective_topup args
  ∧ (av_topup argv = None → effective_topup args = ba_limit args).
Proof.
  unfold parse_args, effective_topup.
  destruct (av_limit argv) as [l|]; [|done].
  destruct (argparse_type "--limit" _parse_positive_int l) as [limit|] eqn:Hl; [|done].
  simpl. apply argparse_type_ok, parse_positive_int_ok in Hl.
  destruct (av_topup argv) as [s|]; simpl.
  - destruct (argparse_type "--topup" _parse_positive_int s) as [topup|] eqn:Hs; [|done].
    simpl. apply argparse_type_ok, parse_positive_int_ok in Hs. intros [= <-]. simpl. done.
  - intros [= <-]. simpl. done.
Qed.

Lemma provisioned_calls srv args pre t r c :
  let base := rstrip_slash (ba_base_url args) in
  let headers := _headers (ba_api_key args) in
  provisioned srv args pre t r → c ∈ t →
  c ∈ pre ∨ c = agents_call base headers (ba_name args)
  ∨ (∃ id, c = budget_call base headers id (ba_limit args) (effective_topup args))
  ∨ (∃ id, c = runs_call base headers id).
Proof.
  intros base headers Hshape Hc.
  destruct Hshape; apply elem_of_app in Hc as [Hc|Hc]; try (by left);
    repeat (apply elem_of_cons in Hc as [->|Hc]); try (by apply elem_of_nil in Hc);
    eauto 6.
Qed.

Lemma bootstrap_budget_payload srv args c :
  let base := rstrip_slash (ba_base_url args) in
  c ∈ (run_io (bootstrap_main srv args)).1 → is_budget_call base c →
  call_payload c = Some (budget_payload (ba_limit args) (effective_topup args)).
Proof.
  intros base Hc Hb.
  destruct (run_io (bootstrap_main srv args)) as [t r] eqn:Hrun. simpl in Hc.
  apply bootstrap_shape in Hrun.
  assert (Hcases : c = health_call base
            ∨ c = agents_call base (_headers (ba_api_key args)) (ba_name args)
            ∨ (∃ id, c = budget_call base (_headers (ba_api_key args)) id
                           (ba_limit args) (effective_topup args))
            ∨ (∃ id, c = runs_call base (_headers (ba_api_key args)) id)).
  { destruct Hrun as [e Hskip Hbad|t r Hskip Hp|t r Hskip Hok Hp].
    - apply list_elem_of_singleton in Hc. by left.
    - destruct (provisioned_calls _ _ _ _ _ _ Hp Hc) as [[]%elem_of_nil|?]. by right.
    - destruct (provisioned_calls _ _ _ _ _ _ Hp Hc) as [->%list_elem_of_singleton|?];
        [by left|by right]. }
  destruct Hcases as [->|[->|[[id ->]|[id ->]]]].
  - by destruct Hb as [? _].
  - by eapply agents_call_not_budget in Hb.
  - done.
  - by eapply runs_call_not_budget in Hb.
Qed.

Lemma traffic_budget_payload srv args c :
  let base := rstrip_slash (ta_base_url args) in
  c ∈ (run_io (traffic_main srv args)).1 → is_budget_call base c →
  call_payload c
  = Some (budget_payload (ta_hard_limit_cents args) (ta_topup_cents args))
  ∧ check_args args = Ok ().
Proof.
  intros base Hc Hb.
  destruct (run_io (traffic_main srv args)) as [t r] eqn:Hrun. simpl in Hc.
  destruct (traffic_main_shape srv args t r Hrun)
    as [(e & _ & -> & _)|(Hcheck & [[-> _]|(aid & l & -> & Hl & _)])].
  - by apply elem_of_nil in Hc.
  - apply list_elem_of_singleton in Hc as ->.
    destruct Hb as [_ [id Hurl]]. by apply agents_url_not_budget in Hurl.
  - apply elem_of_app in Hc as [Hc|Hc].
    + repeat (apply elem_of_cons in Hc as [->|Hc]); [| |by apply elem_of_nil in Hc].
      * destruct Hb as [_ [id Hurl]]. by apply agents_url_not_budget in Hurl.
      * done.
    + eapply Forall_forall in Hl; [|done]. by apply loop_call_not_budget in Hl.
Qed.

Lemma check_args_bounds args :
  check_args args = Ok () →
  0 < ta_n args ∧ 0 < ta_max_output_tokens args
  ∧ 0 < ta_hard_limit_cents args ∧ 0 ≤ ta_topup_cents args.
Proof.
  unfold check_args.
  destruct (Z.leb_spec (ta_n args) 0); [done|].
  destruct (Z.leb_spec (ta_max_output_tokens args) 0); [done|].
  destruct (Z.leb_spec (ta_hard_limit_cents args) 0); [done|].
  destruct (Z.ltb_spec (ta_topup_cents args) 0); [done|]. done.
Qed.

(** C9. In the bootstrap script the hard limit and the top-up are both
    strictly positive in every budget call, the top-up being the hard
    limit when [--topup] is absent, and a hard limit or top-up that is not
    positive ends the script before any request, through [argparse]'s
    error exit naming the option. In the traffic generator
    every budget call carries a strictly positive hard limit and a top-up
    that is not negative, and a hard limit that is not positive ends the
    script before any request. *)
Theorem budget_amounts_validated_before_call
    (srv : server) (argv : bootstrap_argv) (targs : traffic_args) :
  (∀ args, parse_args argv = Ok args →
     0 < ba_limit args ∧ 0 < effective_topup args
     ∧ (av_topup argv = None → effective_topup args = ba_limit args)
     ∧ ∀ c, c ∈ (bootstrap srv argv).1 →
         is_budget_call (rstrip_slash (ba_base_url args)) c →
         call_payload c = Some (budget_payload (ba_limit args) (effective_topup args)))
  ∧ (∀ l z, av_limit argv = Some l → int_of_str l = Some z → z ≤ 0 →
       bootstrap srv argv
       = ([], Raise (ArgparseError "argument --limit: must be > 0")))
  ∧ (∀ l limit s z, av_limit argv = Some l → _parse_positive_int l = Ok limit →
       av_topup argv = Some s → int_of_str s = Some z → z ≤ 0 →
       bootstrap srv argv
       = ([], Raise (ArgparseError "argument --topup: must be > 0")))
  ∧ (∀ c, c ∈ (run_io (traffic_main srv targs)).1 →
       is_budget_call (rstrip_slash (ta_base_url targs)) c →
       call_payload c
       = Some (budget_payload (ta_hard_limit_cents targs) (ta_topup_cents targs))
       ∧ 0 < ta_hard_limit_cents targs ∧ 0 ≤ ta_topup_cents targs)
  ∧ (ta_hard_limit_cents targs ≤ 0 →
       (run_io (traffic_main srv targs)).1 = []
       ∧ is_ok (run_io (traffic_main srv targs)).2 = false).
Proof.
  split_and!.
  - intros args Hparse.
    destruct (parse_args_positive argv args Hparse) as (Hl & Ht & Hdef).
    split_and!; [done..|]. intros c Hc Hb.
    unfold bootstrap in Hc. rewrite Hparse in Hc.
    by apply (bootstrap_budget_payload srv args c).
  - intros l z Hl Hz Hle. unfold bootstrap, parse_args. rewrite Hl.
    by rewrite (argparse_type_nonpositive "--limit" l z).
  - intros l limit s z Hl Hlimit Hs Hz Hle. unfold bootstrap, parse_args.
    rewrite Hl, (proj2 (argparse_type_ok "--limit" l limit) Hlimit), Hs. simpl.
    by rewrite (argparse_type_nonpositive "--topup" s z).
  - intros c Hc Hb.
    destruct (traffic_budget_payload srv targs c Hc Hb) as [Hp Hcheck].
    apply check_args_bounds in Hcheck. destruct Hcheck as (_ & _ & ? & ?). done.
  - intros Hle.
    destruct (run_io (traffic_main srv targs)) as [t r] eqn:Hrun. simpl.
    destruct (traffic_main_shape srv targs t r Hrun)
      as [(e & _ & -> & ->)|(Hcheck & _)]; [done|].
    apply check_args_bounds in Hcheck. lia.
Qed.

End BudgetValidation.

(** The claim that the top-up is validated to be strictly positive before
    the budget call fails for the traffic generator: it accepts a top-up
    of 0 and sends it. *)
Lemma budget_topup_zero_sent :
  ¬ (∀ (srv : server) (args : traffic_args) c limit topup,
       c ∈ (run_io (@traffic_main sample_builtins srv args)).1 →
       call_payload c = Some (budget_payload limit topup) →
       0 < limit ∧ 0 < topup).
Proof.
  intros Hall.
  destruct (Hall (constant_server both_ids) (sample_traffic_args 1 0)
              (t_budget_call "http://h" "a1" 500 0) 500 0) as [_ Hpos].
  - vm_compute. right. left.
  - reflexivity.
  - lia.
Qed.

(** ** Shifting with a sticky bit *)

Lemma iter_pos_nat {A} (f : A → A) (p : positive) (x : A) :
  SpecFloat.iter_pos f p x = Nat.iter (Pos.to_nat p) f x.
Proof.
  revert x. induction p as [p IH|p IH|]; intros x; cbn [SpecFloat.iter_pos].
  - rewrite !IH, Pos2Nat.inj_xI.
    replace (S (2 * Pos.to_nat p)) with (Pos.to_nat p + S (Pos.to_nat p))%nat by lia.
    rewrite Nat.iter_add. f_equal. by rewrite Nat.iter_succ_r.
  - rewrite !IH, Pos2Nat.inj_xO.
    replace (2 * Pos.to_nat p)%nat with (Pos.to_nat p + Pos.to_nat p)%nat by lia.
    by rewrite Nat.iter_add.
  - done.
Qed.

Lemma shr_1_rec_of (N D : Z) :
  0 ≤ N → 0 < D → shr_1 (rec_of N D) = rec_of N (2 * D).
Proof.
  intros HN HD. unfold rec_of, shr_1.
  assert (Hq : 0 ≤ N / D) by (apply Z.div_pos; lia).
  pose proof (Z.mod_pos_bound N D HD) as Hr.
  assert (Hdiv : N / (2 * D) = N / D / 2).
  { rewrite (Z.mul_comm 2 D). symmetry. apply Z.div_div; lia. }
  assert (Hmod : N mod (2 * D) = N mod D + D * ((N / D) mod 2)).
  { rewrite (Z.mul_comm 2 D). apply Z.rem_mul_r; lia. }
  rewrite Hdiv, Hmod.
  set (q := N / D) in *. set (r := N mod D) in *.
  assert (Hq2 : q = 2 * (q / 2) + q mod 2) by (apply Z.div_mod; lia).
  pose proof (Z.mod_pos_bound q 2 ltac:(lia)) as Hqm.
  assert (Hcase : (q = 0 ∧ q / 2 = 0 ∧ q mod 2 = 0)
                ∨ (∃ p, q = Zpos p~0 ∧ q / 2 = Zpos p ∧ q mod 2 = 0)
                ∨ (q = 1 ∧ q / 2 = 0 ∧ q mod 2 = 1)
                ∨ (∃ p, q = Zpos p~1 ∧ q / 2 = Zpos p ∧ q mod 2 = 1)).
  { destruct q as [|[p|p|]|p]; [by left| | | |lia].
    - right; right; right. exists p. rewrite Pos2Z.inj_xI in *. split; [done|lia].
    - right; left. exists p. rewrite Pos2Z.inj_xO in *. split; [done|lia].
    - right; right; left. lia. }
  destruct Hcase as [(-> & -> & ->)|[(p & -> & -> & ->)|[(-> & -> & ->)|(p & -> & -> & ->)]]];
    f_equal;
    repeat match goal with
           | |- context [?a <=? ?b] => destruct (Z.leb_spec a b)
           | |- context [?a =? ?b] => destruct (Z.eqb_spec a b)
           end; simpl; try done; lia.
Qed.

Lemma iter_shr_1 (n : nat) (N D : Z) :
  0 ≤ N → 0 < D → Nat.iter n shr_1 (rec_of N D) = rec_of N (D * 2 ^ Z.of_nat n).
Proof.
  intros HN HD. induction n as [|n IH].
  - simpl. by rewrite Z.mul_1_r.
  - rewrite Nat.iter_succ_r, shr_1_rec_of by done.
    replace (D * 2 ^ Z.of_nat (S n)) with (2 * D * 2 ^ Z.of_nat n)
      by (rewrite Nat2Z.inj_succ, Z.pow_succ_r by lia; lia).
    clear IH. revert D HD. induction n as [|n IH]; intros D HD.
    + simpl. by rewrite Z.mul_1_r.
    + rewrite Nat.iter_succ_r, shr_1_rec_of by lia. rewrite IH by lia.
      f_equal. rewrite Nat2Z.inj_succ, Z.pow_succ_r by lia. lia.
Qed.

Lemma shr_rec_of (N D e n : Z) :
  0 ≤ N → 0 < D → 0 ≤ n →
  shr (rec_of N D) e n = (rec_of N (D * 2 ^ n), e + n).
Proof.
  intros HN HD Hn. unfold shr. destruct n as [|p|p]; [| |lia].
  - by rewrite Z.mul_1_r, Z.add_0_r.
  - rewrite iter_pos_nat, iter_shr_1 by done. by rewrite positive_nat_Z.
Qed.

Lemma loc_rec_of (N D : Z) :
  shr_record_of_loc (N / D) (loc_of_shr_record (rec_of N D)) = rec_of N D.
Proof.
  unfold rec_of, loc_of_shr_record, shr_record_of_loc.
  by destruct (D <=? 2 * (N mod D)), (negb (N mod D =? 0) && negb (2 * (N mod D) =? D)).
Qed.

Lemma rne_rec_of (N D : Z) :
  0 ≤ N → 0 < D →
  round_nearest_even (shr_m (rec_of N D)) (loc_of_shr_record (rec_of N D)) = rne_div N D.
Proof.
  intros HN HD. pose proof (Z.mod_pos_bound N D HD) as Hr.
  unfold rec_of, loc_of_shr_record, round_nearest_even, rne_div. simpl.
  destruct (Z.leb_spec D (2 * (N mod D))), (Z.eqb_spec (N mod D) 0),
    (Z.eqb_spec (2 * (N mod D)) D); simpl;
    destruct (Z.compare_spec (2 * (N mod D)) D); try lia; done.
Qed.

(** ** Bit lengths *)

Lemma digits2_size (p : positive) : digits2_pos p = Pos.size p.
Proof. induction p; simpl; by rewrite ?IHp. Qed.

Lemma Zdigits2_bounds (q : Z) :
  0 < q → 2 ^ (Zdigits2 q - 1) ≤ q < 2 ^ Zdigits2 q.
Proof.
  destruct q as [|p|p]; try lia. intros _.
  change (Zdigits2 (Z.pos p)) with (Z.pos (digits2_pos p)). rewrite digits2_size.
  pose proof (Pos.size_gt p) as Hgt. pose proof (Pos.size_le p) as Hle.
  apply Pos2Z.pos_lt_pos in Hgt. apply Pos2Z.pos_le_pos in Hle.
  rewrite Pos2Z.inj_pow in Hgt, Hle. change (Z.pos p~0) with (2 * Z.pos p) in Hle.
  split; [|done].
  replace (Z.pos (Pos.size p)) with (Z.succ (Z.pos (Pos.size p) - 1)) in Hle by lia.
  rewrite Z.pow_succ_r in Hle by lia. lia.
Qed.

Lemma Zdigits2_unique (q d : Z) :
  2 ^ (d - 1) ≤ q < 2 ^ d → 0 < q → Zdigits2 q = d.
Proof.
  intros [Hlo Hhi] Hq. pose proof (Zdigits2_bounds q Hq) as [Hlo' Hhi'].
  assert (Hd : 0 < Zdigits2 q) by (destruct q; simpl; lia).
  assert (0 ≤ d).
  { destruct (Z.le_gt_cases 0 d); [done|]. rewrite Z.pow_neg_r in Hhi by lia. lia. }
  destruct (Z.lt_trichotomy (Zdigits2 q) d) as [Hlt|[->|Hgt]]; [|done|].
  - assert (2 ^ Zdigits2 q ≤ 2 ^ (d - 1)) by (apply Z.pow_le_mono_r; lia). lia.
  - assert (2 ^ d ≤ 2 ^ (Zdigits2 q - 1)) by (apply Z.pow_le_mono_r; lia). lia.
Qed.

Lemma rne_div_bounds (N D : Z) :
  0 ≤ N → 0 < D →
  N / D ≤ rne_div N D ≤ N / D + 1 ∧ 2 * Z.abs (rne_div N D * D - N) ≤ D.
Proof.
  intros HN HD. pose proof (Z.mod_pos_bound N D HD) as Hr.
  pose proof (Z.div_mod N D ltac:(lia)) as Hdm.
  unfold rne_div.
  destruct (Z.compare_spec (2 * (N mod D)) D); [destruct (Z.even (N / D))| |]; nia.
Qed.

(** ** Rounding a quotient whose integer part has at least 53 bits *)

Lemma fexp_normal (x : Z) : -1074 ≤ x - 53 → fexp prec emax x = x - 53.
Proof. unfold fexp, emin, prec, emax. lia. Qed.

Lemma shifted_quotient_bounds (N D : Z) :
  0 ≤ N → 0 < D → 2 ^ 52 ≤ N / D →
  let p := Zdigits2 (N / D) - 53 in
  0 ≤ p ∧ 2 ^ 52 ≤ N / (D * 2 ^ p) < 2 ^ 53.
Proof.
  intros HN HD Hq p.
  assert (Hq0 : 0 < N / D) by lia.
  pose proof (Zdigits2_bounds (N / D) Hq0) as [Hlo Hhi].
  assert (Hp : 0 ≤ p).
  { unfold p. destruct (Z.le_gt_cases 53 (Zdigits2 (N / D))); [lia|].
    assert (2 ^ Zdigits2 (N / D) ≤ 2 ^ 52) by (apply Z.pow_le_mono_r; lia). lia. }
  split; [done|].
  assert (Hpp : 0 < 2 ^ p) by (apply Z.pow_pos_nonneg; lia).
  rewrite <- Z.div_div by lia.
  replace (Zdigits2 (N / D) - 1) with (52 + p) in Hlo by (unfold p; lia).
  replace (Zdigits2 (N / D)) with (53 + p) in Hhi by (unfold p; lia).
  rewrite Z.pow_add_r in Hlo, Hhi by lia.
  split.
  - apply Z.div_le_lower_bound; lia.
  - apply Z.div_lt_upper_bound; lia.
Qed.

Lemma binary_round_aux_normal (sx : bool) (N D e : Z) :
  0 ≤ N → 0 < D → 2 ^ 52 ≤ N / D →
  -1074 ≤ e + (Zdigits2 (N / D) - 53) →
  e + (Zdigits2 (N / D) - 53) + 1 ≤ 971 →
  binary_round_aux prec emax sx (N / D) e (loc_of_shr_record (rec_of N D))
  = S754_finite sx (Z.to_pos (rounded_mantissa N D)) (rounded_exponent N D e).
Proof.
  intros HN HD Hq Hlo Hhi.
  destruct (shifted_quotient_bounds N D HN HD Hq) as [Hp Hm1].
  unfold rounded_mantissa, rounded_exponent.
  change (Zdigits2 (N / D) - prec) with (Zdigits2 (N / D) - 53).
  change (2 ^ prec) with (2 ^ 53). change (2 ^ (prec - 1)) with (2 ^ 52).
  set (p := Zdigits2 (N / D) - 53) in *.
  assert (Hpp : 0 < 2 ^ p) by (apply Z.pow_pos_nonneg; lia).
  assert (HD' : 0 < D * 2 ^ p) by lia.
  destruct (rne_div_bounds N (D * 2 ^ p) HN HD') as [Hm2 _].
  unfold binary_round_aux.
  (* first shift *)
  assert (Hshift1 : shr_fexp prec emax (N / D) e (loc_of_shr_record (rec_of N D))
                    = (rec_of N (D * 2 ^ p), e + p)).
  { unfold shr_fexp. rewrite loc_rec_of.
    rewrite fexp_normal by (fold p; lia).
    replace (Zdigits2 (N / D) + e - 53 - e) with p by (unfold p; lia).
    by apply shr_rec_of. }
  rewrite Hshift1. rewrite rne_rec_of by lia.
  set (m2 := rne_div N (D * 2 ^ p)) in *.
  change (shr_m (rec_of N (D * 2 ^ p))) with (N / (D * 2 ^ p)) in *.
  (* second shift *)
  destruct (Z.eqb_spec m2 (2 ^ 53)) as [Hcarry|Hnocarry].
  - rewrite Hcarry.
    assert (Hshift2 : shr_fexp prec emax (2 ^ 53) (e + p) loc_Exact
                      = (Build_shr_record (2 ^ 52) false false, e + p + 1)).
    { unfold shr_fexp. change (Zdigits2 (2 ^ 53)) with 54.
      rewrite fexp_normal by lia.
      replace (54 + (e + p) - 53 - (e + p)) with 1 by lia. done. }
    rewrite Hshift2. cbn [shr_m]. change (2 ^ 52) with (Z.pos (2 ^ 52)).
    rewrite (proj2 (Z.leb_le _ _)) by (unfold emax, prec; lia). done.
  - assert (Hd2 : Zdigits2 m2 = 53) by (apply Zdigits2_unique; lia).
    assert (Hshift2 : shr_fexp prec emax m2 (e + p) loc_Exact
                      = (Build_shr_record m2 false false, e + p)).
    { unfold shr_fexp. rewrite Hd2. rewrite fexp_normal by lia.
      replace (53 + (e + p) - 53 - (e + p)) with 0 by lia. done. }
    rewrite Hshift2. cbn [shr_m].
    destruct m2 as [|m|m] eqn:Hm2eq; [lia| |lia].
    rewrite (proj2 (Z.leb_le _ _)) by (unfold emax, prec; lia). done.
Qed.

(** ** Values of floats as rationals *)

Lemma pow2_pos (e : Z) : (0 < 2 ^ e)%Q.
Proof. by apply Qpower_0_lt. Qed.

Lemma pow2_add (a b : Z) : (2 ^ (a + b) == 2 ^ a * 2 ^ b)%Q.
Proof. by apply Qpower_plus. Qed.

Lemma pow2_inject (p : Z) : 0 ≤ p → (inject_Z (2 ^ p) == 2 ^ p)%Q.
Proof. intros Hp. by rewrite Zpower_Qpower. Qed.

Lemma SF2Q_pow (s : bool) (m : positive) (e : Z) :
  (SF2Q (S754_finite s m e) == inject_Z (cond_Zopp s (Zpos m)) * 2 ^ e)%Q.
Proof.
  unfold SF2Q. set (M := cond_Zopp s (Z.pos m)). destruct e as [|p|p].
  - rewrite Z.mul_1_r. simpl. ring.
  - rewrite inject_Z_mult. by rewrite pow2_inject.
  - rewrite Qmake_Qdiv. rewrite Pos2Z.inj_pow. rewrite pow2_inject by lia.
    change (Z.neg p) with (- Z.pos p). rewrite Qpower_opp. reflexivity.
Qed.

Lemma Qscale_bounds (A r P u : Q) :
  (0 < P → r * (1 - u) <= A <= r * (1 + u) →
   r * P * (1 - u) <= A * P <= r * P * (1 + u))%Q.
Proof. intros HP [H1 H2]. split; nra. Qed.

Lemma Qratio_bounds (A N D : Z) :
  0 < D → 2 ^ 53 * Z.abs (A * D - N) ≤ N →
  (inject_Z N / inject_Z D * (1 - half_ulp) <= inject_Z A
   <= inject_Z N / inject_Z D * (1 + half_ulp))%Q.
Proof.
  intros HD Herr.
  assert (Hd : (inject_Z 0 < inject_Z D)%Q) by (rewrite <- Zlt_Qlt; done).
  change (inject_Z 0) with 0%Q in Hd.
  assert (H1 : (inject_Z (2 ^ 53) * (inject_Z A * inject_Z D - inject_Z N) <= inject_Z N)%Q).
  { unfold Qminus.
    rewrite <- inject_Z_mult, <- inject_Z_opp, <- inject_Z_plus, <- inject_Z_mult.
    rewrite <- Zle_Qle. lia. }
  assert (H2 : (- inject_Z N <= inject_Z (2 ^ 53) * (inject_Z A * inject_Z D - inject_Z N))%Q).
  { unfold Qminus.
    rewrite <- inject_Z_mult, <- !inject_Z_opp, <- inject_Z_plus, <- inject_Z_mult.
    rewrite <- Zle_Qle. lia. }
  set (n := inject_Z N) in *. set (d := inject_Z D) in *. set (a := inject_Z A) in *.
  assert (Hr : (n / d * d == n)%Q) by (field; lra).
  set (r := (n / d)%Q) in *.
  change (inject_Z (2 ^ 53)) with (9007199254740992 # 1)%Q in *.
  unfold half_ulp. change (2 ^ 53)%positive with 9007199254740992%positive.
  split; nra.
Qed.

Lemma SF2Q_pos_pow (m e : Z) :
  0 < m → (SF2Q (S754_finite false (Z.to_pos m) e) == inject_Z m * 2 ^ e)%Q.
Proof.
  intros Hm. rewrite SF2Q_pow. simpl. by rewrite Z2Pos.id.
Qed.

Lemma rounded_spec (N D e : Z) :
  0 ≤ N → 0 < D → 2 ^ 52 ≤ N / D →
  let p := Zdigits2 (N / D) - 53 in
  2 ^ 52 ≤ rounded_mantissa N D < 2 ^ 53
  ∧ e + p ≤ rounded_exponent N D e ≤ e + p + 1
  ∧ approximates
      (S754_finite false (Z.to_pos (rounded_mantissa N D)) (rounded_exponent N D e))
      (inject_Z N / inject_Z D * 2 ^ e).
Proof.
  intros HN HD Hq p.
  destruct (shifted_quotient_bounds N D HN HD Hq) as [Hp Hm1]. fold p in Hp, Hm1.
  assert (Hpp : 0 < 2 ^ p) by (apply Z.pow_pos_nonneg; lia).
  assert (HW : 0 < D * 2 ^ p) by lia.
  destruct (rne_div_bounds N (D * 2 ^ p) HN HW) as [Hm2 Herr].
  pose proof (Z.mul_div_le N (D * 2 ^ p) HW) as HNW.
  unfold rounded_mantissa, rounded_exponent.
  change (Zdigits2 (N / D) - prec) with p.
  change (2 ^ prec) with (2 ^ 53). change (2 ^ (prec - 1)) with (2 ^ 52).
  set (m2 := rne_div N (D * 2 ^ p)) in *.
  assert (Hval : ∀ rm re, 0 < rm → (inject_Z rm * 2 ^ re == inject_Z (m2 * 2 ^ p) * 2 ^ e)%Q →
            approximates (S754_finite false (Z.to_pos rm) re)
                         (inject_Z N / inject_Z D * 2 ^ e)).
  { intros rm re Hrm Heq. unfold approximates. rewrite SF2Q_pos_pow, Heq by done.
    apply Qscale_bounds; [apply pow2_pos|].
    apply Qratio_bounds; [done|]. nia. }
  destruct (Z.eqb_spec m2 (2 ^ 53)) as [Hcarry|Hnocarry].
  - split_and!; [lia..|].
    apply Hval; [lia|]. rewrite Hcarry.
    replace (e + p + 1) with (1 + p + e) by lia.
    rewrite !pow2_add. rewrite inject_Z_mult, (pow2_inject p) by lia.
    change (inject_Z (2 ^ 52)) with (4503599627370496 # 1)%Q.
    change (inject_Z (2 ^ 53)) with (9007199254740992 # 1)%Q.
    change (2 ^ 1)%Q with (2 # 1)%Q. ring.
  - split_and!; [lia..|].
    apply Hval; [lia|].
    replace (e + p) with (p + e) by lia.
    rewrite pow2_add, inject_Z_mult, (pow2_inject p) by lia. ring.
Qed.

Lemma Zdigits2_range (q x y : Z) :
  0 ≤ x → 2 ^ x ≤ q → q < 2 ^ y → x + 1 ≤ Zdigits2 q ≤ y.
Proof.
  intros Hx Hlo Hhi.
  assert (Hq : 0 < q) by (pose proof (Z.pow_pos_nonneg 2 x); lia).
  pose proof (Zdigits2_bounds q Hq) as [Hlo' Hhi'].
  assert (Hd : 0 < Zdigits2 q) by (destruct q; simpl; lia).
  split.
  - destruct (Z.le_gt_cases (x + 1) (Zdigits2 q)); [done|].
    assert (2 ^ Zdigits2 q ≤ 2 ^ x) by (apply Z.pow_le_mono_r; lia). lia.
  - destruct (Z.le_gt_cases (Zdigits2 q) y); [done|].
    assert (0 ≤ y).
    { destruct (Z.le_gt_cases 0 y); [done|]. rewrite Z.pow_neg_r in Hhi by lia. lia. }
    assert (2 ^ y ≤ 2 ^ (Zdigits2 q - 1)) by (apply Z.pow_le_mono_r; lia). lia.
Qed.

Lemma rec_of_exact (N : Z) : rec_of N 1 = Build_shr_record N false false.
Proof. unfold rec_of. by rewrite Z.div_1_r, Z.mod_1_r. Qed.

(** ** Products of normal floats *)

Lemma fmul_normal (x y : spec_float) (lo1 hi1 lo2 hi2 : Z) :
  normal_in lo1 hi1 x → normal_in lo2 hi2 y →
  -1074 ≤ lo1 + lo2 + 52 → hi1 + hi2 + 54 ≤ 971 →
  normal_in (lo1 + lo2 + 52) (hi1 + hi2 + 54) (fmul x y)
  ∧ approximates (fmul x y) (SF2Q x * SF2Q y).
Proof.
  intros (mx & ex & -> & Hmx & Hex) (my & ey & -> & Hmy & Hey) Hlo Hhi.
  set (N := Z.pos (mx * my)).
  assert (HN : 2 ^ 104 ≤ N < 2 ^ 106) by (unfold N; rewrite Pos2Z.inj_mul; nia).
  assert (Hd : 105 ≤ Zdigits2 N ≤ 106) by (apply (Zdigits2_range N 104 106); lia).
  assert (Hq : 2 ^ 52 ≤ N / 1) by (rewrite Z.div_1_r; lia).
  assert (Hmul : fmul (S754_finite false mx ex) (S754_finite false my ey)
                 = S754_finite false (Z.to_pos (rounded_mantissa N 1))
                     (rounded_exponent N 1 (ex + ey))).
  { unfold fmul, SFmul. cbn [xorb]. fold N.
    rewrite <- (binary_round_aux_normal false N 1 (ex + ey)); rewrite ?Z.div_1_r; try lia.
    by rewrite rec_of_exact. }
  rewrite Hmul.
  destruct (rounded_spec N 1 (ex + ey)) as (Hrm & Hre & Happ); [lia..|].
  rewrite Z.div_1_r in Hre.
  split.
  - eexists _, _. split; [done|]. rewrite Z2Pos.id by lia. split; [done|lia].
  - unfold approximates in *.
    assert (Hv : (SF2Q (S754_finite false mx ex) * SF2Q (S754_finite false my ey)
                  == inject_Z N / inject_Z 1 * 2 ^ (ex + ey))%Q).
    { rewrite !SF2Q_pow, pow2_add. unfold N. rewrite Pos2Z.inj_mul, inject_Z_mult.
      cbn [cond_Zopp]. field. }
    by rewrite Hv.
Qed.

(** ** Quotients of integers *)

Lemma loc_rec_of_spec (N D : Z) :
  0 < D →
  loc_of_shr_record (rec_of N D)
  = if N mod D =? 0 then loc_Exact else loc_Inexact (2 * (N mod D) ?= D).
Proof.
  intros HD. pose proof (Z.mod_pos_bound N D HD) as Hr.
  unfold rec_of, loc_of_shr_record.
  destruct (Z.leb_spec D (2 * (N mod D))), (Z.eqb_spec (N mod D) 0),
    (Z.eqb_spec (2 * (N mod D)) D); simpl;
    destruct (Z.compare_spec (2 * (N mod D)) D); try lia; done.
Qed.

Lemma new_location_spec (nb k : Z) :
  0 < nb → 0 ≤ k < nb →
  new_location nb k = if k =? 0 then loc_Exact else loc_Inexact (2 * k ?= nb).
Proof.
  intros Hnb Hk. unfold new_location, new_location_even, new_location_odd.
  destruct (Z.even nb) eqn:Heven; [done|].
  destruct (Z.eqb_spec k 0); [done|]. f_equal.
  assert (Hodd : Z.odd nb = true) by (by rewrite <- Z.negb_even, Heven).
  apply Z.odd_spec in Hodd as [h ->].
  destruct (Z.compare_spec (2 * k + 1) (2 * h + 1)), (Z.compare_spec (2 * k) (2 * h + 1));
    try lia; done.
Qed.

Lemma div_core_ints (a b : Z) :
  0 < a → 0 < b → -1074 ≤ Zdigits2 a - Zdigits2 b - 53 →
  let e' := Z.min (Zdigits2 a - Zdigits2 b - 53) 0 in
  let N := a * 2 ^ (- e') in
  SFdiv_core_binary prec emax a 0 b 0 = (N / b, e', loc_of_shr_record (rec_of N b)).
Proof.
  intros Ha Hb Hlo e' N. unfold SFdiv_core_binary.
  rewrite !Z.add_0_r, Z.sub_0_r, fexp_normal by lia. fold e'.
  replace (0 - e') with (- e') by lia.
  assert (Hm : match - e' with
               | 0 => a
               | Z.pos _ => Z.shiftl a (- e')
               | Z.neg _ => 0
               end = N).
  { unfold N. destruct (- e') as [|s|s] eqn:Hs; [lia| |lia].
    rewrite Z.shiftl_mul_pow2 by lia. done. }
  rewrite Hm.
  rewrite loc_rec_of_spec by done.
  pose proof (Z.mod_pos_bound N b Hb) as Hr.
  rewrite <- new_location_spec by done.
  unfold Z.div, Z.modulo. by destruct (Z.div_eucl N b).
Qed.

Lemma fdiv_ints (sa : bool) (pa pb : positive) :
  let d := Zdigits2 (Z.pos pa) - Zdigits2 (Z.pos pb) in
  -1021 ≤ d ≤ 1021 →
  ∃ m e, fdiv (S754_finite sa pa 0) (S754_finite false pb 0) = S754_finite sa m e
    ∧ 2 ^ 52 ≤ Z.pos m < 2 ^ 53
    ∧ d - 53 ≤ e ≤ d - 51
    ∧ approximates (S754_finite false m e) (inject_Z (Z.pos pa) / inject_Z (Z.pos pb)).
Proof.
  intros d Hd.
  set (a := Z.pos pa) in *. set (b := Z.pos pb) in *.
  assert (Ha : 0 < a) by done. assert (Hb : 0 < b) by done.
  pose proof (Zdigits2_bounds a Ha) as [Halo Hahi].
  pose proof (Zdigits2_bounds b Hb) as [Hblo Hbhi].
  assert (Hd1 : 0 < Zdigits2 a) by done. assert (Hd2 : 0 < Zdigits2 b) by done.
  set (e' := Z.min (d - 53) 0).
  set (N := a * 2 ^ (- e')).
  assert (Hcore : SFdiv_core_binary prec emax a 0 b 0
                  = (N / b, e', loc_of_shr_record (rec_of N b)))
    by (apply div_core_ints; unfold d in Hd; lia).
  assert (Hs : 0 < 2 ^ (- e')) by (apply Z.pow_pos_nonneg; lia).
  assert (HN : 0 ≤ N) by (unfold N; lia).
  (* the quotient has between 53 and d + 1 bits *)
  assert (Hq : 2 ^ (d - e' - 1) * b ≤ N ∧ N < 2 ^ (d - e' + 1) * b).
  { unfold N.
    replace (d - e' - 1) with ((Zdigits2 a - 1) + (- e') - Zdigits2 b) by (unfold d; lia).
    replace (d - e' + 1) with (Zdigits2 a + (- e') - (Zdigits2 b - 1)) by (unfold d; lia).
    assert (H1 : 2 ^ (Zdigits2 a - 1 + - e' - Zdigits2 b) * 2 ^ Zdigits2 b
                 = 2 ^ (Zdigits2 a - 1) * 2 ^ (- e')).
    { rewrite <- !Z.pow_add_r by lia. f_equal. lia. }
    assert (H2 : 2 ^ (Zdigits2 a + - e' - (Zdigits2 b - 1)) * 2 ^ (Zdigits2 b - 1)
                 = 2 ^ Zdigits2 a * 2 ^ (- e')).
    { rewrite <- !Z.pow_add_r by lia. f_equal. lia. }
    assert (0 < 2 ^ (Zdigits2 a - 1 + - e' - Zdigits2 b)) by (apply Z.pow_pos_nonneg; lia).
    assert (0 < 2 ^ (Zdigits2 a + - e' - (Zdigits2 b - 1))) by (apply Z.pow_pos_nonneg; lia).
    split; nia. }
  destruct Hq as [Hqlo Hqhi].
  assert (Hq1 : 2 ^ (d - e' - 1) ≤ N / b) by (apply Z.div_le_lower_bound; lia).
  assert (Hq2 : N / b < 2 ^ (d - e' + 1)) by (apply Z.div_lt_upper_bound; lia).
  assert (Hdq : d - e' ≤ Zdigits2 (N / b) ≤ d - e' + 1).
  { pose proof (Zdigits2_range (N / b) (d - e' - 1) (d - e' + 1) ltac:(lia) Hq1 Hq2). lia. }
  assert (H52 : 2 ^ 52 ≤ N / b).
  { assert (2 ^ 52 ≤ 2 ^ (d - e' - 1)) by (apply Z.pow_le_mono_r; lia). lia. }
  exists (Z.to_pos (rounded_mantissa N b)), (rounded_exponent N b e').
  destruct (rounded_spec N b e' HN Hb H52) as (Hrm & Hre & Happ).
  split; [|split; [|split]].
  - unfold fdiv, SFdiv. fold a b. rewrite Hcore. rewrite xorb_false_r.
    apply binary_round_aux_normal; lia.
  - rewrite Z2Pos.id by lia. done.
  - lia.
  - unfold approximates in *.
    assert (Hv : (inject_Z a / inject_Z b == inject_Z N / inject_Z b * 2 ^ e')%Q).
    { unfold N. rewrite inject_Z_mult, pow2_inject by lia.
      change (inject_Z b) with (inject_Z (Z.pos pb)).
      assert (Hp : (2 ^ (- e') * 2 ^ e' == 1)%Q).
      { rewrite <- pow2_add. by replace (- e' + e') with 0 by lia. }
      assert (Hbq : ¬ (inject_Z (Z.pos pb) == 0)%Q) by done.
      set (P := (2 ^ (- e'))%Q) in *. set (P' := (2 ^ e')%Q) in *.
      transitivity (inject_Z a / inject_Z (Z.pos pb) * (P * P'))%Q; [rewrite Hp; field; done|].
      field. done. }
    by rewrite Hv.
Qed.

(** ** Rounding a float to an integer *)

Lemma rne_div_tie_even (N D : Z) :
  0 ≤ N → 0 < D → 2 * Z.abs (rne_div N D * D - N) = D → Z.even (rne_div N D) = true.
Proof.
  intros HN HD. pose proof (Z.mod_pos_bound N D HD) as Hr.
  pose proof (Z.div_mod N D ltac:(lia)) as Hdm.
  unfold rne_div.
  destruct (Z.compare_spec (2 * (N mod D)) D); [|nia|nia].
  destruct (Z.even (N / D)) eqn:He; [done|]. intros _.
  by rewrite Z.add_1_r, Z.even_succ, <- Z.negb_even, He.
Qed.

Lemma rne_div_unique (N D K : Z) :
  0 ≤ N → 0 < D → 2 * Z.abs (K * D - N) < D → rne_div N D = K.
Proof.
  intros HN HD HK. destruct (rne_div_bounds N D HN HD) as [_ Hn]. nia.
Qed.

(** The distance between an integer and a positive float, over the
    float's denominator. *)
Lemma Qdist_scaled (m : positive) (e n : Z) :
  let W := match e with Z.neg p => 2 ^ Z.pos p | _ => 1 end in
  let M := match e with Z.neg p => Z.pos m | _ => Z.pos m * 2 ^ e end in
  0 < W
  ∧ (∀ c, (Qabs (inject_Z n - SF2Q (S754_finite false m e)) <= 1 # c)%Q
          ↔ Z.pos c * Z.abs (n * W - M) ≤ W)
  ∧ (∀ c, (Qabs (inject_Z n - SF2Q (S754_finite false m e)) < 1 # c)%Q
          ↔ Z.pos c * Z.abs (n * W - M) < W)
  ∧ (∀ c, (Qabs (inject_Z n - SF2Q (S754_finite false m e)) == 1 # c)%Q
          ↔ Z.pos c * Z.abs (n * W - M) = W).
Proof.
  intros W M.
  assert (HW : 0 < W) by (unfold W; destruct e; lia).
  assert (Hv : (SF2Q (S754_finite false m e) == M # Z.to_pos W)%Q).
  { unfold SF2Q, W, M. destruct e as [|p|p]; cbn [cond_Zopp]; try reflexivity.
    rewrite <- Pos2Z.inj_pow. by rewrite Pos2Z.id. }
  assert (Hd : (inject_Z n - SF2Q (S754_finite false m e) == (n * W - M) # Z.to_pos W)%Q).
  { rewrite Hv. unfold Qeq, Qminus, Qplus, Qopp, inject_Z. cbn [Qnum Qden].
    rewrite Pos2Z.inj_mul, !Z2Pos.id by lia. ring. }
  assert (Habs : (Qabs (inject_Z n - SF2Q (S754_finite false m e))
                  == Z.abs (n * W - M) # Z.to_pos W)%Q).
  { rewrite Hd. reflexivity. }
  split; [done|].
  split_and!; intros c; rewrite Habs;
    unfold Qle, Qlt, Qeq; cbn [Qnum Qden]; rewrite Z2Pos.id by lia; lia.
Qed.

Lemma rne_scaled_spec (m : positive) (e : Z) :
  let n := rne_scaled (Z.pos m) e in
  (Qabs (inject_Z n - SF2Q (S754_finite false m e)) <= 1 # 2)%Q
  ∧ ((Qabs (inject_Z n - SF2Q (S754_finite false m e)) == 1 # 2)%Q → Z.even n = true).
Proof.
  intros n. destruct (Qdist_scaled m e n) as (HW & Hle & _ & Heq).
  rewrite Hle, Heq. unfold n, rne_scaled. destruct e as [|p|p].
  - split; [lia|]. lia.
  - split; [lia|]. lia.
  - assert (HD : 0 < 2 ^ Z.pos p) by (apply Z.pow_pos_nonneg; lia).
    destruct (rne_div_bounds (Z.pos m) (2 ^ Z.pos p) ltac:(lia) HD) as [_ Hb].
    split; [lia|]. intros Htie. apply rne_div_tie_even; lia.
Qed.

Lemma rne_scaled_near (m : positive) (e K : Z) :
  (Qabs (inject_Z K - SF2Q (S754_finite false m e)) < 1 # 2)%Q →
  rne_scaled (Z.pos m) e = K.
Proof.
  destruct (Qdist_scaled m e K) as (HW & _ & Hlt & _). rewrite Hlt.
  unfold rne_scaled. destruct e as [|p|p]; [lia|lia|].
  intros HK. apply rne_div_unique; lia.
Qed.

Lemma rne_scaled_nonneg (m : positive) (e : Z) : 0 ≤ rne_scaled (Z.pos m) e.
Proof.
  unfold rne_scaled. destruct e as [|p|p]; [lia|lia|].
  assert (HD : 0 < 2 ^ Z.pos p) by (apply Z.pow_pos_nonneg; lia).
  destruct (rne_div_bounds (Z.pos m) (2 ^ Z.pos p) ltac:(lia) HD) as [[Hlo _] _].
  assert (0 ≤ Z.pos m / 2 ^ Z.pos p) by (apply Z.div_pos; lia). lia.
Qed.

(** ** The conversion of an amount in millionths of a dollar *)

Lemma f100_normal : normal_in (-46) (-46) f100 ∧ (SF2Q f100 == 100)%Q.
Proof. split; [by eexists _, _|done]. Qed.

Lemma f1000000_normal : normal_in (-33) (-33) f1000000 ∧ (SF2Q f1000000 == 1000000)%Q.
Proof. split; [by eexists _, _|done]. Qed.

Lemma float_of_millionths_normal (k : Z) :
  1 ≤ k < 10 ^ 15 →
  normal_in (-72) (-21) (float_of_millionths k)
  ∧ approximates (float_of_millionths k) (inject_Z k / 1000000).
Proof.
  intros Hk. destruct k as [|pk|pk]; [lia| |lia].
  assert (Hd : 1 ≤ Zdigits2 (Z.pos pk) ≤ 50).
  { pose proof (Zdigits2_range (Z.pos pk) 0 50 ltac:(lia) ltac:(lia) ltac:(lia)). lia. }
  destruct (fdiv_ints false pk 1000000) as (m & e & Hf & Hm & He & Happ).
  { change (Zdigits2 1000000) with 20. lia. }
  change (Zdigits2 1000000) with 20 in He.
  unfold float_of_millionths. cbn [exact_of_Z]. rewrite Hf.
  split; [|exact Happ].
  exists m, e. split_and!; [done|lia|lia|lia|lia].
Qed.

Lemma scaled_product_close (k : Z) :
  1 ≤ k < 10 ^ 15 →
  ∃ mz ez, fmul (fmul (float_of_millionths k) f100) f1000000 = S754_finite false mz ez
    ∧ (inject_Z (100 * k) * (1 - (301 # 100) * half_ulp)
       <= SF2Q (S754_finite false mz ez)
       <= inject_Z (100 * k) * (1 + (301 # 100) * half_ulp))%Q.
Proof.
  intros Hk.
  destruct (float_of_millionths_normal k Hk) as [Hx Hxv].
  destruct f100_normal as [Hc Hcv]. destruct f1000000_normal as [Hm Hmv].
  destruct (fmul_normal _ _ _ _ _ _ Hx Hc) as [Hy Hyv]; [lia..|].
  destruct (fmul_normal _ _ _ _ _ _ Hy Hm) as [Hz Hzv]; [lia..|].
  destruct Hz as (mz & ez & Hzeq & _ & _).
  exists mz, ez. split; [done|]. rewrite <- Hzeq.
  unfold approximates in *. rewrite Hcv in Hyv. rewrite Hmv in Hzv.
  set (vx := SF2Q (float_of_millionths k)) in *.
  set (vy := SF2Q (fmul (float_of_millionths k) f100)) in *.
  set (vz := SF2Q (fmul (fmul (float_of_millionths k) f100) f1000000)) in *.
  rewrite inject_Z_mult. change (inject_Z 100) with 100%Q.
  assert (Hk1 : (1 <= inject_Z k)%Q) by (change 1%Q with (inject_Z 1); rewrite <- Zle_Qle; lia).
  set (kq := inject_Z k) in *.
  unfold half_ulp in *. change (2 ^ 53)%positive with 9007199254740992%positive in *.
  assert (Ha : (kq / 1000000 * 1000000 == kq)%Q) by (field; done).
  set (a := (kq / 1000000)%Q) in *.
  split; lra.
Qed.

Lemma Qabs_sym_le (a b c : Q) : (Qabs (a - b) <= c ↔ b - c <= a <= b + c)%Q.
Proof. rewrite Qabs_Qle_condition. split; intros [? ?]; split; lra. Qed.

Lemma Qabs_sym_lt (a b c : Q) : (b - c < a < b + c → Qabs (a - b) < c)%Q.
Proof. intros [? ?]. apply Qabs_Qlt_condition. split; lra. Qed.

(** The microcents of an amount below 10^9 dollars: positive, and within
    half a microcent, plus the rounding of three operations, of [100 k]. *)
Lemma usd_to_microcents_close (k : Z) :
  1 ≤ k < 10 ^ 15 →
  ∃ mc, _usd_to_microcents (float_of_millionths k) = Ok mc
    ∧ 1 ≤ mc < 2 ^ 57
    ∧ (inject_Z (100 * k) * (1 - (301 # 100) * half_ulp) - (1 # 2) <= inject_Z mc
       <= inject_Z (100 * k) * (1 + (301 # 100) * half_ulp) + (1 # 2))%Q
    ∧ (k < 10 ^ 13 → mc = 100 * k).
Proof.
  intros Hk. destruct (scaled_product_close k Hk) as (mz & ez & Hz & Hzv).
  exists (rne_scaled (Z.pos mz) ez).
  unfold _usd_to_microcents. rewrite Hz. cbn [py_round cond_Zopp].
  destruct (rne_scaled_spec mz ez) as [Hn _].
  set (mc := rne_scaled (Z.pos mz) ez) in *.
  apply Qabs_sym_le in Hn.
  set (vz := SF2Q (S754_finite false mz ez)) in *.
  assert (Hk1 : (inject_Z 1 <= inject_Z k)%Q) by (rewrite <- Zle_Qle; lia).
  assert (Hk2 : (inject_Z k <= inject_Z (10 ^ 15))%Q) by (rewrite <- Zle_Qle; lia).
  rewrite inject_Z_mult in *. change (inject_Z 100) with 100%Q in *.
  change (inject_Z 1) with 1%Q in *.
  change (inject_Z (10 ^ 15)) with (1000000000000000 # 1)%Q in *.
  unfold half_ulp in *. change (2 ^ 53)%positive with 9007199254740992%positive in *.
  set (kq := inject_Z k) in *.
  assert (Hlo : (inject_Z 1 <= inject_Z mc)%Q) by (change (inject_Z 1) with 1%Q; lra).
  assert (Hhi : (inject_Z mc <= inject_Z (2 ^ 57 - 1))%Q).
  { change (inject_Z (2 ^ 57 - 1)) with (144115188075855871 # 1)%Q. lra. }
  rewrite <- Zle_Qle in Hlo, Hhi.
  split_and!; [done|lia|lia|lra|lra|].
  intros Hk13.
  assert (Hk3 : (kq <= inject_Z (10 ^ 13))%Q) by (unfold kq; rewrite <- Zle_Qle; lia).
  change (inject_Z (10 ^ 13)) with (10000000000000 # 1)%Q in Hk3.
  unfold mc. apply rne_scaled_near. apply Qabs_sym_lt. fold vz.
  rewrite inject_Z_mult. change (inject_Z 100) with 100%Q. fold kq.
  split; lra.
Qed.

(** ** Formatting *)

Lemma SF2Q_scale_mantissa (m c : positive) (e : Z) :
  (SF2Q (S754_finite false (m * c) e) == SF2Q (S754_finite false m e) * inject_Z (Z.pos c))%Q.
Proof.
  rewrite !SF2Q_pow. cbn [cond_Zopp]. rewrite Pos2Z.inj_mul, inject_Z_mult. ring.
Qed.

Lemma int_truediv_microcents (s : bool) (pn : positive) :
  Z.pos pn < 2 ^ 1000 →
  ∃ m e, int_truediv (cond_Zopp s (Z.pos pn)) (100 * 1000000) = Ok (S754_finite s m e)
    ∧ 2 ^ 52 ≤ Z.pos m < 2 ^ 53
    ∧ approximates (S754_finite false m e) (inject_Z (Z.pos pn) / 100000000).
Proof.
  intros Hn.
  assert (Hd : 1 ≤ Zdigits2 (Z.pos pn) ≤ 1000).
  { pose proof (Zdigits2_range (Z.pos pn) 0 1000 ltac:(lia) ltac:(lia) ltac:(lia)). lia. }
  destruct (fdiv_ints s pn 100000000) as (m & e & Hf & Hm & He & Happ).
  { change (Zdigits2 100000000) with 27. lia. }
  exists m, e. split; [|done].
  unfold int_truediv. change (100 * 1000000) with 100000000.
  replace (exact_of_Z (cond_Zopp s (Z.pos pn))) with (S754_finite s pn 0)
    by (by destruct s).
  cbn [exact_of_Z]. by rewrite Hf.
Qed.

Lemma pad6_length (r : Z) : String.length (pad6 r) = 6%nat.
Proof. reflexivity. Qed.

(** What [_format_usd_from_microcents] prints for an amount that the true
    division can represent: the sign, then the decimal text of a number of
    millionths [v] that is the nearest one to the float of [|n| / 10^8]. *)
Lemma format_usd_shape (n : Z) :
  Z.abs n < 2 ^ 1000 →
  ∃ v, 0 ≤ v
    ∧ _format_usd_from_microcents n
      = Ok ((if n <? 0 then "-" else "") +:+ fixed6 v)
    ∧ (Qabs (inject_Z v - inject_Z (Z.abs n) / 100)
       <= (1 # 2) + inject_Z (Z.abs n) / 100 * half_ulp)%Q.
Proof.
  intros Hn.
  assert (Hcase : ∀ s pn, Z.pos pn < 2 ^ 1000 →
    ∃ v, 0 ≤ v
      ∧ _format_usd_from_microcents (cond_Zopp s (Z.pos pn))
        = Ok ((if s then "-" else "") +:+ fixed6 v)
      ∧ (Qabs (inject_Z v - inject_Z (Z.pos pn) / 100)
         <= (1 # 2) + inject_Z (Z.pos pn) / 100 * half_ulp)%Q).
  { intros s pn Hpn.
    destruct (int_truediv_microcents s pn Hpn) as (m & e & Hdiv & Hm & Happ).
    exists (rne_scaled (Z.pos (m * 1000000)) e). split; [apply rne_scaled_nonneg|].
    split.
    - unfold _format_usd_from_microcents. rewrite Hdiv. cbn [rbind format_6f].
      by rewrite Pos2Z.inj_mul.
    - destruct (rne_scaled_spec (m * 1000000) e) as [Hr _].
      set (v := rne_scaled (Z.pos (m * 1000000)) e) in *.
      apply Qabs_sym_le in Hr. rewrite SF2Q_scale_mantissa in Hr.
      unfold approximates in Happ.
      set (w := SF2Q (S754_finite false m e)) in *.
      change (inject_Z 1000000) with 1000000%Q in Hr.
      set (nq := inject_Z (Z.pos pn)) in *.
      assert (Hnq : (0 < nq)%Q) by (unfold nq; change 0%Q with (inject_Z 0); by rewrite <- Zlt_Qlt).
      assert (Ha : (nq / 100000000 * 100000000 == nq)%Q) by (field; done).
      assert (Hb : (nq / 100 * 100 == nq)%Q) by (field; done).
      set (a := (nq / 100000000)%Q) in *. set (b := (nq / 100)%Q) in *.
      unfold half_ulp in *. change (2 ^ 53)%positive with 9007199254740992%positive in *.
      apply Qabs_sym_le. split; lra. }
  destruct n as [|pn|pn].
  - exists 0. split; [done|]. split; [reflexivity|]. by vm_compute.
  - apply (Hcase false pn). lia.
  - apply (Hcase true pn). lia.
Qed.

(** ** The round trip of an amount below 10^9 dollars *)

Lemma usd_round_trip (k : Z) :
  0 ≤ k < 10 ^ 15 →
  rbind (_usd_to_microcents (float_of_millionths k)) _format_usd_from_microcents
  = Ok (fixed6 k).
Proof.
  intros Hk. destruct (decide (k = 0)) as [->|Hk0]; [reflexivity|].
  destruct (usd_to_microcents_close k ltac:(lia)) as (mc & -> & Hmc & Hclose & _).
  cbn [rbind]. destruct mc as [|pmc|pmc]; [lia| |lia].
  destruct (int_truediv_microcents false pmc) as (m & e & Hdiv & Hm & Happ).
  { cbn [cond_Zopp]. etrans; [apply Hmc|]. by apply Z.pow_lt_mono_r. }
  cbn [cond_Zopp] in Hdiv.
  unfold _format_usd_from_microcents. rewrite Hdiv. cbn [rbind format_6f].
  rewrite <- Pos2Z.inj_mul. do 2 f_equal. change (String.append "" ?s) with s.
  f_equal. apply rne_scaled_near. rewrite SF2Q_scale_mantissa.
  unfold approximates in Happ.
  set (w := SF2Q (S754_finite false m e)) in *.
  change (inject_Z 1000000) with 1000000%Q.
  set (nq := inject_Z (Z.pos pmc)) in *.
  assert (Ha : (nq / 100000000 * 100000000 == nq)%Q) by (field; done).
  set (a := (nq / 100000000)%Q) in *.
  assert (Hk1 : (inject_Z 1 <= inject_Z k)%Q) by (rewrite <- Zle_Qle; lia).
  assert (Hk2 : (inject_Z k <= inject_Z (10 ^ 15))%Q) by (rewrite <- Zle_Qle; lia).
  rewrite inject_Z_mult in Hclose. change (inject_Z 100) with 100%Q in Hclose.
  change (inject_Z 1) with 1%Q in *.
  change (inject_Z (10 ^ 15)) with (1000000000000000 # 1)%Q in *.
  unfold half_ulp in *. change (2 ^ 53)%positive with 9007199254740992%positive in *.
  set (kq := inject_Z k) in *.
  apply Qabs_sym_lt. split; lra.
Qed.

(** ** [round] *)

Lemma SF2Q_neg (m : positive) (e : Z) :
  (SF2Q (S754_finite true m e) == - SF2Q (S754_finite false m e))%Q.
Proof.
  rewrite !SF2Q_pow. cbn [cond_Zopp]. rewrite inject_Z_opp. ring.
Qed.

Lemma SF2Q_normal_pos lo hi x : normal_in lo hi x → (0 < SF2Q x)%Q.
Proof.
  intros (m & e & -> & _ & _). rewrite SF2Q_pow. cbn [cond_Zopp].
  apply Qmult_lt_0_compat; [|apply pow2_pos].
  change 0%Q with (inject_Z 0). by rewrite <- Zlt_Qlt.
Qed.

(** [round(x)] is an integer nearest to [x], the even one of the two when
    [x] is halfway between them. *)
Lemma py_round_nearest_even (s : bool) (m : positive) (e : Z) :
  let x := S754_finite s m e in
  ∃ n, py_round x = Ok n
    ∧ (Qabs (inject_Z n - SF2Q x) <= 1 # 2)%Q
    ∧ ((Qabs (inject_Z n - SF2Q x) == 1 # 2)%Q → Z.even n = true).
Proof.
  intros x. exists (cond_Zopp s (rne_scaled (Z.pos m) e)). split; [done|].
  destruct (rne_scaled_spec m e) as [Hle Heven].
  destruct s; cbn [cond_Zopp]; [|done].
  set (r := rne_scaled (Z.pos m) e) in *.
  assert (Heq : (inject_Z (- r) - SF2Q x == - (inject_Z r - SF2Q (S754_finite false m e)))%Q).
  { unfold x. rewrite SF2Q_neg, inject_Z_opp. ring. }
  rewrite Heq, Qabs_opp, Z.even_opp. done.
Qed.

Lemma product_close (usd : spec_float) :
  normal_in (-1074) 942 usd →
  (SF2Q usd * 100000000 * (1 - (201 # 100) * half_ulp)
   <= SF2Q (fmul (fmul usd f100) f1000000)
   <= SF2Q usd * 100000000 * (1 + (201 # 100) * half_ulp))%Q.
Proof.
  intros Hx. pose proof (SF2Q_normal_pos _ _ _ Hx) as Hpos.
  destruct f100_normal as [Hc Hcv]. destruct f1000000_normal as [Hm Hmv].
  destruct (fmul_normal _ _ _ _ _ _ Hx Hc) as [Hy Hyv]; [lia..|].
  destruct (fmul_normal _ _ _ _ _ _ Hy Hm) as [Hz Hzv]; [lia..|].
  unfold approximates in *. rewrite Hcv in Hyv. rewrite Hmv in Hzv.
  set (vx := SF2Q usd) in *.
  set (vy := SF2Q (fmul usd f100)) in *.
  set (vz := SF2Q (fmul (fmul usd f100) f1000000)) in *.
  unfold half_ulp in *. change (2 ^ 53)%positive with 9007199254740992%positive in *.
  split; lra.
Qed.

(** ** The conversion to microcents *)

(** C2 (as the code has it): [_usd_to_microcents usd] rounds the binary64
    product [usd * 100 * 1_000_000] with Python's [round]: the result is an
    integer nearest to the product, and when the product lies halfway
    between two integers it is the even one, not the one farther from
    zero. A product that is not a number raises [ValueError], an infinite
    one [OverflowError]. For a positive normal [usd] below 2^995 the
    product is within two roundings of [usd * 10^8]. *)
Theorem usd_to_microcents_rounds_half_even (usd : spec_float) :
  let z := fmul (fmul usd f100) f1000000 in
  match z with
  | S754_nan => _usd_to_microcents usd = Raise ValueError
  | S754_infinity _ => _usd_to_microcents usd = Raise OverflowError
  | _ =>
      ∃ n, _usd_to_microcents usd = Ok n
        ∧ (Qabs (inject_Z n - SF2Q z) <= 1 # 2)%Q
        ∧ ((Qabs (inject_Z n - SF2Q z) == 1 # 2)%Q → Z.even n = true)
        ∧ (normal_in (-1074) 942 usd →
           (SF2Q usd * 100000000 * (1 - (201 # 100) * half_ulp) <= SF2Q z
            <= SF2Q usd * 100000000 * (1 + (201 # 100) * half_ulp))%Q)
  end.
Proof.
  intros z. pose proof (product_close usd) as Hclose. fold z in Hclose.
  unfold _usd_to_microcents. fold z.
  destruct z as [sz|sz| |sz mz ez] eqn:Hz; [|done|done|].
  - exists 0. split_and!; [done|by vm_compute| |done].
    intros Htie. by vm_compute in Htie.
  - destruct (py_round_nearest_even sz mz ez) as (n & Hn & Hle & Heven).
    exists n. by split_and!.
Qed.

(** The claim that the conversion rounds halfway cases away from zero
    fails: 2^-9 dollars are exactly 195312.5 microcents, and the
    conversion gives 195312. *)
Lemma usd_to_microcents_half_away_refuted :
  ¬ (∀ usd n, _usd_to_microcents usd = Ok n →
       n = round_half_away (SF2Q usd * 100000000)).
Proof.
  intros Hall. specialize (Hall (S754_finite false 1 (-9)) 195312 eq_refl).
  vm_compute in Hall. discriminate Hall.
Qed.

Example usd_to_microcents_tie :
  _usd_to_microcents (S754_finite false 1 (-9)) = Ok 195312
  ∧ (SF2Q (S754_finite false 1 (-9)) * 100000000 == 390625 # 2)%Q
  ∧ round_half_away (390625 # 2) = 195313.
Proof. split_and!; reflexivity. Qed.

(** ** The round trip through microcents *)

(** C7 (as the code has it): for an amount of [k] millionths of a dollar
    below 10^9 dollars, read as the nearest float, formatting its
    microcents gives back the amount with six fractional digits (and below
    10^7 dollars the microcents are exactly [100 k]); for every
    microcent value the true division can represent, the formatter
    prints a minus sign exactly for a negative value, then an integer
    part, a point and exactly six fractional digits, of the number of
    millionths nearest to the float of [|n| / 10^8]. *)
Theorem usd_string_round_trip :
  (∀ k, 0 ≤ k < 10 ^ 15 →
     rbind (_usd_to_microcents (float_of_millionths k)) _format_usd_from_microcents
     = Ok (fixed6 k)
     ∧ (k < 10 ^ 13 → _usd_to_microcents (float_of_millionths k) = Ok (100 * k)))
  ∧ (∀ n, Z.abs n < 2 ^ 1000 →
     ∃ v, 0 ≤ v
       ∧ _format_usd_from_microcents n
         = Ok ((if n <? 0 then "-" else "")
               +:+ pretty (v / 1000000) +:+ "." +:+ pad6 (v mod 1000000))
       ∧ String.length (pad6 (v mod 1000000)) = 6%nat
       ∧ (Qabs (inject_Z v - inject_Z (Z.abs n) / 100)
          <= (1 # 2) + inject_Z (Z.abs n) / 100 * half_ulp)%Q).
Proof.
  split.
  - intros k Hk. split; [by apply usd_round_trip|]. intros Hk13.
    destruct (decide (k = 0)) as [->|Hk0]; [reflexivity|].
    destruct (usd_to_microcents_close k ltac:(lia)) as (mc & -> & _ & _ & Hex).
    by rewrite Hex.
  - intros n Hn. destruct (format_usd_shape n Hn) as (v & Hv & Hfmt & Hnear).
    exists v. split_and!; done.
Qed.

Lemma usd_string_round_trip_witness :
  (0 ≤ 1234567 < 10 ^ 15)
  ∧ rbind (_usd_to_microcents (float_of_millionths 1234567)) _format_usd_from_microcents
    = Ok "1.234567"
  ∧ Z.abs (-150000000) < 2 ^ 1000
  ∧ ∃ v, _format_usd_from_microcents (-150000000)
         = Ok ("-" +:+ pretty (v / 1000000) +:+ "." +:+ pad6 (v mod 1000000)).
Proof.
  split; [lia|]. split.
  - exact (proj1 (proj1 usd_string_round_trip 1234567 ltac:(lia))).
  - split; [by vm_compute|].
    destruct (proj2 usd_string_round_trip (-150000000) ltac:(by vm_compute))
      as (v & _ & Hfmt & _).
    exists v. exact Hfmt.
Defined.

(** The claim that every non-negative amount with six decimals survives
    the round trip fails for large amounts: 2148474603.095195 dollars come
    back as 2148474603.095194. *)
Lemma usd_round_trip_large_refuted :
  ¬ (∀ k, 0 ≤ k →
       rbind (_usd_to_microcents (float_of_millionths k)) _format_usd_from_microcents
       = Ok (fixed6 k)).
Proof.
  intros Hall. specialize (Hall 2148474603095195 ltac:(lia)).
  vm_compute in Hall. discriminate Hall.
Qed.

Example usd_round_trip_large :
  rbind (_usd_to_microcents (float_of_millionths 2148474603095195))
        _format_usd_from_microcents
  = Ok "2148474603.095194".
Proof. vm_compute. reflexivity. Qed.

Example format_usd_overflow :
  _format_usd_from_microcents (10 ^ 320) = Raise OverflowError.
Proof. vm_compute. reflexivity. Qed.

Example format_usd_negative :
  _format_usd_from_microcents (-150000000) = Ok "-1.500000"
  ∧ _format_usd_from_microcents (-1) = Ok "-0.000000".
Proof. split; vm_compute; reflexivity. Qed.

(** ** Whitespace *)

Lemma is_space_byte (a : ascii) : is_space a = true → (nat_of_ascii a ≤ 32)%nat.
Proof.
  unfold is_space. cbv zeta.
  rewrite orb_true_iff, !andb_true_iff, !Nat.leb_le. lia.
Qed.

Lemma is_space2_bytes (a b : ascii) :
  is_space2 a b = true → nat_of_ascii a = 194%nat ∧ (128 ≤ nat_of_ascii b)%nat.
Proof.
  unfold is_space2, byte_is.
  rewrite andb_true_iff, orb_true_iff, !Nat.eqb_eq. lia.
Qed.

Lemma is_space3_bytes (a b c : ascii) :
  is_space3 a b c = true →
  (225 ≤ nat_of_ascii a ≤ 227 ∧ 128 ≤ nat_of_ascii b ∧ 128 ≤ nat_of_ascii c)%nat.
Proof.
  unfold is_space3, byte_is, byte_in.
  rewrite !orb_true_iff, !andb_true_iff, !orb_true_iff, !andb_true_iff,
    !Nat.eqb_eq, !Nat.leb_le.
  lia.
Qed.

Lemma not_is_space (a : ascii) : (32 < nat_of_ascii a)%nat → is_space a = false.
Proof.
  intros Ha. destruct (is_space a) eqn:Hs; [|done]. apply is_space_byte in Hs. lia.
Qed.

Lemma not_is_space2_l (a b : ascii) : nat_of_ascii a ≠ 194%nat → is_space2 a b = false.
Proof.
  intros Ha. destruct (is_space2 a b) eqn:Hs; [|done]. apply is_space2_bytes in Hs. lia.
Qed.

Lemma not_is_space2_r (a b : ascii) : (nat_of_ascii b < 128)%nat → is_space2 a b = false.
Proof.
  intros Hb. destruct (is_space2 a b) eqn:Hs; [|done]. apply is_space2_bytes in Hs. lia.
Qed.

Lemma not_is_space3 (a b c : ascii) :
  (nat_of_ascii a < 128 ∨ nat_of_ascii b < 128 ∨ nat_of_ascii c < 128)%nat →
  is_space3 a b c = false.
Proof.
  intros H. destruct (is_space3 a b c) eqn:Hs; [|done]. apply is_space3_bytes in Hs. lia.
Qed.

(** A whitespace character at the head is removed. *)
Lemma lstrip_space_char (w s : string) :
  is_space_char w = true → lstrip (w +:+ s) = lstrip s.
Proof.
  destruct w as [|a [|b [|c [|d w]]]]; try done; cbn [is_space_char]; intros Hw.
  - change (lstrip (String a s) = lstrip s). cbn [lstrip]. by rewrite Hw.
  - change (lstrip (String a (String b s)) = lstrip s). cbn [lstrip].
    destruct (is_space2_bytes a b Hw) as [Ha Hb].
    rewrite not_is_space by lia. by rewrite Hw.
  - change (lstrip (String a (String b (String c s))) = lstrip s). cbn [lstrip].
    destruct (is_space3_bytes a b c Hw) as (Ha & Hb & Hc).
    rewrite not_is_space by lia. rewrite not_is_space2_l by lia. by rewrite Hw.
Qed.

Lemma strip_blank (s : string) : blank_text s → strip s = "".
Proof.
  intros (chars & Hchars & ->). unfold strip.
  assert (Hl : lstrip (foldr String.append "" chars) = "").
  { induction Hchars as [|w chars Hw _ IH]; [done|].
    cbn [foldr]. by rewrite lstrip_space_char. }
  by rewrite Hl.
Qed.

(** A character of one byte that is not whitespace stops the stripping. *)
Lemma lstrip_head (c : ascii) (u : string) :
  (nat_of_ascii c < 128)%nat → is_space c = false → lstrip (String c u) = String c u.
Proof.
  intros Hc Hs. cbn [lstrip]. rewrite Hs.
  destruct u as [|b [|d u]]; [done| |].
  - by rewrite not_is_space2_l by lia.
  - rewrite not_is_space2_l by lia. by rewrite not_is_space3 by lia.
Qed.

Lemma lstrip_app (ts : string) (c : ascii) (u : string) :
  (nat_of_ascii c < 128)%nat → is_space c = false →
  lstrip (ts +:+ String c u) = lstrip ts +:+ String c u.
Proof.
  intros Hc Hs.
  assert (Hgen : ∀ n ts, (String.length ts ≤ n)%nat →
            lstrip (ts +:+ String c u) = lstrip ts +:+ String c u).
  { clear ts. induction n as [|n IH]; intros ts Hn.
    - destruct ts; [|simpl in Hn; lia]. by apply lstrip_head.
    - destruct ts as [|a [|b [|d ts]]].
      + by apply lstrip_head.
      + change (lstrip (String a (String c u)) = lstrip (String a "") +:+ String c u).
        cbn [lstrip]. destruct (is_space a); [by apply lstrip_head|].
        rewrite not_is_space2_r by lia.
        destruct u as [|d u]; [done|]. by rewrite not_is_space3 by lia.
      + change (lstrip (String a (String b (String c u)))
                = lstrip (String a (String b "")) +:+ String c u).
        cbn [lstrip]. destruct (is_space a).
        { destruct (is_space b); [by apply lstrip_head|].
          rewrite not_is_space2_r by lia.
          destruct u as [|d u]; [done|]. by rewrite not_is_space3 by lia. }
        destruct (is_space2 a b); [by apply lstrip_head|].
        by rewrite not_is_space3 by lia.
      + change (lstrip (String a (String b (String d (ts +:+ String c u))))
                = lstrip (String a (String b (String d ts))) +:+ String c u).
        cbn [lstrip]. simpl in Hn.
        destruct (is_space a).
        { apply (IH (String b (String d ts))). simpl. lia. }
        destruct (is_space2 a b).
        { apply (IH (String d ts)). simpl. lia. }
        destruct (is_space3 a b d); [|done].
        apply (IH ts). lia. }
  by apply (Hgen (String.length ts)).
Qed.

Lemma rstrip_keep (s : string) (c : ascii) :
  (nat_of_ascii c < 128)%nat → is_space c = false →
  rstrip (s +:+ String c EmptyString) = s +:+ String c EmptyString.
Proof.
  intros Hc Hs. induction s as [|a s IH].
  - change (rstrip (String c "") = String c ""). cbn [rstrip is_space_char]. by rewrite Hs.
  - change (rstrip (String a (s +:+ String c "")) = String a (s +:+ String c "")).
    cbn [rstrip]. rewrite IH.
    destruct s as [|b [|d s]].
    + change (String a ("" +:+ String c "")) with (String a (String c "")).
      cbn [is_space_char]. by rewrite not_is_space2_r by lia.
    + change (String a (String b "" +:+ String c ""))
        with (String a (String b (String c ""))).
      cbn [is_space_char]. by rewrite not_is_space3 by lia.
    + change (String a (String b (String d s) +:+ String c ""))
        with (String a (String b (String d (s +:+ String c "")))).
      cbn [is_space_char]. by destruct s.
Qed.

(** ** Totals *)

Lemma map_total_empty : map_total ∅ = 0.
Proof. unfold map_total. by rewrite map_fold_empty. Qed.

Lemma map_total_insert_fresh (m : gmap key Z) (k : key) (v : Z) :
  m !! k = None → map_total (<[k := v]> m) = v + map_total m.
Proof.
  intros Hk. unfold map_total. rewrite map_fold_insert_L; [done| |done].
  intros. lia.
Qed.

Lemma map_total_lookup (m : gmap key Z) (k : key) (x : Z) :
  m !! k = Some x → map_total m = x + map_total (delete k m).
Proof.
  intros Hk. rewrite <- (insert_delete_id m k x) at 1 by done.
  apply map_total_insert_fresh, lookup_delete_eq.
Qed.

Lemma map_total_add (m : gmap key Z) (k : key) (v : Z) :
  map_total (<[k := get0 m k + v]> m) = map_total m + v.
Proof.
  unfold get0. destruct (m !! k) as [x|] eqn:Hk; simpl.
  - rewrite <- insert_delete_eq.
    rewrite map_total_insert_fresh by apply lookup_delete_eq.
    rewrite (map_total_lookup m k x) by done. lia.
  - rewrite map_total_insert_fresh by done. lia.
Qed.

Lemma sum_fold_total (rows : list LedgerRow) : ∀ acc,
  map_total (foldl (λ sums r, <[row_key r := get0 sums (row_key r) + realized_microcents r]> sums)
                   acc rows)
  = map_total acc + rows_total rows.
Proof.
  induction rows as [|r rows IH]; intros acc; cbn [foldl rows_total foldr].
  - lia.
  - rewrite IH, map_total_add. fold (rows_total rows). lia.
Qed.

Lemma ledger_total_app (a b : list LedgerRow) (k : key) :
  ledger_total (a ++ b) k = ledger_total a k + ledger_total b k.
Proof.
  induction a as [|r a IH]; [done|].
  cbn [app ledger_total foldr]. fold (ledger_total (a ++ b) k) (ledger_total a k).
  rewrite IH. lia.
Qed.

Lemma ledger_total_perm (a b : list LedgerRow) (k : key) :
  a ≡ₚ b → ledger_total a k = ledger_total b k.
Proof.
  induction 1 as [|r a b _ IH|r1 r2 a|a b c _ IH1 _ IH2]; cbn [ledger_total foldr].
  - done.
  - fold (ledger_total a k) (ledger_total b k). by rewrite IH.
  - lia.
  - congruence.
Qed.

Lemma sum_over_perm (f : key → Z) (l1 l2 : list key) :
  l1 ≡ₚ l2 → sum_over f l1 = sum_over f l2.
Proof.
  induction 1 as [|k a b _ IH|k1 k2 a|a b c _ IH1 _ IH2]; cbn [sum_over foldr].
  - done.
  - fold (sum_over f a) (sum_over f b). by rewrite IH.
  - lia.
  - congruence.
Qed.

Lemma sum_over_ext (f g : key → Z) (l : list key) :
  (∀ k, k ∈ l → f k = g k) → sum_over f l = sum_over g l.
Proof.
  induction l as [|k l IH]; intros Hfg; [done|].
  cbn [sum_over foldr]. fold (sum_over f l) (sum_over g l).
  rewrite Hfg by (by left). rewrite IH; [done|]. intros. apply Hfg. by right.
Qed.

(** The values of a dict of sums, read over any duplicate-free key list
    that holds all of its keys, add up to its total. *)
Lemma sum_over_keys (m : gmap key Z) : ∀ l,
  NoDup l → (∀ k, is_Some (m !! k) → k ∈ l) →
  sum_over (get_or_0 m) l = map_total m.
Proof.
  induction m as [|i x m Hi IH] using map_ind; intros l Hnd Hdom.
  - rewrite map_total_empty. clear. induction l as [|k l IH]; [done|].
    cbn [sum_over foldr]. fold (sum_over (get_or_0 ∅) l). rewrite IH.
    by rewrite get_or_0_default, lookup_empty.
  - assert (Hil : i ∈ l) by (apply Hdom; rewrite lookup_insert_eq; by eexists).
    apply elem_of_Permutation in Hil as [l' Hl'].
    rewrite (sum_over_perm _ _ _ Hl'). rewrite Hl' in Hnd.
    apply NoDup_cons in Hnd as [Hnin Hnd'].
    cbn [sum_over foldr]. fold (sum_over (get_or_0 (<[i:=x]> m)) l').
    rewrite map_total_insert_fresh by done.
    rewrite get_or_0_default, lookup_insert_eq. simpl. f_equal.
    rewrite <- (IH l' Hnd').
    + apply sum_over_ext. intros k Hk. rewrite !get_or_0_default.
      rewrite lookup_insert_ne; [done|]. intros ->. done.
    + intros k Hk. assert (Hne : i ≠ k) by (intros ->; rewrite Hi in Hk; by destruct Hk).
      assert (Hin : k ∈ l) by (apply Hdom; by rewrite lookup_insert_ne).
      rewrite Hl' in Hin. apply elem_of_cons in Hin as [->|?]; done.
Qed.

Lemma column_total_report (col : ReportRow → Z) (L P : gmap key Z) :
  column_total col (report L P)
  = sum_over (λ k, col (report_row L P k)) (report_keys L P).
Proof.
  unfold report. induction (report_keys L P) as [|k l IH]; [done|].
  rewrite fmap_cons. cbn [column_total sum_over foldr].
  fold (column_total col (report_row L P <$> l)). by rewrite IH.
Qed.

Lemma sum_over_sub (f g : key → Z) (l : list key) :
  sum_over (λ k, f k - g k) l = sum_over f l - sum_over g l.
Proof.
  induction l as [|k l IH]; [done|]. cbn [sum_over foldr].
  fold (sum_over (λ k, f k - g k) l) (sum_over f l) (sum_over g l). lia.
Qed.

Lemma sum_total (rows : list LedgerRow) :
  map_total (_sum_microcents_by_provider_model rows) = rows_total rows.
Proof.
  unfold _sum_microcents_by_provider_model.
  by rewrite sum_fold_total, map_total_empty.
Qed.

(** X1. Aggregation loses nothing: the values of the dict that
    [_sum_microcents_by_provider_model] returns add up to the sum of
    [realized_microcents] over all ledger rows. *)
Theorem ledger_sums_conserve_total (rows : list LedgerRow) :
  map_total (_sum_microcents_by_provider_model rows) = rows_total rows.
Proof.
  unfold _sum_microcents_by_provider_model.
  rewrite sum_fold_total, map_total_empty. lia.
Qed.

(** X2. The dict of sums does not depend on the order in which the ledger
    rows are read. *)
Theorem ledger_sums_order_independent (rows rows' : list LedgerRow) :
  rows ≡ₚ rows' →
  _sum_microcents_by_provider_model rows = _sum_microcents_by_provider_model rows'.
Proof.
  intros Hp. apply map_eq. intros k. rewrite !sum_lookup.
  rewrite (ledger_total_perm _ _ k Hp).
  destruct (decide (k ∈ row_key <$> rows)) as [Hin|Hnin].
  - rewrite decide_True; [done|]. by rewrite <- Hp.
  - rewrite decide_False; [done|]. by rewrite <- Hp.
Qed.

Lemma ledger_sums_order_independent_witness :
  let a := mkLedgerRow "openai" "gpt-4" "t1" 5 1 in
  let b := mkLedgerRow "gemini" "flash" "t2" 7 1 in
  let c := mkLedgerRow "openai" "gpt-4" "t3" 11 1 in
  [a; b; c] ≡ₚ [c; a; b]
  ∧ _sum_microcents_by_provider_model [a; b; c]
    = _sum_microcents_by_provider_model [c; a; b].
Proof.
  intros a b c.
  assert (Hp : [a; b; c] ≡ₚ [c; a; b]).
  { change [a; b; c] with ([a; b] ++ [c]). by rewrite Permutation_app_comm. }
  split; [exact Hp|]. exact (ledger_sums_order_independent _ _ Hp).
Defined.

(** X3. Aggregating a ledger in two chunks and adding the two dicts key by
    key gives the dict of the whole ledger. *)
Theorem ledger_sums_of_chunks (a b : list LedgerRow) :
  _sum_microcents_by_provider_model (a ++ b)
  = add_sums (_sum_microcents_by_provider_model a) (_sum_microcents_by_provider_model b).
Proof.
  apply map_eq. intros k. unfold add_sums.
  rewrite lookup_union_with, !sum_lookup, fmap_app, ledger_total_app.
  destruct (decide (k ∈ row_key <$> a)) as [Ha|Ha];
    destruct (decide (k ∈ row_key <$> b)) as [Hb|Hb]; simpl.
  - rewrite decide_True; [done|]. apply elem_of_app. by left.
  - rewrite decide_True by (apply elem_of_app; by left).
    f_equal. rewrite (ledger_total_absent b) by done. lia.
  - rewrite decide_True by (apply elem_of_app; by right).
    f_equal. rewrite (ledger_total_absent a) by done. lia.
  - rewrite decide_False; [done|]. rewrite elem_of_app. tauto.
Qed.

(** X4. The columns of the reconciliation report add up: the ledger column
    to the sum of [realized_microcents] over all ledger rows, the provider
    column to the sum of all imported provider costs, and the diff column to
    the difference of the two. *)
Theorem report_columns_add_up (rows : list LedgerRow) (P : gmap key Z) :
  let rep := reconcile rows P in
  column_total rr_ledger rep = rows_total rows
  ∧ column_total rr_provider_cost rep = map_total P
  ∧ column_total rr_diff rep = rows_total rows - map_total P.
Proof.
  intros rep. unfold rep, reconcile.
  set (L := _sum_microcents_by_provider_model rows).
  destruct (report_keys_spec L P) as (Hnd & _ & Hkeys).
  assert (HL : sum_over (get_or_0 L) (report_keys L P) = rows_total rows).
  { rewrite sum_over_keys; [apply sum_total|done|].
    intros k Hk. apply Hkeys. left. by apply elem_of_dom. }
  assert (HP : sum_over (get_or_0 P) (report_keys L P) = map_total P).
  { apply sum_over_keys; [done|].
    intros k Hk. apply Hkeys. right. by apply elem_of_dom. }
  rewrite !column_total_report. cbn [report_row rr_ledger rr_provider_cost rr_diff].
  split_and!; [done|done|]. by rewrite sum_over_sub, HL, HP.
Qed.

(** ** More on the ledger extraction *)

Section LedgerWindow.
Context `{PyBuiltins}.

Lemma ledger_loop_inv (rows : list db_row) : ∀ out res,
  ledger_loop out rows = Ok res →
  ∃ rs, res = (out ++ rs)%list ∧ Forall2 (λ row r, ledger_row_of row = Ok r) rows rs.
Proof.
  induction rows as [|row rows IH]; intros out res; cbn [ledger_loop].
  - intros [= <-]. exists []. by rewrite app_nil_r.
  - destruct (ledger_row_of row) as [r|e] eqn:Hrow; [|done]. simpl.
    intros (rs & -> & Hrs)%IH. exists (r :: rs).
    split; [by rewrite <- app_assoc|]. by constructor.
Qed.

Lemma ledger_loop_raise (pre : list db_row) row rest e : ∀ out,
  (∀ r, r ∈ pre → is_ok (py_int (db_realized_cents r)) = true) →
  py_int (db_realized_cents row) = Raise e →
  ledger_loop out (pre ++ row :: rest) = Raise e.
Proof.
  induction pre as [|p pre IH]; intros out Hpre Hrow; cbn [app ledger_loop].
  - unfold ledger_row_of. by rewrite Hrow.
  - destruct (ledger_row_of_int p) as (rc & _ & ->); [apply Hpre; by left|].
    simpl. apply IH; [|done]. intros. apply Hpre. by right.
Qed.

Lemma in_window_text start end_ row :
  in_window start end_ row = true →
  ∃ s, db_created_at row = PStr s
    ∧ String.leb start s = true ∧ String.leb s end_ = true.
Proof.
  unfold in_window. destruct (db_created_at row); try done.
  intros [? ?]%andb_true_iff. by eexists.
Qed.

Lemma ledger_row_created_at row r :
  ledger_row_of row = Ok r → created_at r = py_str (db_created_at row).
Proof.
  unfold ledger_row_of. destruct (py_int _); [|done]. by intros [= <-].
Qed.

(** X5. Every row the extraction returns has a [created_at] text inside
    the inclusive window, and no more rows come back than the table holds;
    when the window's start sorts after its end the extraction returns no
    row and raises nothing, whatever the table holds. *)
Theorem ledger_rows_lie_in_window (store : list db_row) (start end_ : string) :
  (∀ out, _load_sqlite_ledger store start end_ = Ok out →
     Forall (λ r, String.leb start (created_at r) = true
                  ∧ String.leb (created_at r) end_ = true) out
     ∧ (length out ≤ length store)%nat)
  ∧ (String.leb start end_ = false → _load_sqlite_ledger store start end_ = Ok []).
Proof.
  unfold _load_sqlite_ledger.
  set (window := filter (λ row, in_window start end_ row = true) store).
  split.
  - intros out Hload. destruct (fetchall window) as [rows|e] eqn:Hfetch; [|done].
    apply fetchall_inv in Hfetch as [-> _]. cbn [mbind result_bind rbind] in Hload.
    apply ledger_loop_inv in Hload as (rs & -> & Hrs). simpl. split.
    + apply Forall_forall. intros r Hr.
      apply list_elem_of_lookup in Hr as [i Hi].
      destruct (Forall2_lookup_r _ _ _ _ _ Hrs Hi) as (row & Hrow & Hok).
      apply list_elem_of_lookup_2, list_elem_of_filter in Hrow as [Hw _].
      apply in_window_text in Hw as (s & Hs & Hlo & Hhi).
      rewrite (ledger_row_created_at _ _ Hok), Hs. done.
    + rewrite <- (Forall2_length _ _ _ Hrs). apply length_filter.
  - intros Hinv. replace window with (@nil db_row); [done|].
    symmetry. destruct window as [|row w] eqn:Hw; [done|]. exfalso.
    assert (Hin : row ∈ window) by (rewrite Hw; by left).
    apply list_elem_of_filter in Hin as [Hrow _].
    apply in_window_text in Hrow as (s & _ & Hlo & Hhi).
    by rewrite (string_leb_trans _ _ _ Hlo Hhi) in Hinv.
Qed.

(** X6. A [realized_cents] that [int()] rejects is not tolerated: the
    first row of the window with such a value makes the whole extraction
    raise that exception ([TypeError] for a NULL), however well-formed the
    row's metadata is, and no rows are returned. (When a TEXT of the
    window does not decode, the cursor has raised [OperationalError]
    before.) *)
Theorem ledger_extraction_rejects_bad_cents
    (store : list db_row) (start end_ : string)
    (pre : list db_row) (row : db_row) (rest : list db_row) (e : exn) :
  filter (λ row, in_window start end_ row = true) store = pre ++ row :: rest →
  (∀ r, r ∈ pre → is_ok (py_int (db_realized_cents r)) = true) →
  py_int (db_realized_cents row) = Raise e →
  _load_sqlite_ledger store start end_
  = Raise (if forallb row_decodes (pre ++ row :: rest) then e else OperationalError)
  ∧ (db_realized_cents row = PNone → e = TypeError).
Proof.
  intros Hw Hpre Hrow. unfold _load_sqlite_ledger, fetchall. rewrite Hw. split.
  - destruct (forallb row_decodes (pre ++ row :: rest)); [|done].
    cbn [mbind result_bind rbind]. by apply ledger_loop_raise.
  - intros Hnull. rewrite Hnull in Hrow. simpl in Hrow. congruence.
Qed.

End LedgerWindow.

Lemma ledger_extraction_rejects_bad_cents_witness :
  @_load_sqlite_ledger sample_builtins store_with_null_cents
     "2026-02-10T00:00:00+00:00" "2026-02-10T01:00:00+00:00"
  = Raise TypeError.
Proof.
  refine (proj1 (@ledger_extraction_rejects_bad_cents sample_builtins
            store_with_null_cents "2026-02-10T00:00:00+00:00" "2026-02-10T01:00:00+00:00"
            [mkDbRow (PStr "openai") (PStr "gpt-4") (PStr "2026-02-10T00:10:00+00:00")
               (PInt 3) (PStr meta_442100)]
            (mkDbRow (PStr "openai") (PStr "gpt-4") (PStr "2026-02-10T00:20:00+00:00")
               PNone (PStr meta_442100))
            [mkDbRow (PStr "openai") (PStr "gpt-4") (PStr "2026-02-10T00:30:00+00:00")
               (PInt 2) (PStr meta_442100)]
            TypeError _ _ _)).
  - reflexivity.
  - intros r Hr. apply list_elem_of_singleton in Hr. subst r. reflexivity.
  - reflexivity.
Defined.

Example inverted_window_is_empty :
  @_load_sqlite_ledger sample_builtins store_with_null_cents
     "2026-02-10T01:00:00+00:00" "2026-02-10T00:00:00+00:00" = Ok [].
Proof. reflexivity. Qed.

Section MetaValue.
Context `{PyBuiltins}.

(** X7. When a row's [meta_json] is text that parses to a document holding
    [billing_breakdown.totals.realized_microcents], the row's microcents
    are [int()] of that field: 0 for a falsy field (0, null, false, empty
    text), the truncation of a float, the integer a text denotes, and 0
    again when [int()] rejects the field. Metadata stored as bytes is never
    parsed: such a row, like one with NULL metadata, counts 0. *)
Theorem meta_microcents_is_int_of_field :
  (∀ s meta v, json_loads s = Some meta → nested_field meta = Some v →
     row_microcents (PStr s) = if truthy v then except_all (py_int v) 0 else 0)
  ∧ (∀ s meta f, json_loads s = Some meta → nested_field meta = Some (PFloat f) →
     row_microcents (PStr s) = except_all (float_trunc f) 0)
  ∧ (∀ b, row_microcents (PBytes b) = 0)
  ∧ row_microcents PNone = 0.
Proof.
  assert (Hgen : ∀ s meta v, json_loads s = Some meta → nested_field meta = Some v →
     row_microcents (PStr s) = if truthy v then except_all (py_int v) 0 else 0).
  { intros s meta v Hs Hnf. unfold row_microcents, meta_microcents. rewrite Hs. simpl.
    unfold nested_field in Hnf.
    destruct meta as [| | | | | | |d]; try done. simpl in *.
    rewrite dict_get_lookup.
    destruct (dict_lookup d "billing_breakdown") as [bb|]; [|done]. simpl in *.
    destruct bb as [| | | | | | |bbd]; try done. rewrite py_or_dict. simpl in *.
    rewrite dict_get_lookup.
    destruct (dict_lookup bbd "totals") as [t|]; [|done]. simpl in *.
    destruct t as [| | | | | | |td]; try done. rewrite py_or_dict. simpl in *.
    rewrite dict_get_lookup, Hnf. simpl.
    unfold py_or. by destruct (truthy v). }
  split_and!; [exact Hgen| |intros b; by apply malformed_meta_zero|by apply malformed_meta_zero].
  intros s meta f Hs Hnf. rewrite (Hgen s meta _ Hs Hnf).
  destruct f as [sg|sg| |sg m e]; simpl; done.
Qed.

End MetaValue.

Example meta_microcents_of_sample :
  @row_microcents sample_builtins (PStr meta_442100) = 442100
  ∧ @row_microcents sample_builtins (PBytes meta_442100) = 0.
Proof. split; reflexivity. Qed.

(** ** Skipped rows and failing rows of a CSV import *)

Section ImportEdges.
Context `{PyBuiltins}.

Lemma csv_loop_app tag (a b : list csv_row) : ∀ acc,
  csv_loop tag acc (a ++ b) = sums ← csv_loop tag acc a; csv_loop tag sums b.
Proof.
  induction a as [|row a IH]; intros acc; [done|].
  cbn [app csv_loop]. destruct (csv_step tag acc row) as [sums|e]; [|done].
  simpl. apply IH.
Qed.

Lemma blank_cell_skipped (row : csv_row) :
  blank_cell row "model" ∨ blank_cell row "cost_usd" → row_skipped row = true.
Proof.
  unfold blank_cell, row_skipped, row_model, row_cost, row_get_or_empty.
  intros [Hb|Hb].
  - destruct (row !! "model") as [[s|]|]; [by rewrite (strip_blank s)|done..].
  - apply orb_true_iff. right.
    destruct (row !! "cost_usd") as [[s|]|]; [by rewrite (strip_blank s)|done..].
Qed.

(** X8. A row whose model or cost cell is missing, empty or blank (made
    of whitespace characters only, those beyond ASCII included)
    contributes nothing to an import: the adapter's result on a file is
    the result on the file without that row. *)
Theorem csv_import_ignores_blank_rows
    (tag : string) (load : list csv_row → result (gmap key Z))
    (pre : list csv_row) (row : csv_row) (rest : list csv_row) :
  (tag, load) ∈ adapters →
  blank_cell row "model" ∨ blank_cell row "cost_usd" →
  load (pre ++ row :: rest) = load (pre ++ rest).
Proof.
  intros Hload Hblank%blank_cell_skipped.
  rewrite !(adapters_loop _ _ _ Hload), !csv_loop_app.
  destruct (csv_loop tag ∅ pre) as [sums|e]; [|done]. simpl.
  cbn [csv_loop]. by rewrite csv_step_skipped.
Qed.

(** X9. A row that is not skipped and whose cost does not convert aborts
    the import with the conversion's exception, whatever the rows before it
    added and whatever follows: [ValueError] when [float()] rejects the
    text. *)
Theorem csv_import_aborts_on_bad_cost
    (tag : string) (load : list csv_row → result (gmap key Z))
    (pre : list csv_row) (row : csv_row) (rest : list csv_row)
    (sums : gmap key Z) (e : exn) :
  (tag, load) ∈ adapters →
  load pre = Ok sums →
  row_skipped row = false →
  row_amount row = Raise e →
  load (pre ++ row :: rest) = Raise e
  ∧ (float_of_str (row_cost row) = None → e = ValueError).
Proof.
  intros Hload Hpre Hskip Hamt. split.
  - rewrite (adapters_loop tag load pre Hload) in Hpre.
    rewrite (adapters_loop tag load _ Hload).
    rewrite csv_loop_app, Hpre. simpl. cbn [csv_loop].
    rewrite csv_step_amount by done. by rewrite Hamt.
  - intros Hf. unfold row_amount, py_float in Hamt. rewrite Hf in Hamt.
    simpl in Hamt. congruence.
Qed.

End ImportEdges.

Lemma csv_import_ignores_blank_rows_witness :
  @_load_gemini_csv sample_builtins
     [csv_line "flash" "0.5"; csv_line "flash" blank_sample; csv_line "flash" "0.125"]
  = @_load_gemini_csv sample_builtins
     [csv_line "flash" "0.5"; csv_line "flash" "0.125"]
  ∧ @_load_gemini_csv sample_builtins
      [csv_line "flash" "0.5"; {[ "model" := Some "flash" ]}; csv_line "flash" "0.125"]
    = @_load_gemini_csv sample_builtins
      [csv_line "flash" "0.5"; csv_line "flash" "0.125"].
Proof.
  split.
  - refine (@csv_import_ignores_blank_rows sample_builtins "gemini" _
              [csv_line "flash" "0.5"] (csv_line "flash" blank_sample)
              [csv_line "flash" "0.125"] _ _).
    + right. right. left.
    + right. unfold blank_cell. simpl.
      exists [String (ascii_of_nat 32) EmptyString;
              String (ascii_of_nat 194) (String (ascii_of_nat 160) EmptyString);
              String (ascii_of_nat 9) EmptyString;
              String (ascii_of_nat 226)
                (String (ascii_of_nat 128) (String (ascii_of_nat 131) EmptyString))].
      split; [repeat constructor|reflexivity].
  - refine (@csv_import_ignores_blank_rows sample_builtins "gemini" _
              [csv_line "flash" "0.5"] {[ "model" := Some "flash" ]}
              [csv_line "flash" "0.125"] _ _).
    + right. right. left.
    + right. reflexivity.
Defined.

Lemma csv_import_aborts_on_bad_cost_witness :
  @_load_openai_csv sample_builtins
     [csv_line "gpt-4" "0.5"; csv_line "gpt-4" "n/a"; csv_line "gpt-4" "0.125"]
  = Raise ValueError.
Proof.
  refine (proj1 (@csv_import_aborts_on_bad_cost sample_builtins "openai" _
            [csv_line "gpt-4" "0.5"] (csv_line "gpt-4" "n/a") [csv_line "gpt-4" "0.125"]
            {[ ("openai", "gpt-4") := 50000000 ]} ValueError _ _ _ _)).
  - left.
  - vm_compute. reflexivity.
  - vm_compute. reflexivity.
  - vm_compute. reflexivity.
Defined.

(** ** Printing amounts below 2^53 microcents *)

Lemma rne_div_100 (n : Z) :
  0 ≤ n → n mod 100 ≠ 50 → -49 ≤ 100 * rne_div n 100 - n ≤ 49.
Proof.
  intros Hn Hmod. unfold rne_div.
  pose proof (Z.div_mod n 100 ltac:(lia)) as Hdm.
  pose proof (Z.mod_pos_bound n 100 ltac:(lia)) as Hb.
  destruct (Z.compare_spec (2 * (n mod 100)) 100); [lia| |]; lia.
Qed.

Lemma format_usd_nearest (s : bool) (pn : positive) :
  Z.pos pn < 2 ^ 53 → Z.pos pn mod 100 ≠ 50 →
  _format_usd_from_microcents (cond_Zopp s (Z.pos pn))
  = Ok ((if s then "-" else "") +:+ fixed6 (rne_div (Z.pos pn) 100)).
Proof.
  intros Hn Hmod.
  destruct (int_truediv_microcents s pn) as (m & e & Hdiv & Hm & Happ).
  { etrans; [apply Hn|]. by apply Z.pow_lt_mono_r. }
  unfold _format_usd_from_microcents. rewrite Hdiv. cbn [rbind format_6f].
  rewrite <- Pos2Z.inj_mul. do 3 f_equal.
  apply rne_scaled_near. rewrite SF2Q_scale_mantissa.
  pose proof (rne_div_100 (Z.pos pn) ltac:(lia) Hmod) as [Hlo Hhi].
  set (K := rne_div (Z.pos pn) 100) in *.
  assert (HloQ : (inject_Z (-49) <= inject_Z (100 * K - Z.pos pn))%Q) by (by rewrite <- Zle_Qle).
  assert (HhiQ : (inject_Z (100 * K - Z.pos pn) <= inject_Z 49)%Q) by (by rewrite <- Zle_Qle).
  assert (HnQ : (inject_Z (Z.pos pn) <= inject_Z (2 ^ 53 - 1))%Q) by (rewrite <- Zle_Qle; lia).
  unfold Zminus in HloQ, HhiQ. rewrite inject_Z_plus, inject_Z_mult, inject_Z_opp in HloQ, HhiQ.
  change (inject_Z 100) with 100%Q in *. change (inject_Z 49) with 49%Q in *.
  change (inject_Z (-49)) with (-49 # 1)%Q in *.
  change (inject_Z (2 ^ 53 - 1)) with (9007199254740991 # 1)%Q in *.
  unfold approximates in Happ.
  set (w := SF2Q (S754_finite false m e)) in *.
  change (inject_Z 1000000) with 1000000%Q.
  set (nq := inject_Z (Z.pos pn)) in *.
  assert (Hnq : (0 < nq)%Q) by (unfold nq; change 0%Q with (inject_Z 0); by rewrite <- Zlt_Qlt).
  assert (Ha : (nq / 100000000 * 100000000 == nq)%Q) by (field; done).
  set (a := (nq / 100000000)%Q) in *.
  unfold half_ulp in *. change (2 ^ 53)%positive with 9007199254740992%positive in *.
  set (kq := inject_Z K) in *.
  apply Qabs_sym_lt. split; lra.
Qed.

Lemma rne_div_multiple (k : Z) : rne_div (100 * k) 100 = k.
Proof.
  unfold rne_div. rewrite (Z.mul_comm 100 k), Z.div_mul, Z.mod_mul by lia. done.
Qed.

Lemma rne_div_small (n : Z) : 0 ≤ n < 50 → rne_div n 100 = 0.
Proof.
  intros Hn. unfold rne_div. rewrite Z.div_small, Z.mod_small by lia.
  destruct (Z.compare_spec (2 * n) 100); lia.
Qed.

(** X10. For an amount below 2^53 microcents in magnitude that is not
    exactly halfway between two millionths of a dollar,
    [_format_usd_from_microcents] prints the amount correctly rounded to
    six decimals, with a minus sign when it is negative. So a whole number
    of millionths prints exactly, and a negative amount under half a
    millionth prints as [-0.000000]. *)
Theorem format_usd_rounds_to_millionths :
  (∀ n, Z.abs n < 2 ^ 53 → Z.abs n mod 100 ≠ 50 →
     _format_usd_from_microcents n
     = Ok ((if n <? 0 then "-" else "") +:+ fixed6 (rne_div (Z.abs n) 100)))
  ∧ (∀ k, 0 ≤ k < 2 ^ 46 → _format_usd_from_microcents (100 * k) = Ok (fixed6 k))
  ∧ (∀ n, -50 < n < 0 → _format_usd_from_microcents n = Ok "-0.000000").
Proof.
  assert (Hgen : ∀ n, Z.abs n < 2 ^ 53 → Z.abs n mod 100 ≠ 50 →
     _format_usd_from_microcents n
     = Ok ((if n <? 0 then "-" else "") +:+ fixed6 (rne_div (Z.abs n) 100))).
  { intros [|pn|pn] Hn Hmod; [reflexivity| |].
    - apply (format_usd_nearest false pn); done.
    - apply (format_usd_nearest true pn); done. }
  split_and!; [exact Hgen| |].
  - intros k Hk. rewrite Hgen.
    + rewrite Z.abs_eq, rne_div_multiple by lia.
      by replace (100 * k <? 0) with false by (symmetry; apply Z.ltb_ge; lia).
    + rewrite Z.abs_eq by lia. lia.
    + rewrite Z.abs_eq by lia. rewrite (Z.mul_comm 100 k), Z.mod_mul; lia.
  - intros n Hn. rewrite Hgen.
    + rewrite rne_div_small by lia.
      by replace (n <? 0) with true by (symmetry; apply Z.ltb_lt; lia).
    + lia.
    + rewrite Z.mod_small; lia.
Qed.

Example format_usd_examples :
  _format_usd_from_microcents 442100 = Ok "0.004421"
  ∧ _format_usd_from_microcents (-442100) = Ok "-0.004421"
  ∧ _format_usd_from_microcents 149 = Ok "0.000001"
  ∧ _format_usd_from_microcents (-49) = Ok "-0.000000".
Proof. split_and!; vm_compute; reflexivity. Qed.

(** ** Negative amounts *)

Lemma binary_round_aux_opp (s : bool) (m e : Z) (l : location) :
  binary_round_aux prec emax (negb s) m e l
  = SFopp (binary_round_aux prec emax s m e l).
Proof.
  unfold binary_round_aux.
  destruct (shr_fexp prec emax m e l) as [mrs' e'].
  destruct (shr_fexp prec emax _ e' loc_Exact) as [mrs'' e''].
  destruct (shr_m mrs''); [done| |done].
  by destruct (e'' <=? emax - prec).
Qed.

Lemma fmul_opp_l (x y : spec_float) : fmul (SFopp x) y = SFopp (fmul x y).
Proof.
  unfold fmul.
  destruct x as [sx|sx| |sx mx ex], y as [sy|sy| |sy my ey]; cbn [SFmul SFopp];
    rewrite <- ?negb_xorb_l; try done.
  apply binary_round_aux_opp.
Qed.

Lemma py_round_opp (x : spec_float) :
  py_round (SFopp x) = rbind (py_round x) (λ n, Ok (- n)).
Proof.
  destruct x as [s|s| |s m e]; simpl; try done.
  by destruct s; simpl; rewrite ?Z.opp_involutive.
Qed.

(** X11. The conversion is odd: a negated dollar amount (a credit or
    refund line) converts to exactly the negated microcents of the amount,
    and raises whenever the amount itself does. *)
Theorem usd_to_microcents_odd (usd : spec_float) :
  _usd_to_microcents (SFopp usd) = rbind (_usd_to_microcents usd) (λ n, Ok (- n)).
Proof.
  unfold _usd_to_microcents. by rewrite !fmul_opp_l, py_round_opp.
Qed.

(** ** Imports of decimal amounts *)

Lemma usd_to_microcents_exact (k : Z) :
  0 ≤ k < 10 ^ 13 → _usd_to_microcents (float_of_millionths k) = Ok (100 * k).
Proof.
  intros Hk. destruct (decide (k = 0)) as [->|Hk0]; [reflexivity|].
  destruct (usd_to_microcents_close k) as (mc & -> & _ & _ & Hex); [lia|].
  rewrite Hex; [done|lia].
Qed.

Lemma model_total_scaled (mks : list (string * Z)) (m : string) :
  model_total (prod_map id (Z.mul 100) <$> mks) m = 100 * model_total mks m.
Proof.
  induction mks as [|[m' k] mks IH]; [done|].
  rewrite fmap_cons. cbn [model_total foldr].
  fold (model_total (prod_map id (Z.mul 100) <$> mks) m) (model_total mks m).
  rewrite IH. simpl. case_decide; lia.
Qed.

Section ExactImport.
Context `{PyBuiltins}.

Lemma csv_amounts_millionths (rows : list csv_row) (mks : list (string * Z)) :
  Forall2 row_millionths rows mks →
  csv_amounts rows = Ok (prod_map id (Z.mul 100) <$> mks).
Proof.
  induction 1 as [|row [m k] rows mks (Hskip & Hm & Hk & Hf) _ IH]; [done|].
  cbn [csv_amounts]. rewrite Hskip. unfold row_amount. rewrite Hf. simpl in *.
  rewrite usd_to_microcents_exact by done. simpl. rewrite IH. simpl.
  by rewrite Hm.
Qed.

(** X12. An import of decimal amounts is exact: when every row of a file
    carries a cost that [float()] reads as the float nearest to a whole
    number of millionths of a dollar below 10^7 dollars, the adapter's sum
    for a model is 100 times the integer total of those millionths, however
    many rows there are; no float error accumulates. *)
Theorem csv_import_exact_for_millionths
    (tag : string) (load : list csv_row → result (gmap key Z))
    (rows : list csv_row) (mks : list (string * Z)) :
  (tag, load) ∈ adapters →
  Forall2 row_millionths rows mks →
  ∃ sums, load rows = Ok sums
    ∧ ∀ m, sums !! (tag, m)
           = if decide (m ∈ mks.*1) then Some (100 * model_total mks m) else None.
Proof.
  intros Hload Hrows. rewrite (adapters_loop _ _ _ Hload).
  destruct (csv_loop_spec tag rows ∅ _ (csv_amounts_millionths _ _ Hrows))
    as (sums & Hloop & Hsums).
  exists sums. split; [done|]. intros m. rewrite Hsums. simpl.
  rewrite <- list_fmap_compose.
  replace ((fst ∘ prod_map id (Z.mul 100)) <$> mks) with (mks.*1)
    by (apply list_fmap_ext; by intros ? []).
  unfold get0. rewrite lookup_empty, model_total_scaled. simpl.
  destruct (decide (m ∈ mks.*1)).
  - by rewrite decide_True.
  - rewrite decide_False; [done|]. by intros [_ ?].
Qed.

End ExactImport.

Lemma csv_import_exact_for_millionths_witness :
  ∃ sums,
    @_load_openai_csv sample_builtins
       [csv_line "gpt-5.2-pro" "0.003421"; csv_line "gpt-4" "12.5";
        csv_line "gpt-5.2-pro" "0.001000"] = Ok sums
    ∧ sums !! ("openai", "gpt-5.2-pro") = Some 442100
    ∧ sums !! ("openai", "gpt-4") = Some 1250000000.
Proof.
  destruct (@csv_import_exact_for_millionths sample_builtins "openai"
              (@_load_openai_csv sample_builtins)
              [csv_line "gpt-5.2-pro" "0.003421"; csv_line "gpt-4" "12.5";
               csv_line "gpt-5.2-pro" "0.001000"]
              [("gpt-5.2-pro", 3421); ("gpt-4", 12500000); ("gpt-5.2-pro", 1000)])
    as (sums & Hload & Hsums).
  - left.
  - repeat constructor; vm_compute; congruence.
  - exists sums. split; [exact Hload|]. split; rewrite Hsums; vm_compute; reflexivity.
Defined.

(** ** More on the bootstrap script *)

Lemma headers_api_key (api_key : option string) (k : string) :
  ("x-api-key", k) ∈ _headers api_key ↔ api_key = Some k ∧ k ≠ "".
Proof.
  unfold _headers. destruct api_key as [k'|].
  - destruct (String.eqb_spec k' "") as [->|Hne].
    + split.
      * intros Hin. repeat (apply elem_of_cons in Hin as [[=]|Hin]). by apply elem_of_nil in Hin.
      * intros [[= <-] ?]. done.
    + split.
      * intros Hin. repeat (apply elem_of_cons in Hin as [Heq|Hin]); try discriminate Heq.
        -- injection Heq as <-. done.
        -- by apply elem_of_nil in Hin.
      * intros [[= ->] _]. simpl. do 2 right. left.
  - split; [|by intros [? _]].
    intros Hin. repeat (apply elem_of_cons in Hin as [[=]|Hin]). by apply elem_of_nil in Hin.
Qed.

Section BootstrapMore.
Context `{PyBuiltins}.

(** The calls a run of [main] can make. *)
Lemma bootstrap_calls srv args c :
  let base := rstrip_slash (ba_base_url args) in
  let headers := _headers (ba_api_key args) in
  c ∈ (run_io (bootstrap_main srv args)).1 →
  c = health_call base
  ∨ c = agents_call base headers (ba_name args)
  ∨ (∃ id, c = budget_call base headers id (ba_limit args) (effective_topup args))
  ∨ (∃ id, c = runs_call base headers id).
Proof.
  intros base headers Hc.
  destruct (run_io (bootstrap_main srv args)) as [t r] eqn:Hrun. simpl in Hc.
  apply bootstrap_shape in Hrun.
  destruct Hrun as [e Hskip Hbad|t r Hskip Hp|t r Hskip Hok Hp].
  - apply list_elem_of_singleton in Hc. by left.
  - destruct (provisioned_calls _ _ _ _ _ _ Hp Hc) as [[]%elem_of_nil|?]. by right.
  - destruct (provisioned_calls _ _ _ _ _ _ Hp Hc) as [->%list_elem_of_singleton|?];
      [by left|by right].
Qed.

(** X13. The API key goes out only with the provisioning calls: a call of
    the bootstrap script carries the header [x-api-key: k] exactly when it
    is a POST and [k] is the non-empty key the script was given. The health
    check never carries it, and an empty key is never sent. *)
Theorem api_key_sent_only_on_posts srv args c k :
  c ∈ (run_io (bootstrap_main srv args)).1 →
  ("x-api-key", k) ∈ call_headers c
  ↔ call_method c = "POST" ∧ ba_api_key args = Some k ∧ k ≠ "".
Proof.
  intros Hc.
  destruct (bootstrap_calls srv args c Hc) as [->|[->|[[id ->]|[id ->]]]];
    cbn [call_headers call_method health_call agents_call budget_call runs_call].
  - split; [|by intros [? _]].
    intros Hin. apply list_elem_of_singleton in Hin. discriminate Hin.
  - rewrite headers_api_key. tauto.
  - rewrite headers_api_key. tauto.
  - rewrite headers_api_key. tauto.
Qed.

Lemma provisioned_success srv args pre t out :
  let base := rstrip_slash (ba_base_url args) in
  let headers := _headers (ba_api_key args) in
  provisioned srv args pre t (Ok out) →
  t = pre ++ [agents_call base headers (ba_name args);
              budget_call base headers (out_agent_id out) (ba_limit args)
                (effective_topup args)]
          ++ (if ba_create_run args then [runs_call base headers (out_agent_id out)] else [])
  ∧ out_base_url out = base
  ∧ returned_agent_id (srv pre (agents_call base headers (ba_name args))) (out_agent_id out)
  ∧ (is_Some (out_run out) ↔ ba_create_run args = true).
Proof.
  intros base headers Hp.
  inversion Hp as [| |id budget Hid Hb Hrun|
                   |id budget run Hid Hb Hrun Hr]; subst; rewrite Hrun; simpl.
  - split_and!; [done..|]. split; [by intros [? [=]]|done].
  - split_and!; [done..|]. split; [done|by eexists].
Qed.

(** X14. A run of the bootstrap script that succeeds has made exactly
    these calls, in this order: the health check unless it was skipped, the
    agent creation, the budget call, and the run creation when
    [--create-run] was given. The budget and run calls address the agent
    whose non-empty id the service returned, which is the id the script
    reports, and the output holds a run exactly when one was asked for. *)
Theorem bootstrap_success_trace srv args t out :
  let base := rstrip_slash (ba_base_url args) in
  let headers := _headers (ba_api_key args) in
  let pre := if ba_skip_health_check args then [] else [health_call base] in
  let ac := agents_call base headers (ba_name args) in
  run_io (bootstrap_main srv args) = (t, Ok out) →
  t = pre ++ [ac; budget_call base headers (out_agent_id out) (ba_limit args)
                    (effective_topup args)]
          ++ (if ba_create_run args then [runs_call base headers (out_agent_id out)] else [])
  ∧ out_base_url out = base
  ∧ returned_agent_id (srv pre ac) (out_agent_id out)
  ∧ (is_Some (out_run out) ↔ ba_create_run args = true)
  ∧ length t = ((if ba_skip_health_check args then 0 else 1) + 2
                + (if ba_create_run args then 1 else 0))%nat.
Proof.
  intros base headers pre ac Hrun. apply bootstrap_shape in Hrun.
  assert (Hp : provisioned srv args pre t (Ok out)).
  { unfold pre. inversion Hrun as [|? ? Hskip Hp|? ? Hskip Hok Hp]; subst;
      by rewrite Hskip. }
  destruct (provisioned_success _ _ _ _ _ Hp) as (Ht & Hb & Hid & Hr).
  split_and!; [done..|].
  rewrite Ht. unfold pre.
  destruct (ba_skip_health_check args), (ba_create_run args); reflexivity.
Qed.

End BootstrapMore.

Lemma bootstrap_success_trace_witness :
  let srv := scripted_server (obj1 "status" (quoted "ok")) (obj1 "agent_id" (quoted "a1"))
               (obj1 "hard_limit_cents" "500") (obj1 "run_id" (quoted "r1")) in
  ∃ t out, run_io (@bootstrap_main sample_builtins srv sample_bootstrap_args) = (t, Ok out)
    ∧ length t = 4%nat ∧ out_agent_id out = "a1".
Proof.
  intros srv.
  destruct (run_io (@bootstrap_main sample_builtins srv sample_bootstrap_args))
    as [t [out|e]] eqn:Hrun; [|vm_compute in Hrun; discriminate Hrun].
  exists t, out. split; [reflexivity|].
  destruct (@bootstrap_success_trace sample_builtins srv sample_bootstrap_args t out Hrun)
    as (_ & _ & _ & _ & Hlen).
  split; [exact Hlen|].
  vm_compute in Hrun. injection Hrun as _ <-. reflexivity.
Defined.

Lemma api_key_sent_only_on_posts_witness :
  let args := mkBootstrapArgs "http://h/" "strict-budget-agent" 500 None (Some "sk-1")
                false true false in
  let srv := scripted_server (obj1 "status" (quoted "ok")) (obj1 "agent_id" (quoted "a1"))
               (obj1 "hard_limit_cents" "500") (obj1 "run_id" (quoted "r1")) in
  let c := @budget_call "http://h" (_headers (Some "sk-1")) "a1" 500 500 in
  c ∈ (run_io (@bootstrap_main sample_builtins srv args)).1
  ∧ ("x-api-key", "sk-1") ∈ call_headers c.
Proof.
  intros args srv c.
  assert (Hc : c ∈ (run_io (@bootstrap_main sample_builtins srv args)).1).
  { vm_compute. do 2 right. left. }
  split; [exact Hc|].
  apply (proj2 (@api_key_sent_only_on_posts sample_builtins srv args c "sk-1" Hc)).
  split_and!; [reflexivity|reflexivity|discriminate].
Defined.

(** ** Failed requests *)

Section RequestErrors.
Context `{PyBuiltins}.


End RequestErrors.

Example bootstrap_http_error :
  let srv : server := λ _ c,
    if String.eqb (call_method c) "GET" then ReplyBody (obj1 "status" (quoted "ok"))
    else ReplyHTTPError 401 "[1, 2]" in
  run_io (@bootstrap_main sample_builtins srv sample_bootstrap_args)
  = ([health_call "http://h";
      agents_call "http://h" (_headers None) "strict-budget-agent"],
     Raise (RuntimeError "HTTP 401: [1, 2]")).
Proof. vm_compute. reflexivity. Qed.

(** ** Trailing slashes of the base URL *)

Lemma rstrip_by_snoc (drop : ascii → bool) (s : string) (c : ascii) :
  drop c = true → rstrip_by drop (s +:+ String c EmptyString) = rstrip_by drop s.
Proof.
  intros Hc. induction s as [|a s IH].
  - simpl. by rewrite Hc.
  - change (String a s +:+ String c "") with (String a (s +:+ String c "")).
    cbn [rstrip_by]. by rewrite IH.
Qed.

Lemma rstrip_by_last (drop : ascii → bool) (s : string) (c : ascii) :
  last_char (rstrip_by drop s) = Some c → drop c = false.
Proof.
  revert c. induction s as [|a s IH]; intros c; [done|].
  cbn [rstrip_by]. destruct (rstrip_by drop s) as [|b r] eqn:Hr.
  - destruct (drop a) eqn:Ha; [done|]. simpl. by intros [= <-].
  - intros Hl. apply IH. cbn [last_char] in Hl |- *.
    by destruct (last_char r).
Qed.

Lemma rstrip_slash_snoc (s : string) : rstrip_slash (s +:+ "/") = rstrip_slash s.
Proof. by apply rstrip_by_snoc. Qed.

Section TrailingSlash.
Context `{PyBuiltins}.

Lemma traffic_loop_base srv (targs : traffic_args) (b base : string) aid idxs : ∀ t,
  traffic_loop srv (with_traffic_base_url targs b) base aid idxs t
  = traffic_loop srv targs base aid idxs t.
Proof.
  induction idxs as [|i idxs IH]; intros t; [done|].
  cbn [traffic_loop]. unfold mbind, io_bind.
  change (traffic_step srv (with_traffic_base_url targs b) base aid i t)
    with (traffic_step srv targs base aid i t).
  destruct (traffic_step srv targs base aid i t) as [t' [[]|e]]; [apply IH|done].
Qed.

(** X16. A trailing slash of [--base-url] makes no difference: with the
    slash added, the bootstrap script and the traffic generator make the
    same calls and end the same way. The base the URLs are built on never
    ends in a slash, so each URL has a single slash before its path. *)
Theorem base_url_trailing_slash_ignored
    (srv : server) (args : bootstrap_args) (targs : traffic_args) :
  run_io (bootstrap_main srv (with_base_url args (ba_base_url args +:+ "/")))
  = run_io (bootstrap_main srv args)
  ∧ run_io (traffic_main srv (with_traffic_base_url targs (ta_base_url targs +:+ "/")))
    = run_io (traffic_main srv targs)
  ∧ last_char (rstrip_slash (ba_base_url args)) ≠ Some "/"%char
  ∧ last_char (rstrip_slash (ta_base_url targs)) ≠ Some "/"%char.
Proof.
  split_and!.
  - unfold bootstrap_main, check_health, provision, with_base_url, effective_topup.
    cbn [ba_base_url ba_name ba_limit ba_topup ba_api_key ba_skip_health_check
         ba_create_run ba_json].
    by rewrite rstrip_slash_snoc.
  - unfold run_io, traffic_main.
    change (check_args (with_traffic_base_url targs _)) with (check_args targs).
    destruct (check_args targs); [|done].
    cbn [with_traffic_base_url ta_base_url ta_agent_name ta_hard_limit_cents
         ta_topup_cents ta_n].
    rewrite rstrip_slash_snoc. unfold mbind, io_bind.
    destruct (post srv _ []) as [t1 [agent|e]]; [|done].
    destruct (negb (truthy (get_if_dict agent "agent_id"))); [done|].
    destruct (post srv _ t1) as [t2 [budget|e]]; [|done].
    fold (with_traffic_base_url targs (ta_base_url targs +:+ "/")).
    by rewrite traffic_loop_base.
  - intros Hl. by apply rstrip_by_last in Hl.
  - intros Hl. by apply rstrip_by_last in Hl.
Qed.

End TrailingSlash.

(** ** More on the traffic generator *)

Section TrafficMore.
Context `{PyBuiltins}.

Lemma traffic_main_invalid srv args e :
  check_args args = Raise e → run_io (traffic_main srv args) = ([], Raise e).
Proof. unfold run_io, traffic_main. by intros ->. Qed.

(** X17. The traffic generator checks its numeric arguments before any
    request, in the order [--n], [--max-output-tokens],
    [--hard-limit-cents], [--topup-cents], and exits with the message of
    the first one that fails; a run that made a call had all four in
    range. *)
Theorem traffic_arguments_checked_in_order (srv : server) (args : traffic_args) :
  let run := run_io (traffic_main srv args) in
  (ta_n args ≤ 0 → run = ([], Raise (SystemExit "--n must be > 0")))
  ∧ (0 < ta_n args → ta_max_output_tokens args ≤ 0 →
     run = ([], Raise (SystemExit "--max-output-tokens must be > 0")))
  ∧ (0 < ta_n args → 0 < ta_max_output_tokens args → ta_hard_limit_cents args ≤ 0 →
     run = ([], Raise (SystemExit "--hard-limit-cents must be > 0")))
  ∧ (0 < ta_n args → 0 < ta_max_output_tokens args → 0 < ta_hard_limit_cents args →
     ta_topup_cents args < 0 →
     run = ([], Raise (SystemExit "--topup-cents must be >= 0")))
  ∧ (run.1 ≠ [] →
     0 < ta_n args ∧ 0 < ta_max_output_tokens args
     ∧ 0 < ta_hard_limit_cents args ∧ 0 ≤ ta_topup_cents args).
Proof.
  intros run. unfold run. split_and!.
  - intros Hn. apply traffic_main_invalid. unfold check_args.
    by rewrite (proj2 (Z.leb_le _ _) Hn).
  - intros Hn Hm. apply traffic_main_invalid. unfold check_args.
    rewrite (proj2 (Z.leb_gt _ _)) by lia. by rewrite (proj2 (Z.leb_le _ _) Hm).
  - intros Hn Hm Hh. apply traffic_main_invalid. unfold check_args.
    rewrite !(proj2 (Z.leb_gt _ _)) by lia. by rewrite (proj2 (Z.leb_le _ _) Hh).
  - intros Hn Hm Hh Ht. apply traffic_main_invalid. unfold check_args.
    rewrite !(proj2 (Z.leb_gt _ _)) by lia. by rewrite (proj2 (Z.ltb_lt _ _) Ht).
  - intros Hne. apply check_args_bounds.
    destruct (check_args args) as [[]|e] eqn:Hcheck; [done|].
    by rewrite (traffic_main_invalid srv args e Hcheck) in Hne.
Qed.

Lemma traffic_step_length srv args base aid i t t' r :
  traffic_step srv args base aid i t = (t', r) → (length t' ≤ length t + 2)%nat.
Proof.
  rewrite traffic_step_run. cbv zeta.
  destruct (decode_http_json _ _ _) as [run|e].
  2:{ intros [= <- <-]. rewrite length_app. simpl. lia. }
  destruct (truthy (get_if_dict run "run_id")); simpl.
  2:{ intros [= <- <-]. rewrite length_app. simpl. lia. }
  destruct (decode_http_json _ _ _) as [v|e]; intros [= <- <-];
    rewrite length_app; simpl; lia.
Qed.

Lemma traffic_loop_length srv args base aid idxs : ∀ t t' r,
  traffic_loop srv args base aid idxs t = (t', r) →
  (length t' ≤ length t + 2 * length idxs)%nat.
Proof.
  induction idxs as [|i idxs IH]; intros t t' r; cbn [traffic_loop].
  - intros [= <- <-]. lia.
  - unfold mbind at 1, io_bind at 1.
    destruct (traffic_step srv args base aid i t) as [t1 [[]|e]] eqn:Hstep;
      apply traffic_step_length in Hstep.
    + intros Hloop%IH. simpl. lia.
    + intros [= <- <-]. simpl. lia.
Qed.

(** The run of [main] once the arguments are accepted, by what the
    service answers to the agent creation. *)
Lemma traffic_main_agent srv args :
  let base := rstrip_slash (ta_base_url args) in
  let ac := t_agents_call base (ta_agent_name args) in
  check_args args = Ok () →
  match decode_http_json "POST" (agents_url base) (srv [] ac) with
  | Raise e => run_io (traffic_main srv args) = ([ac], Raise e)
  | Ok agent =>
      let aid := get_if_dict agent "agent_id" in
      if truthy aid
      then ∃ l, (run_io (traffic_main srv args)).1
                = [ac; t_budget_call base (py_str aid)
                         (ta_hard_limit_cents args) (ta_topup_cents args)] ++ l
             ∧ Forall (is_loop_call args base (py_str aid)) l
             ∧ (length l ≤ 2 * Z.to_nat (ta_n args))%nat
      else run_io (traffic_main srv args)
           = ([ac], Raise (RuntimeError ("Unexpected /v1/agents response: "
                                          +:+ py_str agent)))
  end.
Proof.
  intros base ac Hcheck. unfold run_io, traffic_main. fold base. rewrite Hcheck.
  unfold t_agents_call. rewrite bind_post.
  fold (t_agents_call base (ta_agent_name args)). fold ac. simpl.
  destruct (decode_http_json _ _ _) as [agent|e]; [|done].
  destruct (truthy (get_if_dict agent "agent_id")); simpl; [|done].
  set (aid := get_if_dict agent "agent_id").
  unfold t_budget_call. rewrite bind_post.
  fold (t_budget_call base (py_str aid) (ta_hard_limit_cents args) (ta_topup_cents args)).
  simpl. destruct (decode_http_json _ _ _) as [budget|e].
  2:{ exists []. split_and!; [done|constructor|simpl; lia]. }
  unfold mbind, io_bind.
  match goal with |- context [traffic_loop ?s ?a ?b ?i ?l ?t0] =>
    destruct (traffic_loop s a b i l t0) as [t1 r] eqn:Hloop end.
  destruct (traffic_loop_calls _ _ _ _ _ _ _ _ Hloop) as (l & -> & Hl & _).
  apply traffic_loop_length in Hloop.
  rewrite length_app in Hloop. unfold range in Hloop. rewrite length_seq in Hloop.
  exists l. split_and!; [by destruct r as [[]|e]|done|lia].
Qed.

Lemma json_call_shape url payload :
  call_method (json_call url payload) = "POST"
  ∧ call_headers (json_call url payload)
    = [("Accept", "application/json"); ("Content-Type", "application/json")]
  ∧ call_payload (json_call url payload) = Some payload.
Proof. done. Qed.

Lemma loop_call_shape args base aid c :
  is_loop_call args base aid c → ∃ url payload, c = json_call url payload.
Proof. intros [->|(rid & i & ->)]; by eexists _, _. Qed.

(** X18. The traffic generator goes on only with a usable agent: when
    the reply to the agent creation holds no truthy [agent_id] (an empty
    body, a document that is not an object, an empty or missing id) it
    stops after that one call with [RuntimeError]; every other call it ever
    makes is the budget call or a call of the loop, addressed to the
    [agent_id] that reply held. *)
Theorem traffic_needs_agent_id (srv : server) (args : traffic_args) :
  let base := rstrip_slash (ta_base_url args) in
  let ac := t_agents_call base (ta_agent_name args) in
  let reply := decode_http_json "POST" (agents_url base) (srv [] ac) in
  check_args args = Ok () →
  (∀ agent, reply = Ok agent → truthy (get_if_dict agent "agent_id") = false →
     run_io (traffic_main srv args)
     = ([ac], Raise (RuntimeError ("Unexpected /v1/agents response: " +:+ py_str agent))))
  ∧ (∀ c, c ∈ (run_io (traffic_main srv args)).1 → c ≠ ac →
     ∃ agent, reply = Ok agent
       ∧ truthy (get_if_dict agent "agent_id") = true
       ∧ (c = t_budget_call base (py_str (get_if_dict agent "agent_id"))
                (ta_hard_limit_cents args) (ta_topup_cents args)
          ∨ is_loop_call args base (py_str (get_if_dict agent "agent_id")) c)).
Proof.
  intros base ac reply Hcheck.
  pose proof (traffic_main_agent srv args Hcheck) as Hrun.
  cbv zeta in Hrun. fold base ac reply in Hrun. split.
  - intros agent Hreply Hfalsy. rewrite Hreply in Hrun. by rewrite Hfalsy in Hrun.
  - intros c Hc Hne. destruct reply as [agent|e].
    + destruct (truthy (get_if_dict agent "agent_id")) eqn:Hid.
      * destruct Hrun as (l & Ht & Hl & _). rewrite Ht in Hc.
        exists agent. split_and!; [done..|].
        apply elem_of_app in Hc as [Hc|Hc].
        -- repeat (apply elem_of_cons in Hc as [->|Hc]); [done|by left|].
           by apply elem_of_nil in Hc.
        -- right. by eapply Forall_forall in Hl.
      * rewrite Hrun in Hc. by apply list_elem_of_singleton in Hc.
    + rewrite Hrun in Hc. by apply list_elem_of_singleton in Hc.
Qed.

(** X19. The traffic generator only ever POSTs JSON: each of its calls is
    a POST with a JSON body and the headers [Accept] and [Content-Type],
    no other header, and a run makes at most [2 + 2 n] calls for [--n n]. *)
Theorem traffic_calls_are_json_posts (srv : server) (args : traffic_args) :
  let t := (run_io (traffic_main srv args)).1 in
  (∀ c, c ∈ t →
     call_method c = "POST"
     ∧ call_headers c = [("Accept", "application/json");
                         ("Content-Type", "application/json")]
     ∧ is_Some (call_payload c))
  ∧ (length t ≤ 2 + 2 * Z.to_nat (ta_n args))%nat.
Proof.
  intros t.
  assert (Hjson : ∀ c, (∃ url payload, c = json_call url payload) →
            call_method c = "POST"
            ∧ call_headers c = [("Accept", "application/json");
                                ("Content-Type", "application/json")]
            ∧ is_Some (call_payload c)).
  { intros c (url & payload & ->). split_and!; [done..|by eexists]. }
  destruct (check_args args) as [[]|e] eqn:Hcheck.
  2:{ unfold t. rewrite (traffic_main_invalid srv args e Hcheck). simpl.
      split; [by intros c []%elem_of_nil|lia]. }
  pose proof (traffic_main_agent srv args Hcheck) as Hrun. cbv zeta in Hrun.
  set (ac := t_agents_call (rstrip_slash (ta_base_url args)) (ta_agent_name args)) in *.
  assert (Hone : t = [ac] →
            (∀ c, c ∈ t → call_method c = "POST"
               ∧ call_headers c = [("Accept", "application/json");
                                   ("Content-Type", "application/json")]
               ∧ is_Some (call_payload c))
            ∧ (length t ≤ 2 + 2 * Z.to_nat (ta_n args))%nat).
  { intros ->. split; [|simpl; lia].
    intros c ->%list_elem_of_singleton. apply Hjson. by eexists _, _. }
  destruct (decode_http_json _ _ _) as [agent|e]; [|apply Hone; unfold t; by rewrite Hrun].
  destruct (truthy (get_if_dict agent "agent_id")); [|apply Hone; unfold t; by rewrite Hrun].
  destruct Hrun as (l & Ht & Hl & Hlen). fold t in Ht. rewrite Ht. split.
  - intros c Hc. apply Hjson. apply elem_of_app in Hc as [Hc|Hc].
    + repeat (apply elem_of_cons in Hc as [->|Hc]); [by eexists _, _..|].
      by apply elem_of_nil in Hc.
    + eapply loop_call_shape, Forall_forall; done.
  - rewrite length_app. simpl. lia.
Qed.

End TrafficMore.

Lemma traffic_needs_agent_id_witness :
  let args := sample_traffic_args 1 500 in
  let srv := constant_server "[1, 2]" in
  run_io (@traffic_main sample_builtins srv args)
  = ([t_agents_call "http://h" "traffic-test"],
     Raise (RuntimeError "Unexpected /v1/agents response: [1, 2]")).
Proof.
  intros args srv.
  exact (proj1 (@traffic_needs_agent_id sample_builtins srv args eq_refl)
           (PList [PInt 1; PInt 2]) eq_refl eq_refl).
Defined.

Section TrafficBudget.
Context `{PyBuiltins}.

(** X20. The traffic generator sends no traffic without a budget: when
    the budget call fails, the run ends there with that exception, after
    the agent creation and the budget call and nothing else; so whenever a
    run was created or a request sent, the budget call before it had been
    answered without error. *)
Theorem traffic_needs_budget (srv : server) (args : traffic_args) (agent : pyval) :
  let base := rstrip_slash (ta_base_url args) in
  let ac := t_agents_call base (ta_agent_name args) in
  let aid := get_if_dict agent "agent_id" in
  let bc := t_budget_call base (py_str aid) (ta_hard_limit_cents args)
              (ta_topup_cents args) in
  let budget_reply := decode_http_json "POST" (call_url bc) (srv [ac] bc) in
  check_args args = Ok () →
  decode_http_json "POST" (agents_url base) (srv [] ac) = Ok agent →
  truthy aid = true →
  (∀ e, budget_reply = Raise e → run_io (traffic_main srv args) = ([ac; bc], Raise e))
  ∧ (∀ c, c ∈ (run_io (traffic_main srv args)).1 →
       is_loop_call args base (py_str aid) c → is_ok budget_reply = true).
Proof.
  intros base ac aid bc budget_reply Hcheck Hagent Hid.
  assert (Hrun : match budget_reply with
                 | Raise e => run_io (traffic_main srv args) = ([ac; bc], Raise e)
                 | Ok _ => True
                 end).
  { unfold run_io, traffic_main. fold base. rewrite Hcheck.
    unfold t_agents_call. rewrite bind_post.
    fold (t_agents_call base (ta_agent_name args)). fold ac. simpl.
    rewrite Hagent. fold aid. rewrite Hid. simpl.
    unfold t_budget_call. rewrite bind_post.
    fold (t_budget_call base (py_str aid) (ta_hard_limit_cents args) (ta_topup_cents args)).
    fold bc. simpl. unfold budget_reply. simpl.
    by destruct (decode_http_json _ _ _). }
  split.
  - intros e He. by rewrite He in Hrun.
  - intros c Hc Hloop. destruct budget_reply as [v|e]; [done|].
    rewrite Hrun in Hc. exfalso.
    repeat (apply elem_of_cons in Hc as [->|Hc]); [| |by apply elem_of_nil in Hc].
    + destruct Hloop as [Heq|(rid & i & Heq)].
      * apply (f_equal call_url) in Heq. by apply agents_url_not_runs in Heq.
      * apply (f_equal call_url) in Heq. simpl in Heq.
        unfold agents_url, responses_url in Heq.
        apply (inj (String.app base)) in Heq. discriminate Heq.
    + by apply loop_call_not_budget in Hloop; apply Hloop; split; [|eexists].
Qed.

End TrafficBudget.

Lemma traffic_needs_budget_witness :
  let args := sample_traffic_args 3 500 in
  let srv : server := λ t c,
    match t with
    | [] => ReplyBody both_ids
    | _ => ReplyHTTPError 402 "budget rejected"
    end in
  run_io (@traffic_main sample_builtins srv args)
  = ([t_agents_call "http://h" "traffic-test"; t_budget_call "http://h" "a1" 500 500],
     Raise (RuntimeError "HTTP 402 POST http://h/v1/agents/a1/budget: budget rejected")).
Proof.
  intros args srv.
  exact (proj1 (@traffic_needs_budget sample_builtins srv args
                  (PDict [("agent_id", PStr "a1"); ("run_id", PStr "r1")])
                  eq_refl eq_refl eq_refl) _ eq_refl).
Defined.

(** ** The report read the other way round, and printed *)

(** X21. Exchanging the two sources of a report keeps its keys and their
    order, exchanges the two amount columns and negates every diff. *)
Theorem report_sources_exchanged (L P : gmap key Z) :
  report P L = swap_row <$> report L P.
Proof.
  unfold report, report_keys. rewrite <- list_fmap_compose.
  rewrite (comm_L (∪) (dom P) (dom L)).
  apply list_fmap_ext. intros _ k _. unfold report_row, swap_row. simpl.
  f_equal. lia.
Qed.

Lemma format_usd_ok (n : Z) :
  Z.abs n < 2 ^ 1000 → ∃ s, _format_usd_from_microcents n = Ok s.
Proof. intros Hn. destruct (format_usd_shape n Hn) as (v & _ & Hf & _). by eexists. Qed.

(** X22. Printing a report whose amounts are all below 2^1000 microcents
    in magnitude never fails: it gives one line per row, in order, each of
    the form [provider,model,ledger,provider_cost,diff] with the three
    amounts formatted by [_format_usd_from_microcents]. *)
Theorem report_lines_printed (rep : list ReportRow) :
  Forall row_printable rep →
  ∃ lines, report_lines rep = Ok lines
    ∧ length lines = length rep
    ∧ ∀ i r, rep !! i = Some r →
        ∃ l pr diff,
          _format_usd_from_microcents (rr_ledger r) = Ok l
          ∧ _format_usd_from_microcents (rr_provider_cost r) = Ok pr
          ∧ _format_usd_from_microcents (rr_diff r) = Ok diff
          ∧ lines !! i = Some (rr_provider r +:+ "," +:+ rr_model r +:+ ","
                               +:+ l +:+ "," +:+ pr +:+ "," +:+ diff).
Proof.
  induction 1 as [|r rep (Hl & Hp & Hd) _ (lines & Hlines & Hlen & Hall)].
  - exists []. split_and!; [done..|]. by intros i r [=].
  - destruct (format_usd_ok _ Hl) as [l Hfl].
    destruct (format_usd_ok _ Hp) as [pr Hfp].
    destruct (format_usd_ok _ Hd) as [d Hfd].
    eexists (_ :: lines). cbn [report_lines]. unfold report_line.
    rewrite Hfl, Hfp, Hfd. simpl. rewrite Hlines. simpl.
    split_and!; [done|by rewrite Hlen|].
    intros [|i] r'; simpl.
    + intros [= <-]. by exists l, pr, d.
    + apply Hall.
Qed.

Lemma report_lines_printed_witness :
  let rep := report {[ ("openai", "gpt-5.2-pro") := 442100 ]}
                    {[ ("openai", "gpt-5.2-pro") := 442000; ("gemini", "flash") := 50 ]} in
  report_lines rep
  = Ok ["gemini,flash,0.000000,0.000000,-0.000000";
        "openai,gpt-5.2-pro,0.004421,0.004420,0.000001"].
Proof.
  intros rep.
  destruct (report_lines_printed rep) as (lines & Hlines & _).
  - repeat constructor; vm_compute; congruence.
  - rewrite Hlines. vm_compute in Hlines. exact (eq_sym Hlines).
Defined.

(** ** Timestamps *)

Lemma last_char_snoc (s : string) (c : ascii) :
  last_char (s +:+ String c EmptyString) = Some c.
Proof.
  induction s as [|a s IH]; [done|].
  change (String a s +:+ String c "") with (String a (s +:+ String c "")).
  cbn [last_char]. by rewrite IH.
Qed.

Lemma drop_last_snoc (s : string) (c : ascii) :
  drop_last (s +:+ String c EmptyString) = s.
Proof.
  induction s as [|a s IH]; [done|].
  change (String a s +:+ String c "") with (String a (s +:+ String c "")).
  cbn [drop_last]. rewrite IH. by destruct s.
Qed.

Lemma app_assoc_string (a b c : string) : (a +:+ b) +:+ c = a +:+ (b +:+ c).
Proof.
  induction a as [|x a IH]; [done|].
  change (String x (a +:+ b) +:+ c = String x (a +:+ b +:+ c)). cbn [String.append].
  change (String x ((a +:+ b) +:+ c) = String x (a +:+ b +:+ c)). by rewrite IH.
Qed.

Section ParseIsoFacts.
Variable datetime : Type.
Variable fromisoformat : string → result datetime.

(** X23. [_parse_iso] reads a trailing [Z] as the UTC offset: a timestamp
    ending in [Z] parses to what the same timestamp ending in [+00:00]
    parses to, leading whitespace (of ASCII or beyond) being dropped in
    both; what the library's parser is handed is the text without its
    leading whitespace, ending in [+00:00]. *)
Theorem parse_iso_reads_Z_as_utc (ts : string) :
  _parse_iso datetime fromisoformat (ts +:+ "Z")
  = _parse_iso datetime fromisoformat (ts +:+ "+00:00")
  ∧ _parse_iso datetime fromisoformat (ts +:+ "Z")
    = fromisoformat (lstrip ts +:+ "+00:00").
Proof.
  assert (HZ : _parse_iso datetime fromisoformat (ts +:+ "Z")
               = fromisoformat (lstrip ts +:+ "+00:00")).
  { unfold _parse_iso, strip. rewrite lstrip_app by first [done | vm_compute; lia].
    rewrite rstrip_keep by first [done | vm_compute; lia].
    unfold ends_with_Z. rewrite last_char_snoc. simpl.
    by rewrite drop_last_snoc. }
  split; [|exact HZ]. rewrite HZ.
  unfold _parse_iso, strip. rewrite lstrip_app by first [done | vm_compute; lia].
  change "+00:00" with ("+00:0" +:+ "0").
  rewrite <- app_assoc_string.
  rewrite (rstrip_keep (lstrip ts +:+ "+00:0") "0") by first [done | vm_compute; lia].
  unfold ends_with_Z. by rewrite last_char_snoc.
Qed.

End ParseIsoFacts.
